(** * Alkoteka parser: product extraction, pipelines, crawl callbacks and
      proxy rotation, embedded from the Python sources.

    The development follows the layout of the repository:
    - [Py]: the Python values the code manipulates (the objects produced by
      [json.loads]) and the built-ins it calls on them;
    - [Re]: the three regular expressions of the spider;
    - [Spider]: [spiders/alkoteka_spider.py];
    - [Pipelines]: [pipelines.py];
    - [Proxy]: [ProxyMiddleware] of [middlewares.py]. *)

From Stdlib Require Import ZArith NArith List Bool String Ascii Lia.
From Stdlib Require Import Floats.SpecFloat.
From stdpp Require Import base decidable option list gmap.
Import ListNotations.
Local Open Scope Z_scope.
Set Warnings "-register-all".


(** ** Python values *)

Module Py.

(** A Python [str] is a sequence of code points. *)
Definition char := N.
Definition str := list N.

(** Literals of the source are written [u "..."]: the UTF-8 bytes of the
    Rocq string, decoded to code points. *)
Fixpoint utf8_decode (bs : list N) : str :=
  match bs with
  | [] => []
  | b0 :: r0 =>
    if (b0 <? 128)%N then b0 :: utf8_decode r0
    else if (b0 <? 224)%N then
      match r0 with
      | b1 :: r1 => ((b0 - 192) * 64 + (b1 - 128))%N :: utf8_decode r1
      | _ => []
      end
    else if (b0 <? 240)%N then
      match r0 with
      | b1 :: b2 :: r2 =>
        ((b0 - 224) * 4096 + (b1 - 128) * 64 + (b2 - 128))%N :: utf8_decode r2
      | _ => []
      end
    else
      match r0 with
      | b1 :: b2 :: b3 :: r3 =>
        ((b0 - 240) * 262144 + (b1 - 128) * 4096 + (b2 - 128) * 64 + (b3 - 128))%N
          :: utf8_decode r3
      | _ => []
      end
  end.

Definition u (s : string) : str :=
  utf8_decode (map N_of_ascii (list_ascii_of_string s)).
Arguments u s%_string.

(** Python floats are IEEE 754 binary64 numbers. *)
Definition float := spec_float.
Definition fzero : float := S754_zero false.
Definition fone : float := binary_normalize 53 1024 1 0 false.
Definition fsub : float -> float -> float := SFsub 53 1024.
Definition fmul : float -> float -> float := SFmul 53 1024.
Definition fdiv : float -> float -> float := SFdiv 53 1024.
Definition fltb : float -> float -> bool := SFltb.
Definition fleb : float -> float -> bool := SFleb.

(** The objects [json.loads] builds; dictionaries keep insertion order. *)
Inductive value :=
| VNone
| VBool (b : bool)
| VInt (n : Z)
| VFloat (f : float)
| VStr (s : str)
| VList (l : list value)
| VDict (d : list (value * value)).

Definition dict := list (value * value).

Inductive exn :=
| TypeError | ValueError | AttributeError | KeyError
| OverflowError | ZeroDivisionError
| JSONDecodeError | RecursionError.

Inductive result (A : Type) :=
| Ok (a : A)
| Raise (e : exn).
Arguments Ok {A} a.
Arguments Raise {A} e.

Definition bind {A B} (r : result A) (k : A -> result B) : result B :=
  match r with
  | Ok a => k a
  | Raise e => Raise e
  end.

Notation "'let*' x ':=' e 'in' k" := (bind e (fun x => k))
  (at level 10, x name, e at level 100, k at level 200).

(** *** Hashing and equality

    Numbers of different types are equal (and hash alike) when they denote
    the same real number: [True == 1 == 1.0].  [num] is the normal form
    that decides it: an odd mantissa and a binary exponent. *)
Inductive num :=
| NNan
| NInf (neg : bool)
| NZero
| NDyadic (neg : bool) (m : positive) (e : Z).

Fixpoint odd_part (m : positive) (e : Z) : positive * Z :=
  match m with
  | xO p => odd_part p (e + 1)
  | _ => (m, e)
  end.

Definition num_of_Z (n : Z) : num :=
  match n with
  | Z0 => NZero
  | Zpos p => let '(m, e) := odd_part p 0 in NDyadic false m e
  | Zneg p => let '(m, e) := odd_part p 0 in NDyadic true m e
  end.

Definition num_of_float (f : float) : num :=
  match f with
  | S754_zero _ => NZero
  | S754_infinity s => NInf s
  | S754_nan => NNan
  | S754_finite s m e => let '(m', e') := odd_part m e in NDyadic s m' e'
  end.

Inductive skey :=
| KNone
| KNum (x : num)
| KStr (s : str).

#[global] Instance num_eq_dec : EqDecision num.
Proof. solve_decision. Defined.
#[global] Instance skey_eq_dec : EqDecision skey.
Proof. solve_decision. Defined.

(** [hash(v)]: [None] stands for [TypeError: unhashable type]. *)
Definition hash_key (v : value) : option skey :=
  match v with
  | VNone => Some KNone
  | VBool b => Some (KNum (num_of_Z (if b then 1 else 0)))
  | VInt n => Some (KNum (num_of_Z n))
  | VFloat f => Some (KNum (num_of_float f))
  | VStr s => Some (KStr s)
  | VList _ | VDict _ => None
  end.

Definition hashable (v : value) : bool :=
  match hash_key v with Some _ => true | None => false end.

(** Two hashable objects name the same dictionary key. *)
Definition key_eqb (k1 k2 : value) : bool :=
  match hash_key k1, hash_key k2 with
  | Some a, Some b => bool_decide (a = b)
  | _, _ => false
  end.

(** [d.get(k)] as an option, [k in d], [d[k] = v] (in place when the key is
    present, appended otherwise) for a hashable key [k]. *)
Fixpoint dget (k : value) (d : dict) : option value :=
  match d with
  | [] => None
  | (k', v) :: d' => if key_eqb k k' then Some v else dget k d'
  end.

Definition dmem (k : value) (d : dict) : bool :=
  match dget k d with Some _ => true | None => false end.

Fixpoint dset (k v : value) (d : dict) : dict :=
  match d with
  | [] => [(k, v)]
  | (k', v') :: d' =>
    if key_eqb k k' then (k', v) :: d' else (k', v') :: dset k v d'
  end.

(** The comparison containers use ([x is y or x == y]).  [json.loads]
    returns one shared object for every [NaN] literal, so a NaN met in a
    container is identical to itself. *)
Fixpoint py_same (a b : value) {struct a} : bool :=
  match a with
  | VList xs =>
    match b with
    | VList ys =>
      (fix all2 (xs ys : list value) {struct xs} : bool :=
         match xs, ys with
         | [], [] => true
         | x :: xs', y :: ys' => py_same x y && all2 xs' ys'
         | _, _ => false
         end) xs ys
    | _ => false
    end
  | VDict d1 =>
    match b with
    | VDict d2 =>
      Nat.eqb (length d1) (length d2) &&
      (fix sub (d : list (value * value)) {struct d} : bool :=
         match d with
         | [] => true
         | (k, v) :: d' =>
           match dget k d2 with
           | Some v' => py_same v v' && sub d'
           | None => false
           end
         end) d1
    | _ => false
    end
  | _ =>
    match b with
    | VList _ | VDict _ => false
    | _ => bool_decide (hash_key a = hash_key b)
    end
  end.

(** [a == b]: a NaN compared directly is unequal to everything. *)
Definition py_eq (a b : value) : bool :=
  match a, b with
  | VFloat S754_nan, _ | _, VFloat S754_nan => false
  | _, _ => py_same a b
  end.

(** [x in l] for a list [l]. *)
Definition py_in (x : value) (l : list value) : bool :=
  existsb (fun y => py_same y x) l.

(** [bool(v)]. *)
Definition truthy (v : value) : bool :=
  match v with
  | VNone => false
  | VBool b => b
  | VInt n => negb (n =? 0)
  | VFloat (S754_zero _) => false
  | VFloat _ => true
  | VStr s => match s with [] => false | _ => true end
  | VList l => match l with [] => false | _ => true end
  | VDict d => match d with [] => false | _ => true end
  end.

(** [a or b]. *)
Definition py_or (a b : value) : value := if truthy a then a else b.

Definition is_none (v : value) : bool :=
  match v with VNone => true | _ => false end.

(** [d.get(k)] and [d.get(k, default)] for a literal key. *)
Definition get (d : dict) (k : string) : value :=
  match dget (VStr (u k)) d with Some v => v | None => VNone end.
Definition get_or (d : dict) (k : string) (default : value) : value :=
  match dget (VStr (u k)) d with Some v => v | None => default end.
Arguments get d k%_string.
Arguments get_or d k%_string default.

(** [v.get]: only dictionaries have the method. *)
Definition as_dict (v : value) : result dict :=
  match v with
  | VDict d => Ok d
  | _ => Raise AttributeError
  end.

(** [for x in v]: lists give their elements, strings their characters,
    dictionaries their keys; nothing else is iterable. *)
Definition py_iter (v : value) : result (list value) :=
  match v with
  | VList l => Ok l
  | VStr s => Ok (map (fun c => VStr [c]) s)
  | VDict d => Ok (map fst d)
  | _ => Raise TypeError
  end.

(** [s.startswith(p)] and [p in s] for strings. *)
Fixpoint prefixb (p s : str) : bool :=
  match p, s with
  | [], _ => true
  | c :: p', x :: s' => (c =? x)%N && prefixb p' s'
  | _ :: _, [] => false
  end.

Fixpoint infixb (p s : str) : bool :=
  prefixb p s || match s with [] => false | _ :: s' => infixb p s' end.

(** *** Numbers *)

Fixpoint digits_of_uint (d : Decimal.uint) : str :=
  match d with
  | Decimal.Nil => []
  | Decimal.D0 r => 48%N :: digits_of_uint r
  | Decimal.D1 r => 49%N :: digits_of_uint r
  | Decimal.D2 r => 50%N :: digits_of_uint r
  | Decimal.D3 r => 51%N :: digits_of_uint r
  | Decimal.D4 r => 52%N :: digits_of_uint r
  | Decimal.D5 r => 53%N :: digits_of_uint r
  | Decimal.D6 r => 54%N :: digits_of_uint r
  | Decimal.D7 r => 55%N :: digits_of_uint r
  | Decimal.D8 r => 56%N :: digits_of_uint r
  | Decimal.D9 r => 57%N :: digits_of_uint r
  end.

(** [str(n)] for an [int]. *)
Definition str_of_Z (n : Z) : str :=
  match Z.to_int n with
  | Decimal.Pos d => digits_of_uint d
  | Decimal.Neg d => 45%N :: digits_of_uint d
  end.

(** [float(n)] for an [int]: the nearest binary64, or [OverflowError]. *)
Definition float_of_Z (n : Z) : result float :=
  match binary_normalize 53 1024 n 0 false with
  | S754_infinity _ => Raise OverflowError
  | f => Ok f
  end.

(** [int(f)] for a float: truncation towards zero. *)
Definition trunc_float (f : float) : result Z :=
  match f with
  | S754_zero _ => Ok 0
  | S754_nan => Raise ValueError
  | S754_infinity _ => Raise OverflowError
  | S754_finite s m e =>
    Ok (cond_Zopp s (match e with
                     | Zneg p => Z.shiftr (Zpos m) (Zpos p)
                     | _ => Zpos m * 2 ^ e
                     end))
  end.

(** [round(f)] for a float: the nearest integer, ties to even. *)
Definition py_round (f : float) : result Z :=
  match f with
  | S754_zero _ => Ok 0
  | S754_nan => Raise ValueError
  | S754_infinity _ => Raise OverflowError
  | S754_finite s m e =>
    Ok (cond_Zopp s (match e with
                     | Zneg p =>
                       let d := 2 ^ Zpos p in
                       let q := Zpos m / d in
                       let r := Zpos m mod d in
                       match 2 * r ?= d with
                       | Lt => q
                       | Gt => q + 1
                       | Eq => if Z.even q then q else q + 1
                       end
                     | _ => Zpos m * 2 ^ e
                     end))
  end.

(** ** What the interpreter and its libraries provide

    Unicode tables, number parsing and printing, [json], [urllib] and
    [base64] are not part of the repository; the code is verified for any
    implementation of them. *)
Class Runtime := {
  (** [\d]: Unicode decimal digits *)
  is_digit : char -> bool;
  (** [\s] and [str.strip()]: Unicode whitespace *)
  is_space : char -> bool;
  (** [\w], which decides [\b] *)
  is_word : char -> bool;
  (** case mappings used under [re.IGNORECASE] *)
  lower : char -> char;
  upper : char -> char;
  (** [repr] of a float and of a string *)
  float_repr : float -> str;
  str_repr : str -> str;
  (** [float(s)] and [int(s)] for a string; [None] is [ValueError] *)
  float_of_str : str -> option float;
  int_of_str : str -> option Z;
  (** [json.loads]: the decoded value; [Raise JSONDecodeError] for a text
      that is not JSON; any other exception for a text the decoder gives
      up on, as [RecursionError] on deep nesting and [ValueError] on an
      integer beyond the digit limit *)
  json_loads : str -> result value;
  (** [urllib.parse.urlencode] *)
  urlencode : list (str * value) -> str;
  (** [base64.b64encode(s.encode()).decode('ascii')] *)
  b64encode : str -> str
}.

Section Builtins.
Context {R : Runtime}.

(** [repr(v)] and [str(v)]. *)
Fixpoint py_repr (v : value) : str :=
  match v with
  | VNone => u "None"
  | VBool true => u "True"
  | VBool false => u "False"
  | VInt n => str_of_Z n
  | VFloat f => float_repr f
  | VStr s => str_repr s
  | VList l =>
    u "[" ++
    (fix items (l : list value) : str :=
       match l with
       | [] => []
       | x :: l' =>
         match l' with
         | [] => py_repr x
         | _ => py_repr x ++ u ", " ++ items l'
         end
       end) l ++ u "]"
  | VDict d =>
    u "{" ++
    (fix items (d : list (value * value)) : str :=
       match d with
       | [] => []
       | (k, x) :: d' =>
         match d' with
         | [] => py_repr k ++ u ": " ++ py_repr x
         | _ => py_repr k ++ u ": " ++ py_repr x ++ u ", " ++ items d'
         end
       end) d ++ u "}"
  end.

Definition py_str (v : value) : str :=
  match v with
  | VStr s => s
  | _ => py_repr v
  end.

(** The conversion of an [int] to text is limited: one of more than
    [int_max_str_digits] digits, on its own or inside a list or a dict,
    makes [str] raise [ValueError]. *)
Definition int_max_str_digits : Z := 4300.

Fixpoint str_fits (v : value) : bool :=
  match v with
  | VInt n => Z.abs n <? 10 ^ int_max_str_digits
  | VList l => forallb str_fits l
  | VDict d =>
    (fix entries (d : list (value * value)) : bool :=
       match d with
       | [] => true
       | (k, x) :: d' => str_fits k && str_fits x && entries d'
       end) d
  | _ => true
  end.

Definition py_str_limited (v : value) : result str :=
  if str_fits v then Ok (py_str v) else Raise ValueError.

(** [float(v)]. *)
Definition py_float (v : value) : result float :=
  match v with
  | VFloat f => Ok f
  | VInt n => float_of_Z n
  | VBool b => Ok (if b then fone else fzero)
  | VStr s =>
    match float_of_str s with
    | Some f => Ok f
    | None => Raise ValueError
    end
  | VNone | VList _ | VDict _ => Raise TypeError
  end.

(** [int(v)]. *)
Definition py_int (v : value) : result Z :=
  match v with
  | VInt n => Ok n
  | VBool b => Ok (if b then 1 else 0)
  | VFloat f => trunc_float f
  | VStr s =>
    match int_of_str s with
    | Some n => Ok n
    | None => Raise ValueError
    end
  | VNone | VList _ | VDict _ => Raise TypeError
  end.

(** [s.strip()]. *)
Fixpoint lstrip (s : str) : str :=
  match s with
  | c :: s' => if is_space c then lstrip s' else s
  | [] => []
  end.

Definition strip (s : str) : str := rev (lstrip (rev (lstrip s))).

End Builtins.

End Py.

(** ** The regular expressions of the spider *)

Module Re.
Import Py.

(** Character sets. *)
Inductive cls :=
| CDigit                      (* \d *)
| CSpace                      (* \s *)
| CRange (lo hi : char)       (* a-z *)
| COneOf (cs : list char)     (* [.,] *)
| CUnion (a b : cls).

(** The fragment of [re] syntax the patterns use.  Quantifiers only ever
    apply to a character set. *)
Inductive re :=
| RSet (c : cls)
| RLit (s : str)                          (* a literal, e.g. ml *)
| RSeq (a b : re)
| RAlt (a b : re)                         (* a|b, a tried first *)
| ROpt (a : re)                           (* (?:a)? *)
| RMany (min : nat) (c : cls)             (* c+ and c*, greedy *)
| RWordB.                                 (* \b *)

Section Matcher.
Context {R : Runtime}.

(** All three patterns are compiled with [re.IGNORECASE]: a literal matches
    a character with the same lower case, a range matches a character when
    it or one of its case variants lies in the range. *)
Definition lit_match (c x : char) : bool := bool_decide (lower x = lower c).

Definition in_range (lo hi x : char) : bool := ((lo <=? x) && (x <=? hi))%N.

Fixpoint in_cls (c : cls) (x : char) : bool :=
  match c with
  | CDigit => is_digit x
  | CSpace => is_space x
  | CRange lo hi =>
    in_range lo hi x || in_range lo hi (lower x) || in_range lo hi (upper x)
  | COneOf cs => existsb (fun c => lit_match c x) cs
  | CUnion a b => in_cls a x || in_cls b x
  end.

(** A position in the subject: the character before it and what is left. *)
Definition pos := (option char * str)%type.

Definition word_at (c : option char) : bool :=
  match c with Some x => is_word x | None => false end.

Fixpoint lit_at (s : str) (p : pos) : option pos :=
  match s with
  | [] => Some p
  | c :: s' =>
    match p with
    | (_, x :: rest) => if lit_match c x then lit_at s' (Some x, rest) else None
    | (_, []) => None
    end
  end.

(** Greedy repetition of a set, at least [min] times, then [k]: the longest
    run is tried first and given back one character at a time. *)
Fixpoint many_at (c : cls) (k : pos -> option pos) (min : nat)
    (prev : option char) (s : str) : option pos :=
  let stop := match min with O => k (prev, s) | S _ => None end in
  match s with
  | x :: rest =>
    if in_cls c x then
      match many_at c k (Nat.pred min) (Some x) rest with
      | Some r => Some r
      | None => stop
      end
    else stop
  | [] => stop
  end.

(** Backtracking match of [r] at a position, continuing with [k]; the
    result is the position where the whole match ends. *)
Fixpoint match_at (r : re) (k : pos -> option pos) (p : pos) : option pos :=
  match r with
  | RSet c =>
    match p with
    | (_, x :: rest) => if in_cls c x then k (Some x, rest) else None
    | (_, []) => None
    end
  | RLit s =>
    match lit_at s p with
    | Some p' => k p'
    | None => None
    end
  | RSeq a b => match_at a (match_at b k) p
  | RAlt a b =>
    match match_at a k p with
    | Some r => Some r
    | None => match_at b k p
    end
  | ROpt a =>
    match match_at a k p with
    | Some r => Some r
    | None => k p
    end
  | RMany min c => many_at c k min (fst p) (snd p)
  | RWordB =>
    let next := match snd p with x :: _ => Some x | [] => None end in
    if xorb (word_at (fst p)) (word_at next) then k p else None
  end.

(** [re.search(r, s)]: the leftmost match; [Some (before, rest)] gives the
    subject from the start of the match and what follows the match. *)
Fixpoint search_from (r : re) (prev : option char) (s : str)
    : option (str * str) :=
  match match_at r Some (prev, s) with
  | Some (_, rest) => Some (s, rest)
  | None =>
    match s with
    | x :: s' => search_from r (Some x) s'
    | [] => None
    end
  end.

Definition search (r : re) (s : str) : option (str * str) :=
  search_from r None s.

(** [m.group(0)]. *)
Definition group0 (m : str * str) : str :=
  take (length (fst m) - length (snd m))%nat (fst m).

(** [re.match] of [(c+?)tail]: the lazy group takes the shortest run of [c]
    (one character at least) after which [tail] matches; the result is
    [group(1)]. *)
Fixpoint lazy_group (c : cls) (tail : re) (acc : str) (prev : option char)
    (s : str) : option str :=
  match s with
  | x :: rest =>
    if in_cls c x then
      match match_at tail Some (Some x, rest) with
      | Some _ => Some (rev (x :: acc))
      | None => lazy_group c tail (x :: acc) (Some x) rest
      end
    else None
  | [] => None
  end.

End Matcher.

Definition seq (rs : list re) : re :=
  match rs with
  | [] => RLit []
  | r :: rs' => fold_left RSeq rs' r
  end.

Definition alt (rs : list re) : re :=
  match rs with
  | [] => RLit []
  | r :: rs' => fold_left RAlt rs' r
  end.

Definition lit (s : string) : re := RLit (u s).
Arguments lit s%_string.

(** [\d+(?:[.,]\d+)?]. *)
Definition number : re :=
  RSeq (RMany 1 CDigit)
       (ROpt (RSeq (RSet (COneOf (u ".,"))) (RMany 1 CDigit))).

(** [r'\d+(?:[.,]\d+)?\s*(?:л|л\.|мл|ml|l|литр|миллилитр)'] *)
Definition volume_pattern : re :=
  seq [number; RMany 0 CSpace;
       alt [lit "л"; lit "л."; lit "мл"; lit "ml"; lit "l"; lit "литр";
            lit "миллилитр"]].

(** [r'(\d+(?:[.,]\d+)?)\s*(л|л\.|мл|ml|l)\b'] *)
Definition subname_volume_pattern : re :=
  seq [number; RMany 0 CSpace;
       alt [lit "л"; lit "л."; lit "мл"; lit "ml"; lit "l"];
       RWordB].

(** [r'^([A-Za-zА-Яа-я\s]+?)(?:\s+\d+|\s+пиво|\s+вино)']: the set of the
    group and the alternatives that follow it. *)
Definition brand_set : cls :=
  CUnion (CRange 65 90)%N
    (CUnion (CRange 97 122)%N
       (CUnion (CRange 1040 1071)%N (CUnion (CRange 1072 1103)%N CSpace))).

Definition brand_tail : re :=
  alt [RSeq (RMany 1 CSpace) (RMany 1 CDigit);
       RSeq (RMany 1 CSpace) (lit "пиво");
       RSeq (RMany 1 CSpace) (lit "вино")].

End Re.

(** ** spiders/alkoteka_spider.py: product extraction *)

Module Spider.
Import Py Re.

(** Modelled from the spec: [AlkotekaItem] ([items.py] is not among the
    sources) is a mapping that declares the twelve fields of the canonical
    Product: timestamp, RPC, url, title, marketing_tags, brand, section,
    price_data, stock, assets, metadata, variants.  An item is the
    dictionary of the fields set so far. *)
Definition AlkotekaItem := dict.

(** An entry of a dictionary literal or of an item, under a literal key. *)
Definition field (k : string) (v : value) : value * value := (VStr (u k), v).
Arguments field k%_string v.

Definition lit_str (s : string) : value := VStr (u s).
Arguments lit_str s%_string.

(** [d[k] = v]; an unhashable key raises. *)
Definition setitem (k v : value) (d : dict) : result dict :=
  if hashable k then Ok (dset k v d) else Raise TypeError.

(** [values[0]] guarded by [if values], as the loops over description
    blocks evaluate it: [None] when [values] is falsy. *)
Definition first_value (values : value) : result (option value) :=
  if negb (truthy values) then Ok None
  else
    match values with
    | VList (x :: _) => Ok (Some x)
    | VStr (c :: _) => Ok (Some (VStr [c]))
    | VDict d =>
      match dget (VInt 0) d with
      | Some x => Ok (Some x)
      | None => Raise KeyError
      end
    | _ => Raise TypeError
    end.

(** The first dictionary label whose ['filter'] equals [filter] gives its
    ['title'] (default ['']). *)
Fixpoint first_label (filter : str) (labels : list value) : option value :=
  match labels with
  | [] => None
  | VDict l :: rest =>
    if py_eq (get l "filter") (VStr filter)
    then Some (get_or l "title" (VStr []))
    else first_label filter rest
  | _ :: rest => first_label filter rest
  end.

Section Extract.
Context {R : Runtime}.

(** [f"{a}, {b}"]. *)
Definition fmt_title (title volume : value) : value :=
  VStr (py_str title ++ u ", " ++ py_str volume).

(** [f"{x} л"] and [f"{x}%"]. *)
Definition fmt_litres (x : value) : value := VStr (py_str x ++ u " л").
Definition fmt_percent (x : value) : value := VStr (py_str x ++ u "%").

Definition _check_volume_in_title (title : value) : result bool :=
  match title with
  | VStr s =>
    Ok (match search volume_pattern s with Some _ => true | None => false end)
  | _ => Raise TypeError
  end.

Definition _extract_volume (data : dict) : result value :=
  let* labels := py_iter (get_or data "filter_labels" (VList [])) in
  match first_label (u "obem") labels with
  | Some title => Ok title
  | None =>
    let subname := get_or data "subname" (VStr []) in
    if truthy subname then
      match subname with
      | VStr s =>
        match search subname_volume_pattern s with
        | Some m => Ok (VStr (group0 m))
        | None => Ok VNone
        end
      | _ => Raise TypeError
      end
    else Ok VNone
  end.

(** One step of the loop over ['action_labels']. *)
Definition add_action_label (tags : list value) (label : value) : list value :=
  match label with
  | VDict l =>
    let label_name :=
      py_or (py_or (get l "name") (get l "text")) (get_or l "title" (VStr [])) in
    if truthy label_name && negb (py_in label_name tags)
    then tags ++ [label_name] else tags
  | _ => tags
  end.

Definition flag (data : dict) (k : string) (tag : string) : list value :=
  if truthy (get data k) then [lit_str tag] else [].
Arguments flag data k%_string tag%_string.

Definition _extract_marketing_tags (data : dict) : result (list value) :=
  let tags :=
    flag data "new" "Новинка" ++
    flag data "recomended" "Рекомендуемое" ++
    flag data "axioma" "Axioma" ++
    flag data "enogram" "Enogram" ++
    flag data "gift_package" "Подарочная упаковка" in
  let* labels := py_iter (get_or data "action_labels" (VList [])) in
  Ok (fold_left add_action_label labels tags).

Definition _extract_brand (data : dict) : result value :=
  let* labels := py_iter (get_or data "filter_labels" (VList [])) in
  match first_label (u "brend") labels with
  | Some title => Ok title
  | None =>
    let name := get_or data "name" (VStr []) in
    if truthy name then
      match name with
      | VStr s =>
        match lazy_group brand_set brand_tail [] None s with
        | Some g => Ok (VStr (strip g))
        | None => Ok (VStr [])
        end
      | _ => Raise TypeError
      end
    else Ok (VStr [])
  end.

Definition _extract_section (data : dict) : list value :=
  match get_or data "category" (VDict []) with
  | VDict category =>
    (match get_or category "parent" (VDict []) with
     | VDict parent =>
       if truthy (get parent "name") then [get parent "name"] else []
     | _ => []
     end) ++
    (if truthy (get category "name") then [get category "name"] else [])
  | _ => []
  end.

Definition hundred : float := binary_normalize 53 1024 100 0 false.

Definition _extract_price_data (data : dict) : result dict :=
  let* current := py_float (py_or (get_or data "price" (VInt 0)) (VInt 0)) in
  let* original :=
    py_float (py_or (py_or (get data "prev_price") (get_or data "price" (VInt 0)))
                    (VInt 0)) in
  if fltb current original && fltb fzero original then
    let* discount :=
      py_round (fmul (fdiv (fsub original current) original) hundred) in
    Ok [field "current" (VFloat current);
        field "original" (VFloat original);
        field "sale_tag" (VStr (u "Скидка " ++ str_of_Z discount ++ u "%"))]
  else
    Ok [field "current" (VFloat current);
        field "original" (VFloat original);
        field "sale_tag" (VStr [])].

Definition _extract_stock (data : dict) : result dict :=
  let* count :=
    py_int (py_or (py_or (get_or data "quantity" (VInt 0))
                         (get_or data "quantity_total" (VInt 0)))
                  (VInt 0)) in
  Ok [field "in_stock" (VBool (truthy (get_or data "available" (VBool false))));
      field "count" (VInt count)].

Definition _extract_assets (data : dict) : dict :=
  let main_image := get_or data "image_url" (VStr []) in
  [field "main_image" main_image;
   field "set_images" (VList (if truthy main_image then [main_image] else []));
   field "view360" (VList []);
   field "video" (VList [])].

(** One step of the loop over ['filter_labels'] in the list metadata. *)
Definition add_label_metadata (metadata : dict) (label : value) : dict :=
  match label with
  | VDict l =>
    let filter_type := get_or l "filter" (VStr []) in
    let title := get_or l "title" (VStr []) in
    if py_eq filter_type (lit_str "strana") && truthy title
    then dset (lit_str "Страна") title metadata
    else if py_eq filter_type (lit_str "obem") && truthy title
    then dset (lit_str "Объем") title metadata
    else metadata
  | _ => metadata
  end.

(** [if data.get(k): metadata[key] = f(data[k])]. *)
Definition set_if (data : dict) (k : string) (key : string)
    (f : value -> value) (metadata : dict) : dict :=
  if truthy (get data k) then dset (lit_str key) (f (get data k)) metadata
  else metadata.
Arguments set_if data k%_string key%_string f metadata.

Definition to_str (v : value) : value := VStr (py_str v).

Definition _extract_basic_metadata (data : dict) : result dict :=
  let metadata := [field "__description" (get_or data "subname" (VStr []))] in
  let metadata := set_if data "vendor_code" "Артикул" to_str metadata in
  let metadata := set_if data "uuid" "UUID" id metadata in
  let metadata := set_if data "quantity_total" "Общее количество" to_str metadata in
  let* labels := py_iter (get_or data "filter_labels" (VList [])) in
  Ok (fold_left add_label_metadata labels metadata).

(** [volumes.add(v)] on a set kept as the list of its members. *)
Definition set_add (v : value) (s : list value) : result (list value) :=
  if hashable v then Ok (if existsb (key_eqb v) s then s else s ++ [v])
  else Raise TypeError.

Fixpoint count_variants_loop (blocks : list value) (volumes : list value)
    : result Z :=
  match blocks with
  | [] =>
    Ok (if (1 <? length volumes)%nat then Z.of_nat (length volumes) else 0)
  | block :: rest =>
    let* b := as_dict block in
    if py_eq (get b "code") (lit_str "obem") then
      let min_val := get b "min" in
      let max_val := get b "max" in
      if negb (py_eq min_val max_val) && negb (is_none max_val) then Ok 2
      else if negb (is_none min_val) then
        let* volumes' := set_add min_val volumes in
        count_variants_loop rest volumes'
      else count_variants_loop rest volumes
    else count_variants_loop rest volumes
  end.

Definition _count_variants (data : dict) : result Z :=
  let* blocks := py_iter (get_or data "description_blocks" (VList [])) in
  count_variants_loop blocks [].

(** The title of a list record: the volume is added when the name does
    not hold one. *)
Definition list_title (d : dict) : result value :=
  let title := get_or d "name" (VStr []) in
  let* volume := _extract_volume d in
  let* present := _check_volume_in_title title in
  Ok (if negb present && truthy volume then fmt_title title volume else title).

(** The item of a list record; [now] is [int(time.time())].  [None] is the
    Python [None] returned for a falsy record. *)
Definition _parse_product_from_list (now : Z) (data : value)
    : result (option AlkotekaItem) :=
  if negb (truthy data) then Ok None
  else
    let* d := as_dict data in
    let rpc := to_str (py_or (get d "uuid") (VStr [])) in
    let product_url := get_or d "product_url" (VStr []) in
    let* title := list_title d in
    let* tags := _extract_marketing_tags d in
    let* brand := _extract_brand d in
    let section := _extract_section d in
    let* price_data := _extract_price_data d in
    let* stock := _extract_stock d in
    let assets := _extract_assets d in
    let* metadata := _extract_basic_metadata d in
    Ok (Some [field "timestamp" (VInt now);
              field "RPC" rpc;
              field "url" product_url;
              field "title" title;
              field "marketing_tags" (VList tags);
              field "brand" brand;
              field "section" (VList section);
              field "price_data" (VDict price_data);
              field "stock" (VDict stock);
              field "assets" (VDict assets);
              field "metadata" (VDict metadata);
              field "variants" (VInt 0)]).

(** *** Detail records *)

(** The first loop over ['description_blocks']: the block with code
    ['obem'] ends the loop and gives [f"{min} л"] when it has a ['min']. *)
Fixpoint block_volume (blocks : list value) : result value :=
  match blocks with
  | [] => Ok VNone
  | block :: rest =>
    let* b := as_dict block in
    if py_eq (get b "code") (lit_str "obem") then
      Ok (if negb (is_none (get b "min")) then fmt_litres (get b "min")
          else VNone)
    else block_volume rest
  end.

(** The name of the first value of a block, when that value is a
    dictionary. *)
Definition first_value_name (b : dict) : result (option value) :=
  let* x := first_value (get_or b "values" (VList [])) in
  match x with
  | Some (VDict v) => Ok (Some (get_or v "name" (VStr [])))
  | _ => Ok None
  end.

(** The loop that looks for the brand: the block with code ['brend'] ends
    it. *)
Fixpoint block_brand (blocks : list value) : result value :=
  match blocks with
  | [] => Ok (VStr [])
  | block :: rest =>
    let* b := as_dict block in
    if py_eq (get b "code") (lit_str "brend") then
      let* name := first_value_name b in
      Ok (match name with Some n => n | None => VStr [] end)
    else block_brand rest
  end.

(** The title of a detail record. *)
Definition detail_title (d : dict) : result value :=
  let title := get_or d "name" (VStr []) in
  let* present := _check_volume_in_title title in
  if present then Ok title
  else
    let* blocks := py_iter (get_or d "description_blocks" (VList [])) in
    let* volume := block_volume blocks in
    let* volume := if truthy volume then Ok volume else _extract_volume d in
    Ok (if truthy volume then fmt_title title volume else title).

(** One step of the loop over ['filter_labels'] that adds tags. *)
Definition add_filter_tag (tags : list value) (label : value) : list value :=
  match label with
  | VDict l =>
    if py_eq (get_or l "filter" (VStr [])) (lit_str "dopolnitelno") then
      let tag_title := get_or l "title" (VStr []) in
      if truthy tag_title && negb (py_in tag_title tags)
      then tags ++ [tag_title] else tags
    else tags
  | _ => tags
  end.

Definition detail_marketing_tags (d : dict) : result (list value) :=
  let* tags := _extract_marketing_tags d in
  let* labels := py_iter (get_or d "filter_labels" (VList [])) in
  Ok (fold_left add_filter_tag labels tags).

Definition detail_brand (d : dict) : result value :=
  let* blocks := py_iter (get_or d "description_blocks" (VList [])) in
  let* brand := block_brand blocks in
  if truthy brand then Ok brand else _extract_brand d.

(** The description: the content of the first text block titled
    ['Описание'], else the ['subname']. *)
Fixpoint text_description (blocks : list value) : result (option value) :=
  match blocks with
  | [] => Ok None
  | block :: rest =>
    let* b := as_dict block in
    if py_eq (get b "title") (lit_str "Описание")
    then Ok (Some (get_or b "content" (VStr [])))
    else text_description rest
  end.

Definition metadata_description (d : dict) : result dict :=
  let* blocks := py_iter (get_or d "text_blocks" (VList [])) in
  let* content := text_description blocks in
  Ok [field "__description"
        (match content with
         | Some c => c
         | None => get_or d "subname" (VStr [])
         end)].

(** [metadata[key] = values[0].get('name', '')] when the first value is a
    dictionary. *)
Definition set_value_name (key : string) (b : dict) (metadata : dict)
    : result dict :=
  let* name := first_value_name b in
  Ok (match name with
      | Some n => dset (lit_str key) n metadata
      | None => metadata
      end).
Arguments set_value_name key%_string b metadata.

(** The body of the loop over the characteristic blocks. *)
Definition add_block_metadata (metadata : dict) (block : value) : result dict :=
  let* b := as_dict block in
  let code := get_or b "code" (VStr []) in
  let title := get_or b "title" (VStr []) in
  if py_eq code (lit_str "obem") then
    Ok (if negb (is_none (get b "min"))
        then dset (lit_str "Объем") (fmt_litres (get b "min")) metadata
        else metadata)
  else if py_eq code (lit_str "krepost") then
    Ok (if negb (is_none (get b "min"))
        then dset (lit_str "Крепость") (fmt_percent (get b "min")) metadata
        else metadata)
  else if py_eq code (lit_str "proizvoditel") then
    set_value_name "Производитель" b metadata
  else if py_eq code (lit_str "brend") then
    set_value_name "Бренд" b metadata
  else if py_eq code (lit_str "strana") then
    set_value_name "Страна" b metadata
  else if py_eq code (lit_str "vid-upakovki") then
    set_value_name "Вид упаковки" b metadata
  else if truthy title then
    let* x := first_value (get_or b "values" (VList [])) in
    match x with
    | None => Ok metadata
    | Some (VDict v) => setitem title (get_or v "name" (VStr [])) metadata
    | Some v => setitem title (to_str v) metadata
    end
  else Ok metadata.

Fixpoint metadata_blocks (blocks : list value) (metadata : dict)
    : result dict :=
  match blocks with
  | [] => Ok metadata
  | block :: rest =>
    let* metadata' := add_block_metadata metadata block in
    metadata_blocks rest metadata'
  end.

(** The part under [# Add additional fields]. *)
Definition yes_no (v : value) : value :=
  if truthy v then lit_str "Да" else lit_str "Нет".

Definition metadata_extras (d : dict) (metadata : dict) : dict :=
  let metadata := set_if d "vendor_code" "Артикул" to_str metadata in
  let metadata :=
    if truthy (get d "country_name") then
      if negb (dmem (lit_str "Страна") metadata)
      then dset (lit_str "Страна") (get d "country_name") metadata
      else metadata
    else metadata in
  let metadata := set_if d "country_code" "Код страны" id metadata in
  let metadata := set_if d "uuid" "UUID" id metadata in
  let metadata := set_if d "quantity_total" "Общее количество" to_str metadata in
  let metadata :=
    if negb (is_none (get d "gift_package"))
    then dset (lit_str "Подарочная упаковка") (yes_no (get d "gift_package"))
              metadata
    else metadata in
  set_if d "offline_price" "Офлайн цена" to_str metadata.

(** The metadata when the loop over the characteristic blocks ends. *)
Definition metadata_before_extras (d : dict) : result dict :=
  let* metadata := metadata_description d in
  let* blocks := py_iter (get_or d "description_blocks" (VList [])) in
  metadata_blocks blocks metadata.

Definition detail_metadata (d : dict) : result dict :=
  let* metadata := metadata_before_extras d in
  Ok (metadata_extras d metadata).

Definition _parse_product_from_detail (now : Z) (detail_data list_data : value)
    : result (option AlkotekaItem) :=
  if negb (truthy detail_data) then _parse_product_from_list now list_data
  else
    let* d := as_dict detail_data in
    let rpc := to_str (py_or (get d "uuid") (VStr [])) in
    let* l := as_dict list_data in
    let product_url := get_or l "product_url" (VStr []) in
    let* title := detail_title d in
    let* tags := detail_marketing_tags d in
    let* brand := detail_brand d in
    let section := _extract_section d in
    let* price_data := _extract_price_data d in
    let* stock := _extract_stock d in
    let assets := _extract_assets d in
    let* metadata := detail_metadata d in
    let* variants := _count_variants d in
    Ok (Some [field "timestamp" (VInt now);
              field "RPC" rpc;
              field "url" product_url;
              field "title" title;
              field "marketing_tags" (VList tags);
              field "brand" brand;
              field "section" (VList section);
              field "price_data" (VDict price_data);
              field "stock" (VDict stock);
              field "assets" (VDict assets);
              field "metadata" (VDict metadata);
              field "variants" (VInt variants)]).

End Extract.

(** *** Requests, responses and the state of the spider *)

Inductive callback_fn := parse_cities_cb | parse_product_list_cb | parse_product_detail_cb.
Inductive errback_fn := handle_error_eb | handle_product_error_eb.

(** [request.meta], with the keys the spider and the proxy middleware use. *)
Record meta := {
  page : option value;
  city_url : option str;
  dont_cache : bool;
  category_slug : option str;
  category_url : option str;
  handle_httpstatus_list : list Z;
  product_list_data : option value;
  retry_count : option Z;
  proxy : option str;
  proxy_retry_times : option Z
}.

Definition empty_meta : meta :=
  {| page := None; city_url := None; dont_cache := false;
     category_slug := None; category_url := None;
     handle_httpstatus_list := []; product_list_data := None;
     retry_count := None; proxy := None; proxy_retry_times := None |}.

Record request := {
  url : str;
  callback : callback_fn;
  errback : errback_fn;
  headers : list (str * str);
  req_meta : meta;
  dont_filter : bool
}.

Record response := {
  status : Z;
  text : str;
  resp_request : request
}.

(** [response.meta] is the meta of the request. *)
Definition resp_meta (r : response) : meta := req_meta (resp_request r).

(** A failure handed to an errback; [failure_response] is present when
    [failure.value] carries a response (an HTTP error), absent for a
    transport failure (timeout, refused connection, DNS). *)
Record failure := {
  failure_request : request;
  failure_response : option response
}.

(** [request.copy()] followed by the two assignments of the retry code. *)
Definition retry_copy (r : request) (n : Z) : request :=
  {| url := url r; callback := callback r; errback := errback r;
     headers := headers r;
     req_meta :=
       {| page := page (req_meta r); city_url := city_url (req_meta r);
          dont_cache := dont_cache (req_meta r);
          category_slug := category_slug (req_meta r);
          category_url := category_url (req_meta r);
          handle_httpstatus_list := handle_httpstatus_list (req_meta r);
          product_list_data := product_list_data (req_meta r);
          retry_count := Some (n + 1);
          proxy := proxy (req_meta r);
          proxy_retry_times := proxy_retry_times (req_meta r) |};
     dont_filter := true |}.

(** What reading [categories.txt] gives: its lines, [FileNotFoundError],
    or another exception. *)
Inductive file_read :=
| FileLines (lines : list str)
| FileNotFound
| FileError.

(** Settings read by [from_crawler], and what reading [categories.txt]
    gives. *)
Record config := {
  api_base : str;
  products_endpoint : str;
  city_endpoint : str;
  target_city_name : value;
  initial_city_uuid : value;
  per_page : Z;
  parse_details : bool;
  categories_txt : file_read
}.

Record state := {
  city_uuid : value;
  products_count : Z;
  cities_found : list value
}.

Definition initial_state : state :=
  {| city_uuid := VNone; products_count := 0; cities_found := [] |}.

Inductive level := DEBUG | INFO | WARNING | ERROR.

(** What a callback does that the engine sees, in order. *)
Inductive event :=
| Log (l : level)
| YieldRequest (r : request)
| YieldItem (item : dict).

(** A callback is a generator over the state of the spider: the events it
    produced, the state it left, and the exception that ended it, if any. *)
Record outcome := {
  events : list event;
  final : state;
  raised : option exn
}.

Definition gen := state -> outcome.

Definition done : gen :=
  fun s => {| events := []; final := s; raised := None |}.
Definition emit (e : event) : gen :=
  fun s => {| events := [e]; final := s; raised := None |}.
Definition throw (x : exn) : gen :=
  fun s => {| events := []; final := s; raised := Some x |}.
Definition modify (f : state -> state) : gen :=
  fun s => {| events := []; final := f s; raised := None |}.
Definition read (k : state -> gen) : gen := fun s => k s s.
Definition andthen (g1 g2 : gen) : gen :=
  fun s =>
    let o1 := g1 s in
    match raised o1 with
    | Some _ => o1
    | None =>
      let o2 := g2 (final o1) in
      {| events := events o1 ++ events o2; final := final o2;
         raised := raised o2 |}
    end.
Definition attempt {A} (r : result A) (k : A -> gen) : gen :=
  match r with
  | Ok a => k a
  | Raise x => throw x
  end.

Notation "g1 >>> g2" := (andthen g1 g2) (at level 62, right associativity).

Fixpoint for_each {A} (l : list A) (body : A -> gen) : gen :=
  match l with
  | [] => done
  | x :: l' => body x >>> for_each l' body
  end.

Definition log (l : level) : gen := emit (Log l).

Definition set_city_uuid (v : value) : gen :=
  modify (fun s => {| city_uuid := v; products_count := products_count s;
                      cities_found := cities_found s |}).
Definition count_product : gen :=
  modify (fun s => {| city_uuid := city_uuid s;
                      products_count := products_count s + 1;
                      cities_found := cities_found s |}).
Definition found_city (c : value) : gen :=
  modify (fun s => {| city_uuid := city_uuid s;
                      products_count := products_count s;
                      cities_found :=
                        if py_in c (cities_found s) then cities_found s
                        else cities_found s ++ [c] |}).

(** *** Categories *)

Definition slash : char := 47%N.

(** [s.split('/')]. *)
Fixpoint split_slash (s : str) (cur : str) : list str :=
  match s with
  | [] => [rev cur]
  | c :: s' =>
    if (c =? slash)%N then rev cur :: split_slash s' []
    else split_slash s' (c :: cur)
  end.

(** [s.rstrip('/')]. *)
Fixpoint lstrip_slash (s : str) : str :=
  match s with
  | c :: s' => if (c =? slash)%N then lstrip_slash s' else s
  | [] => []
  end.
Definition rstrip_slash (s : str) : str := rev (lstrip_slash (rev s)).

(** What follows the first ['catalog'] among the parts. *)
Fixpoint after_catalog (parts : list str) : option str :=
  match parts with
  | [] => None
  | p :: rest =>
    if bool_decide (p = u "catalog") then
      match rest with
      | next :: _ => Some next
      | [] => None
      end
    else after_catalog rest
  end.

Definition _extract_category_slug (url : str) : option str :=
  after_catalog (split_slash (rstrip_slash url) []).

Definition default_urls : list str :=
  [u "https://alkoteka.com/catalog/slaboalkogolnye-napitki-2";
   u "https://alkoteka.com/catalog/vino";
   u "https://alkoteka.com/catalog/krepkiy-alkogol"].

(** [line and not line.startswith('#')]. *)
Definition keep_line (line : str) : bool :=
  match line with
  | [] => false
  | c :: _ => negb (c =? 35)%N
  end.

Section Callbacks.
Context {R : Runtime}.
Variable cfg : config.

Definition _load_categories : list str :=
  match categories_txt cfg with
  | FileLines lines =>
    let urls := List.filter keep_line (map strip lines) in
    match urls with
    | [] => default_urls
    | _ => urls
    end
  | FileNotFound | FileError => default_urls
  end.

(** The line [_load_categories] logs: none when the file holds no URL. *)
Definition _load_categories_log : gen :=
  match categories_txt cfg with
  | FileLines lines =>
    match List.filter keep_line (map strip lines) with
    | [] => done
    | _ => log INFO
    end
  | FileNotFound => log INFO
  | FileError => log ERROR
  end.

Definition _create_product_list_request (s : state) (slug : str)
    (pg : value) (curl : str) : request :=
  {| url := api_base cfg ++ products_endpoint cfg ++ u "?" ++
            urlencode [(u "city_uuid", city_uuid s); (u "page", pg);
                       (u "per_page", VInt (per_page cfg));
                       (u "root_category_slug", VStr slug)];
     callback := parse_product_list_cb;
     errback := handle_error_eb;
     headers := [(u "Accept", u "application/json");
                 (u "X-Requested-With", u "XMLHttpRequest");
                 (u "Referer", curl)];
     req_meta :=
       {| page := Some pg; city_url := None; dont_cache := false;
          category_slug := Some slug; category_url := Some curl;
          handle_httpstatus_list := [403; 429; 503];
          product_list_data := None; retry_count := None;
          proxy := None; proxy_retry_times := None |};
     dont_filter := true |}.

Definition start_category_parsing : gen :=
  _load_categories_log >>>
  log INFO >>>
  for_each _load_categories (fun category_url =>
    match _extract_category_slug category_url with
    | Some (c :: slug) =>
      read (fun s =>
        emit (YieldRequest
                (_create_product_list_request s (c :: slug) (VInt 1) category_url)))
    | _ => log WARNING
    end).

Definition city_request (cu : str) (pg : value) : request :=
  {| url := cu ++ u "?" ++
            urlencode [(u "city_uuid", initial_city_uuid cfg); (u "page", pg)];
     callback := parse_cities_cb;
     errback := handle_error_eb;
     headers := [];
     req_meta :=
       {| page := Some pg; city_url := Some cu; dont_cache := true;
          category_slug := None; category_url := None;
          handle_httpstatus_list := [];
          product_list_data := None; retry_count := None;
          proxy := None; proxy_retry_times := None |};
     dont_filter := true |}.

Definition start_requests : gen :=
  log INFO >>>
  emit (YieldRequest (city_request (api_base cfg ++ city_endpoint cfg) (VInt 1))).

(** [v + 1]. *)
Definition py_add1 (v : value) : result value :=
  match v with
  | VInt n => Ok (VInt (n + 1))
  | VBool b => Ok (VInt ((if b then 1 else 0) + 1))
  | VFloat f => Ok (VFloat (SFadd 53 1024 f fone))
  | _ => Raise TypeError
  end.

(** [len(v)]. *)
Definition py_len (v : value) : result Z :=
  match v with
  | VList l => Ok (Z.of_nat (length l))
  | VStr s => Ok (Z.of_nat (length s))
  | VDict d => Ok (Z.of_nat (length d))
  | _ => Raise TypeError
  end.

(** The three fallbacks of [parse_cities]. *)
Definition city_fallback : gen :=
  log ERROR >>> set_city_uuid (initial_city_uuid cfg) >>> start_category_parsing.

(** The body of the loop over the cities of a page. *)
Definition city_step (city : value) : gen :=
  attempt (as_dict city) (fun c =>
    found_city (VDict [field "name" (get c "name");
                       field "uuid" (get c "uuid");
                       field "slug" (get c "slug")]) >>>
    if py_eq (get c "name") (target_city_name cfg)
    then set_city_uuid (get c "uuid") >>> log INFO
    else done).

Definition parse_cities (resp : response) : gen :=
  if negb (status resp =? 200) then city_fallback
  else
    match json_loads (text resp) with
    | Raise JSONDecodeError => city_fallback
    | Raise e => throw e
    | Ok data =>
      attempt (as_dict data) (fun d =>
        if negb (truthy (get d "success")) then city_fallback
        else
          attempt (py_iter (get_or d "results" (VList []))) (fun cities =>
            for_each cities city_step >>>
            attempt (as_dict (get_or d "meta" (VDict []))) (fun meta_info =>
              let current_page := get_or meta_info "current_page" (VInt 1) in
              let has_more := get_or meta_info "has_more_pages" (VBool false) in
              log INFO >>>
              read (fun s =>
                if negb (truthy (city_uuid s)) && truthy has_more then
                  attempt (py_add1 current_page) (fun next_page =>
                    match city_url (resp_meta resp) with
                    | Some cu => emit (YieldRequest (city_request cu next_page))
                    | None => throw KeyError
                    end)
                else
                  (if truthy (city_uuid s) then log INFO
                   else log WARNING >>> set_city_uuid (initial_city_uuid cfg))
                  >>> start_category_parsing))))
    end.

(** [if item: self.products_count += 1; yield item]. *)
Definition yield_item (item : option dict) : gen :=
  match item with
  | Some i => if truthy (VDict i) then count_product >>> emit (YieldItem i) else done
  | None => done
  end.

(** List-only extraction of one record, as the loop of
    [parse_product_list] does it when details are off. *)
Definition list_only (now : Z) (product_data : value) : gen :=
  attempt (_parse_product_from_list now product_data) yield_item.

(** The fallback of the detail handlers: [if list_data: ...]. *)
Definition fallback_to_list (now : Z) (list_data : value) : gen :=
  if truthy list_data then list_only now list_data else done.

Definition detail_request (s : state) (product_data : value)
    (product_slug : value) (curl : str) : request :=
  {| url := api_base cfg ++ products_endpoint cfg ++ u "/" ++
            py_str product_slug ++ u "?city_uuid=" ++ py_str (city_uuid s);
     callback := parse_product_detail_cb;
     errback := handle_product_error_eb;
     headers := [];
     req_meta :=
       {| page := None; city_url := None; dont_cache := false;
          category_slug := None; category_url := Some curl;
          handle_httpstatus_list := [404; 403; 429; 503];
          product_list_data := Some product_data; retry_count := None;
          proxy := None; proxy_retry_times := None |};
     dont_filter := false |}.

(** The body of the loop over the products of a page; [now] is the clock
    when the record is extracted. *)
Definition product_step (resp : response) (now : Z) (product_data : value)
    : gen :=
  if parse_details cfg then
    attempt (as_dict product_data) (fun p =>
      let product_slug := get p "slug" in
      if truthy product_slug then
        log DEBUG >>>
        read (fun s =>
          match category_url (resp_meta resp) with
          | Some curl =>
            emit (YieldRequest (detail_request s product_data product_slug curl))
          | None => throw KeyError
          end)
      else done)
  else list_only now product_data.

(** What the computation of [number_pages] can raise: only [ValueError] is
    caught. *)
Definition truediv_check (a b : Z) : result unit :=
  if b =? 0 then Raise ZeroDivisionError
  else if Z.abs a >=? Z.abs b * (2 ^ 1024 - 2 ^ 970) then Raise OverflowError
  else Ok tt.

Definition number_pages_check (meta_info : dict) : result unit :=
  if truthy (get meta_info "total") && truthy (get meta_info "per_page") then
    match py_int (get meta_info "total") with
    | Raise ValueError => Ok tt
    | Raise e => Raise e
    | Ok a =>
      match py_int (get meta_info "per_page") with
      | Raise ValueError => Ok tt
      | Raise e => Raise e
      | Ok b => truediv_check a b
      end
    end
  else Ok tt.

Fixpoint for_each_at {A} (i : nat) (l : list A) (body : nat -> A -> gen) : gen :=
  match l with
  | [] => done
  | x :: l' => body i x >>> for_each_at (S i) l' body
  end.

(** The retry of [parse_product_list] and [handle_error]. *)
Definition retry (r : request) : gen :=
  let n := default 0 (retry_count (req_meta r)) in
  if n <? 3 then log INFO >>> emit (YieldRequest (retry_copy r n)) else done.

(** [clock i] is [int(time.time())] when the [i]-th record of the page is
    extracted. *)
Definition parse_product_list (clock : nat -> Z) (resp : response) : gen :=
  if negb (status resp =? 200) then
    log WARNING >>>
    if (status resp =? 403) || (status resp =? 429)
    then retry (resp_request resp)
    else done
  else
    match json_loads (text resp) with
    | Raise JSONDecodeError => log ERROR
    | Raise e => throw e
    | Ok (VDict d) =>
      if negb (truthy (get d "success")) then log ERROR
      else
        let products := get_or d "results" (VList []) in
        attempt (as_dict (get_or d "meta" (VDict []))) (fun meta_info =>
        attempt (number_pages_check meta_info) (fun _ =>
        match category_slug (resp_meta resp) with
        | Some slug =>
          attempt (py_len products) (fun _ =>
          log INFO >>>
          attempt (py_iter products) (fun ps =>
            for_each_at 0 ps (fun i => product_step resp (clock i))) >>>
          if truthy (get_or meta_info "has_more_pages" (VBool false)) then
            attempt (py_add1 (get_or meta_info "current_page" (VInt 1)))
              (fun next_page =>
                 match category_url (resp_meta resp) with
                 | Some curl =>
                   read (fun s =>
                     emit (YieldRequest
                             (_create_product_list_request s slug next_page curl)))
                 | None => throw KeyError
                 end)
          else done)
        | None => throw KeyError
        end))
    | Ok _ => log ERROR
    end.

Definition parse_product_detail (now : Z) (resp : response) : gen :=
  let list_data := default (VDict []) (product_list_data (resp_meta resp)) in
  if negb (status resp =? 200) then
    (if status resp =? 404 then log DEBUG else log WARNING) >>>
    fallback_to_list now list_data
  else
    match json_loads (text resp) with
    | Raise JSONDecodeError => log ERROR >>> fallback_to_list now list_data
    | Raise e => throw e
    | Ok data =>
      attempt (as_dict data) (fun d =>
        if negb (truthy (get d "success"))
        then log DEBUG >>> fallback_to_list now list_data
        else
          attempt (_parse_product_from_detail now
                     (get_or d "results" (VDict [])) list_data)
                  yield_item)
    end.

Definition handle_product_error (now : Z) (f : failure) : gen :=
  let list_data :=
    default VNone (product_list_data (req_meta (failure_request f))) in
  log DEBUG >>> fallback_to_list now list_data.

Definition handle_error (f : failure) : gen :=
  log ERROR >>>
  match failure_response f with
  | Some r =>
    if (status r =? 403) || (status r =? 429) || (status r =? 503)
    then retry (failure_request f)
    else done
  | None => done
  end.

End Callbacks.
End Spider.

(** ** pipelines.py *)

Module Pipelines.
Import Py Spider.

(** [k in item] and the nested updates [item[k][sub] = v]. *)
Definition has (item : dict) (k : string) : bool := dmem (lit_str k) item.
Arguments has item k%_string.

Definition set (k : string) (v : value) (item : dict) : dict :=
  dset (lit_str k) v item.
Arguments set k%_string v item.

(** [if field not in d: d[field] = default]. *)
Definition set_default (k : string) (v : value) (d : dict) : dict :=
  if has d k then d else set k v d.
Arguments set_default k%_string v d.

(** *** ValidationPipeline *)

Record counters := {
  processed_count : Z;
  error_count : Z
}.

Definition required_fields : list (string * value) :=
  [("timestamp", VInt 0);
   ("RPC", VStr []);
   ("url", VStr []);
   ("title", VStr []);
   ("marketing_tags", VList []);
   ("brand", VStr []);
   ("section", VList []);
   ("price_data", VDict [field "current" (VFloat fzero);
                         field "original" (VFloat fzero);
                         field "sale_tag" (VStr [])]);
   ("stock", VDict [field "in_stock" (VBool false);
                    field "count" (VInt 0)]);
   ("assets", VDict [field "main_image" (VStr []);
                     field "set_images" (VList []);
                     field "view360" (VList []);
                     field "video" (VList [])]);
   ("metadata", VDict [field "__description" (VStr [])]);
   ("variants", VInt 0)]%string.

(** The loop that sets the defaults of the missing fields and counts
    them. *)
Fixpoint fill_missing (fields : list (string * value)) (errors : Z)
    (item : dict) : Z * dict :=
  match fields with
  | [] => (errors, item)
  | (k, default) :: rest =>
    if has item k then fill_missing rest errors item
    else fill_missing rest (errors + 1) (set k default item)
  end.

Definition is_list (v : value) : bool :=
  match v with VList _ => true | _ => false end.
Definition is_dict (v : value) : bool :=
  match v with VDict _ => true | _ => false end.

(** [if not isinstance(item.get(field), list): item[field] = []]. *)
Definition force_list (k : string) (item : dict) : dict :=
  if is_list (get item k) then item else set k (VList []) item.
Definition force_dict (k : string) (item : dict) : dict :=
  if is_dict (get item k) then item else set k (VDict []) item.
Arguments force_list k%_string item.
Arguments force_dict k%_string item.

(** [item[k]] updated in place by [f], where [item[k]] is a dictionary. *)
Definition within (k : string) (f : dict -> dict) (item : dict) : dict :=
  if has item k then
    match get item k with
    | VDict d => set k (VDict (f d)) item
    | _ => item
    end
  else item.
Arguments within k%_string f item.

(** A sub-field of ['assets'] that is missing or not a list becomes []. *)
Definition force_sublist (k : string) (assets : dict) : dict :=
  if has assets k then
    if is_list (get assets k) then assets else set k (VList []) assets
  else set k (VList []) assets.
Arguments force_sublist k%_string assets.

Definition _validate_types (item : dict) : dict :=
  let item := force_list "section" (force_list "marketing_tags" item) in
  let item :=
    force_dict "metadata"
      (force_dict "assets" (force_dict "stock" (force_dict "price_data" item))) in
  let item :=
    within "assets"
      (fun a => force_sublist "video"
                  (force_sublist "view360" (force_sublist "set_images" a)))
      item in
  let item :=
    within "price_data"
      (fun p => set_default "sale_tag" (VStr [])
                  (set_default "original" (VFloat fzero)
                     (set_default "current" (VFloat fzero) p)))
      item in
  within "stock"
    (fun s => set_default "count" (VInt 0)
                (set_default "in_stock" (VBool false) s))
    item.

(** [ValidationPipeline.process_item]: the counters and the item it
    returns (its log lines do not bear on either). *)
Definition validate (c : counters) (item : dict) : counters * dict :=
  let '(errors, item) := fill_missing required_fields (error_count c) item in
  ({| processed_count := processed_count c + 1; error_count := errors |},
   _validate_types item).

(** The item [ValidationPipeline.process_item] returns. *)
Definition validate_item (item : dict) : dict :=
  snd (validate {| processed_count := 0; error_count := 0 |} item).

(** *** DataCleaningPipeline *)

(** [list(dict.fromkeys(xs))]: the keys in insertion order. *)
Fixpoint fromkeys (xs : list value) (keys : list value)
    : result (list value) :=
  match xs with
  | [] => Ok keys
  | x :: xs' =>
    if hashable x
    then fromkeys xs' (if existsb (key_eqb x) keys then keys else keys ++ [x])
    else Raise TypeError
  end.

Definition unique (v : value) : result value :=
  let* xs := py_iter v in
  let* keys := fromkeys xs [] in
  Ok (VList keys).

(** ['k' in v and v['k'] is readable]: [Ok (Some x)] gives [v['k']],
    [Ok None] says the key is absent. *)
Definition lookup_in (k : string) (v : value) : result (option value) :=
  match v with
  | VDict d => Ok (dget (lit_str k) d)
  | VList l => if py_in (lit_str k) l then Raise TypeError else Ok None
  | VStr s => if infixb (u k) s then Raise TypeError else Ok None
  | _ => Raise TypeError
  end.
Arguments lookup_in k%_string v.

Section Cleaning.
Context {R : Runtime}.

(** [if field in item and item[field]: item[field] = str(item[field]).strip()]. *)
Definition clean_string (k : string) (item : dict) : result dict :=
  if has item k && truthy (get item k)
  then
    let* s := py_str_limited (get item k) in
    Ok (set k (VStr (strip s)) item)
  else Ok item.

(** [try: float(x) except (TypeError, ValueError): 0.0]. *)
Definition float_or_zero (v : value) : result value :=
  match py_float v with
  | Ok f => Ok (VFloat f)
  | Raise TypeError | Raise ValueError => Ok (VFloat fzero)
  | Raise e => Raise e
  end.

Definition int_or_zero (v : value) : result value :=
  match py_int v with
  | Ok n => Ok (VInt n)
  | Raise TypeError | Raise ValueError => Ok (VInt 0)
  | Raise e => Raise e
  end.

(** [if sub in item[k]: item[k][sub] = f(item[k][sub])], for [k] in
    [item]. *)
Definition convert_in (k sub : string) (f : value -> result value)
    (item : dict) : result dict :=
  let* x := lookup_in sub (get item k) in
  match x, get item k with
  | Some x, VDict d =>
    let* y := f x in
    Ok (set k (VDict (set sub y d)) item)
  | _, _ => Ok item
  end.

(** [# Clean string fields] *)
Definition clean_strings (item : dict) : result dict :=
  let* item := clean_string "RPC" item in
  let* item := clean_string "url" item in
  let* item := clean_string "title" item in
  clean_string "brand" item.

(** [# Remove duplicate tags] *)
Definition clean_tags (item : dict) : result dict :=
  if has item "marketing_tags" then
    let* tags := unique (get item "marketing_tags") in
    Ok (set "marketing_tags" tags item)
  else Ok item.

(** [# Remove duplicate images] *)
Definition clean_images (item : dict) : result dict :=
  if has item "assets" then convert_in "assets" "set_images" unique item
  else Ok item.

(** [# Ensure numeric types] *)
Definition clean_prices (item : dict) : result dict :=
  if has item "price_data" then
    let* item := convert_in "price_data" "current" float_or_zero item in
    convert_in "price_data" "original" float_or_zero item
  else Ok item.

Definition clean_count (item : dict) : result dict :=
  if has item "stock" then convert_in "stock" "count" int_or_zero item
  else Ok item.

Definition clean_variants (item : dict) : result dict :=
  if has item "variants" then
    let* n := int_or_zero (get item "variants") in
    Ok (set "variants" n item)
  else Ok item.

(** [# Clean metadata - remove None values] *)
Definition clean_metadata (item : dict) : result dict :=
  if has item "metadata" then
    let* metadata := as_dict (get item "metadata") in
    Ok (set "metadata"
          (VDict (List.filter (fun kv => negb (is_none (snd kv))) metadata))
          item)
  else Ok item.

(** [DataCleaningPipeline.process_item]. *)
Definition clean (item : dict) : result dict :=
  let* item := clean_strings item in
  let* item := clean_tags item in
  let* item := clean_images item in
  let* item := clean_prices item in
  let* item := clean_count item in
  let* item := clean_variants item in
  clean_metadata item.

(** The two pipelines in the order of [ITEM_PIPELINES]. *)
Definition process (item : dict) : result dict := clean (validate_item item).

End Cleaning.
End Pipelines.

(** ** middlewares.py: ProxyMiddleware *)

Module Proxy.
Import Py Spider.

Definition max_failures : nat := 3.

(** The attributes of the middleware.  [proxy_endpoint] is only set in
    single-endpoint mode. *)
Record pstate := {
  enabled : bool;
  mode : str;
  proxy_auth : str;
  proxies : list str;
  proxy_failures : gmap str nat;
  current_proxy_index : nat;
  proxy_endpoint : option str
}.

Definition rotating (s : pstate) : bool := bool_decide (mode s = u "rotating").

(** [self.proxy_failures.get(proxy, 0)]. *)
Definition failures (s : pstate) (p : str) : nat :=
  default 0%nat (proxy_failures s !! p).

Definition set_enabled (b : bool) (s : pstate) : pstate :=
  {| enabled := b; mode := mode s; proxy_auth := proxy_auth s;
     proxies := proxies s; proxy_failures := proxy_failures s;
     current_proxy_index := current_proxy_index s;
     proxy_endpoint := proxy_endpoint s |}.

Definition set_index (i : nat) (s : pstate) : pstate :=
  {| enabled := enabled s; mode := mode s; proxy_auth := proxy_auth s;
     proxies := proxies s; proxy_failures := proxy_failures s;
     current_proxy_index := i; proxy_endpoint := proxy_endpoint s |}.

Definition set_proxies (l : list str) (s : pstate) : pstate :=
  {| enabled := enabled s; mode := mode s; proxy_auth := proxy_auth s;
     proxies := l; proxy_failures := proxy_failures s;
     current_proxy_index := current_proxy_index s;
     proxy_endpoint := proxy_endpoint s |}.

Definition set_failures (m : gmap str nat) (s : pstate) : pstate :=
  {| enabled := enabled s; mode := mode s; proxy_auth := proxy_auth s;
     proxies := proxies s; proxy_failures := m;
     current_proxy_index := current_proxy_index s;
     proxy_endpoint := proxy_endpoint s |}.

(** [l.remove(x)]: the first occurrence. *)
Fixpoint remove_first (x : str) (l : list str) : list str :=
  match l with
  | [] => []
  | y :: l' => if bool_decide (y = x) then l' else y :: remove_first x l'
  end.

Definition mem (x : str) (l : list str) : bool := bool_decide (x ∈ l).

(** *** Loading the pool *)

(** What the engine asks of the middleware. *)
Inductive op :=
| Request (r : request)       (* process_request(r) *)
| Exception (r : request).    (* process_exception(r, ...) *)

Section Middleware.
Context {R : Runtime}.

Definition _normalize_proxy (proxy : str) : option str :=
  let proxy := strip proxy in
  match proxy with
  | [] => None
  | _ =>
    let proxy := if infixb (u "://") proxy then proxy else u "http://" ++ proxy in
    if prefixb (u "http://") proxy || prefixb (u "https://") proxy ||
       prefixb (u "socks4://") proxy || prefixb (u "socks5://") proxy
    then Some proxy else None
  end.

(** [if normalized: proxies.append(normalized)]. *)
Definition normalized (l : list str) : list str :=
  omap (fun p => match _normalize_proxy p with
                 | Some (c :: q) => Some (c :: q)
                 | _ => None
                 end) l.

(** [file] holds the lines of [PROXY_LIST_FILE] ([None] when it cannot be
    read), [proxy_list] the setting [PROXY_LIST]. *)
Definition _load_proxies (file : option (list str)) (proxy_list : list str)
    : list str :=
  let from_file :=
    match file with
    | Some lines => normalized (List.filter keep_line (map strip lines))
    | None => []
    end in
  match from_file with
  | [] => normalized proxy_list
  | _ => from_file
  end.

(** [__init__] with [PROXY_ENABLED] set. *)
Definition init (proxy_mode auth endpoint : str) (file : option (list str))
    (proxy_list : list str) : pstate :=
  if bool_decide (proxy_mode = u "rotating") then
    let loaded := _load_proxies file proxy_list in
    {| enabled := match loaded with [] => false | _ => true end;
       mode := proxy_mode; proxy_auth := auth; proxies := loaded;
       proxy_failures := ∅; current_proxy_index := 0;
       proxy_endpoint := None |}
  else
    {| enabled := match endpoint with [] => false | _ => true end;
       mode := proxy_mode; proxy_auth := auth; proxies := [];
       proxy_failures := ∅; current_proxy_index := 0;
       proxy_endpoint := Some endpoint |}.

(** The loop of [_get_next_proxy]; [attempts_left] is
    [max_attempts - attempts]. *)
Fixpoint next_proxy_loop (attempts_left : nat) (s : pstate)
    : option str * pstate :=
  match attempts_left with
  | O => (None, s)
  | S n =>
    match proxies s with
    | [] => (None, s)
    | p0 :: _ =>
      let proxy :=
        nth (current_proxy_index s mod length (proxies s)) (proxies s) p0 in
      let s' := set_index (S (current_proxy_index s)) s in
      if (failures s proxy <? max_failures)%nat then (Some proxy, s')
      else next_proxy_loop n s'
    end
  end.

Definition _get_next_proxy (s : pstate) : option str * pstate :=
  next_proxy_loop (length (proxies s) * 2) s.

Definition with_proxy (p : option str) (times : option Z) (r : request)
    (hs : list (str * str)) : request :=
  {| url := url r; callback := callback r; errback := errback r;
     headers := hs;
     req_meta :=
       {| page := page (req_meta r); city_url := city_url (req_meta r);
          dont_cache := dont_cache (req_meta r);
          category_slug := category_slug (req_meta r);
          category_url := category_url (req_meta r);
          handle_httpstatus_list := handle_httpstatus_list (req_meta r);
          product_list_data := product_list_data (req_meta r);
          retry_count := retry_count (req_meta r);
          proxy := p;
          proxy_retry_times := times |};
     dont_filter := dont_filter r |}.

(** [request.headers[name] = v]. *)
Fixpoint set_header (name v : str) (hs : list (str * str)) : list (str * str) :=
  match hs with
  | [] => [(name, v)]
  | (n, x) :: hs' =>
    if bool_decide (n = name) then (n, v) :: hs' else (n, x) :: set_header name v hs'
  end.

Definition colon : char := 58%N.
Definition at_sign : char := 64%N.

(** The headers after [_set_proxy_auth]; a credential without [':'] is
    logged and skipped. *)
Definition _set_proxy_auth (s : pstate) (hs : list (str * str))
    : list (str * str) :=
  match proxy_auth s with
  | [] => hs
  | auth =>
    if bool_decide (colon ∈ auth)
    then set_header (u "Proxy-Authorization") (u "Basic " ++ b64encode auth) hs
    else hs
  end.

(** [process_request]: the state and the request after the call. *)
Definition process_request (s : pstate) (r : request)
    : result (pstate * request) :=
  if negb (enabled s) then Ok (s, r)
  else
    match proxy (req_meta r) with
    | Some _ => Ok (s, r)
    | None =>
      if rotating s && match proxies s with [] => false | _ => true end then
        match _get_next_proxy s with
        | (Some (c :: p), s') =>
          let proxy := c :: p in
          let hs :=
            match proxy_auth s with
            | [] => headers r
            | _ =>
              if bool_decide (at_sign ∈ proxy) then headers r
              else _set_proxy_auth s (headers r)
            end in
          Ok (s', with_proxy (Some proxy) (Some 0) r hs)
        | (_, s') => Ok (set_enabled false s', r)
        end
      else
        match proxy_endpoint s with
        | None => Raise AttributeError
        | Some [] => Ok (s, r)
        | Some endpoint =>
          Ok (s, with_proxy (Some endpoint) (proxy_retry_times (req_meta r)) r
                   (_set_proxy_auth s (headers r)))
        end
    end.

(** The bookkeeping of a failure of [proxy] in rotating mode. *)
Definition record_failure (proxy : str) (s : pstate) : pstate :=
  let n := S (failures s proxy) in
  let s := set_failures (<[proxy := n]> (proxy_failures s)) s in
  if (max_failures <=? n)%nat then
    if mem proxy (proxies s) then
      let s := set_proxies (remove_first proxy (proxies s)) s in
      match proxies s with
      | [] => set_enabled false s
      | _ => s
      end
    else s
  else s.

(** [process_exception]: the state, and the request to reschedule, if
    any. *)
Definition process_exception (s : pstate) (r : request)
    : pstate * option request :=
  match proxy (req_meta r) with
  | None => (s, None)
  | Some proxy =>
    let s' := if rotating s then record_failure proxy s else s in
    let times := default 0 (proxy_retry_times (req_meta r)) + 1 in
    let r' := with_proxy None (Some times) r (headers r) in
    (s', if times <? 3 then Some r' else None)
  end.

(** *** Runs of the middleware *)

(** One call of the engine, a run of calls, and the proxy a rotation pick
    returns in a state. *)
Definition step (s : pstate) (o : op) : pstate :=
  match o with
  | Request r =>
    match process_request s r with
    | Ok (s', _) => s'
    | Raise _ => s
    end
  | Exception r => fst (process_exception s r)
  end.

Definition run (s : pstate) (ops : list op) : pstate := fold_left step ops s.

Definition pick (s : pstate) : option str := fst (_get_next_proxy s).

End Middleware.

End Proxy.

(** ** A small runtime for running the code on examples

    ASCII and basic Cyrillic tables, integer parsing, and stand-ins for the
    printers; enough to evaluate the functions on the inputs used below. *)

Module Demo.
Import Py.

Definition between (lo hi x : N) : bool := ((lo <=? x) && (x <=? hi))%N.

Definition is_digit (c : char) : bool := between 48 57 c.
Definition is_space (c : char) : bool :=
  between 9 13 c || between 28 32 c || (c =? 133)%N || (c =? 160)%N.
Definition lower (c : char) : char :=
  if between 65 90 c || between 1040 1071 c then (c + 32)%N
  else if between 1024 1039 c then (c + 80)%N
  else c.
Definition upper (c : char) : char :=
  if between 97 122 c || between 1072 1103 c then (c - 32)%N
  else if between 1104 1119 c then (c - 80)%N
  else c.
Definition is_word (c : char) : bool :=
  is_digit c || between 65 90 c || between 97 122 c || (c =? 95)%N ||
  between 1024 1279 c.

Fixpoint digits_value (s : str) (acc : Z) : option Z :=
  match s with
  | [] => Some acc
  | c :: s' =>
    if is_digit c then digits_value s' (10 * acc + Z.of_N (c - 48)) else None
  end.

Definition int_of_str (s : str) : option Z :=
  match s with
  | [] => None
  | 45%N :: (_ :: _) as s' => option_map Z.opp (digits_value s' 0)
  | _ => digits_value s 0
  end.

Definition float_of_str (s : str) : option float :=
  match int_of_str s with
  | Some n =>
    match float_of_Z n with
    | Ok f => Some f
    | Raise _ => None
    end
  | None => None
  end.

Definition float_repr (f : float) : str :=
  match trunc_float f with
  | Ok n => str_of_Z n ++ u ".0"
  | Raise _ => u "nan"
  end.

Definition str_repr (s : str) : str := 39%N :: s ++ [39%N].

(** The bodies the examples use: an empty object and an empty array are
    decoded, a hundred thousand opening brackets exhaust the recursion
    limit of the decoder, and nothing else is JSON. *)
Definition deep_body : str := repeat 91%N (N.to_nat 100000).

Definition json_loads (s : str) : result value :=
  if bool_decide (s = u "{}") then Ok (VDict [])
  else if bool_decide (s = u "[]") then Ok (VList [])
  else if bool_decide (s = deep_body) then Raise RecursionError
  else Raise JSONDecodeError.

Fixpoint urlencode (ps : list (str * value)) : str :=
  match ps with
  | [] => []
  | (k, v) :: ps' =>
    k ++ u "=" ++
    (match v with VStr s => s | VInt n => str_of_Z n | _ => [] end) ++
    match ps' with [] => [] | _ => u "&" ++ urlencode ps' end
  end.

Definition runtime : Runtime :=
  {| Py.is_digit := is_digit; Py.is_space := is_space; Py.is_word := is_word;
     Py.lower := lower; Py.upper := upper;
     Py.float_repr := float_repr; Py.str_repr := str_repr;
     Py.float_of_str := float_of_str; Py.int_of_str := int_of_str;
     Py.json_loads := json_loads; Py.urlencode := urlencode;
     Py.b64encode := fun s => s |}.


(** A detail record with a characteristic block titled ["UUID"]. *)
Definition titled_uuid_record : dict :=
  [Spider.field "uuid" (Spider.lit_str "u-1");
   Spider.field "description_blocks"
     (VList [VDict [Spider.field "code" (Spider.lit_str "kod");
                    Spider.field "title" (Spider.lit_str "UUID");
                    Spider.field "values"
                      (VList [Spider.lit_str "from-block"])]])].

(** A list record, the request for its details, and a 404 answer. *)
Definition list_record : dict :=
  [Spider.field "uuid" (Spider.lit_str "u-1");
   Spider.field "slug" (Spider.lit_str "baltika-7");
   Spider.field "name" (Spider.lit_str "Балтика 7 пиво");
   Spider.field "subname" (Spider.lit_str "Пиво светлое 0.5 л");
   Spider.field "price" (VInt 80);
   Spider.field "prev_price" (VInt 100);
   Spider.field "quantity" (VInt 4)].

Definition detail_meta (retries : option Z) : Spider.meta :=
  {| Spider.page := None; Spider.city_url := None; Spider.dont_cache := false;
     Spider.category_slug := None;
     Spider.category_url := Some (u "https://alkoteka.com/catalog/pivo");
     Spider.handle_httpstatus_list := [404; 403; 429; 503];
     Spider.product_list_data := Some (VDict list_record);
     Spider.retry_count := retries;
     Spider.proxy := None; Spider.proxy_retry_times := retries |}.

Definition detail_req (retries : option Z) : Spider.request :=
  {| Spider.url := u "https://alkoteka.com/web-api/v1/product/baltika-7";
     Spider.callback := Spider.parse_product_detail_cb;
     Spider.errback := Spider.handle_product_error_eb;
     Spider.headers := [];
     Spider.req_meta := detail_meta retries;
     Spider.dont_filter := false |}.

Definition not_found : Spider.response :=
  {| Spider.status := 404; Spider.text := []; 
     Spider.resp_request := detail_req None |}.

(** Two answers with status 200 to the same request: the deep body, and an
    empty array. *)
Definition deep_response : Spider.response :=
  {| Spider.status := 200; Spider.text := deep_body;
     Spider.resp_request := detail_req None |}.

Definition array_response : Spider.response :=
  {| Spider.status := 200; Spider.text := u "[]";
     Spider.resp_request := detail_req None |}.

(** The settings of [settings.py], without a categories file. *)
Definition cfg : Spider.config :=
  {| Spider.api_base := u "https://alkoteka.com/web-api/v1";
     Spider.products_endpoint := u "/product";
     Spider.city_endpoint := u "/city";
     Spider.target_city_name := Spider.lit_str "Краснодар";
     Spider.initial_city_uuid :=
       Spider.lit_str "4a70f9e0-46ae-11e7-83ff-00155d026416";
     Spider.per_page := 20;
     Spider.parse_details := true;
     Spider.categories_txt := Spider.FileNotFound |}.

(** Pools of proxies, and a request that failed through the first
    address. *)
Definition proxy_a : str := u "http://10.0.0.1:8080".
Definition proxy_b : str := u "http://10.0.0.2:8080".
Definition proxy_c : str := u "http://10.0.0.3:8080".

Definition pool : Proxy.pstate :=
  Proxy.init (R := runtime) (u "rotating") [] [] None
    [proxy_a; proxy_b; proxy_c].

Definition duplicate_pool : Proxy.pstate :=
  Proxy.init (R := runtime) (u "rotating") [] [] None [proxy_a; proxy_a].

Definition failing : Spider.request :=
  Proxy.with_proxy (Some proxy_a) (Some 0) (detail_req None) [].

(** An item with a string where the tags should be and a number where
    the price data should be. *)
Definition untyped_item : dict :=
  [Spider.field "marketing_tags" (Spider.lit_str "sale");
   Spider.field "price_data" (VInt 5)].

(** An item whose tags and images repeat. *)
Definition repeated_item : dict :=
  [Spider.field "marketing_tags"
     (VList [Spider.lit_str "Новинка"; Spider.lit_str "Акция";
             Spider.lit_str "Новинка"]);
   Spider.field "assets"
     (VDict [Spider.field "set_images"
               (VList [Spider.lit_str "a.png"; Spider.lit_str "a.png"])])].

(** A list record with a negative price and a negative quantity. *)
Definition negative_record : dict :=
  [Spider.field "uuid" (Spider.lit_str "u-2");
   Spider.field "name" (Spider.lit_str "Вино");
   Spider.field "price" (VInt (-5));
   Spider.field "quantity" (VInt (-3))].

End Demo.

(** ** Notions the statements use *)

Module Spec.
Import Py Spider.

(** The field [k] of a record, unless it is missing or falsy (null, zero,
    empty). *)
Definition field_value (data : dict) (k : string) : option value :=
  match dget (lit_str k) data with
  | Some v => if truthy v then Some v else None
  | None => None
  end.
Arguments field_value data k%_string.

(** The price field, 0 by default; the previous price, else the price,
    else 0. *)
Definition price_source (data : dict) : value :=
  default (VInt 0) (field_value data "price").
Definition original_source (data : dict) : value :=
  match field_value data "prev_price" with
  | Some v => v
  | None => price_source data
  end.

(** [(original - current) / original * 100]. *)
Definition percent (original current : float) : float :=
  fmul (fdiv (fsub original current) original) hundred.

(** The float of an integer that has one. *)
Definition float_of (n : Z) : float := binary_normalize 53 1024 n 0 false.

Definition price_record (current original : float) (sale_tag : str) : dict :=
  [field "current" (VFloat current);
   field "original" (VFloat original);
   field "sale_tag" (VStr sale_tag)].

Definition finite (f : float) : bool :=
  match f with
  | S754_zero _ | S754_finite _ _ _ => true
  | _ => false
  end.

(** The keys the scalar extras of a detail record are stored under. *)
Definition extra_keys : list value :=
  [lit_str "Артикул"; lit_str "Код страны"; lit_str "UUID";
   lit_str "Общее количество"; lit_str "Подарочная упаковка";
   lit_str "Офлайн цена"].

Definition is_extra_key (k : value) : bool := existsb (key_eqb k) extra_keys.

(** The extras that are stored, with their keys: each scalar that is
    present (truthy; not null for the gift flag). *)
Definition stored_extras {R : Runtime} (d : dict) : list (value * value) :=
  (if truthy (get d "vendor_code")
   then [(lit_str "Артикул", to_str (get d "vendor_code"))] else []) ++
  (if truthy (get d "country_code")
   then [(lit_str "Код страны", get d "country_code")] else []) ++
  (if truthy (get d "uuid") then [(lit_str "UUID", get d "uuid")] else []) ++
  (if truthy (get d "quantity_total")
   then [(lit_str "Общее количество", to_str (get d "quantity_total"))]
   else []) ++
  (if negb (is_none (get d "gift_package"))
   then [(lit_str "Подарочная упаковка", yes_no (get d "gift_package"))]
   else []) ++
  (if truthy (get d "offline_price")
   then [(lit_str "Офлайн цена", to_str (get d "offline_price"))] else []).

(** The list record paired with a detail response
    ([response.meta.get('product_list_data', {})]). *)
Definition paired (resp : response) : value :=
  default (VDict []) (product_list_data (resp_meta resp)).

(** A response that failed: a status other than 200, a body that
    [json.loads] rejects with [JSONDecodeError], or an object whose
    ['success'] is falsy. *)
Definition bad_response {R : Runtime} (resp : response) : Prop :=
  status resp <> 200 \/
  json_loads (text resp) = Raise JSONDecodeError \/
  exists d, json_loads (text resp) = Ok (VDict d) /\
            truthy (get d "success") = false.

(** The item of all defaults. *)
Definition all_defaults : dict :=
  [field "timestamp" (VInt 0);
   field "RPC" (VStr []);
   field "url" (VStr []);
   field "title" (VStr []);
   field "marketing_tags" (VList []);
   field "brand" (VStr []);
   field "section" (VList []);
   field "price_data" (VDict [field "current" (VFloat fzero);
                              field "original" (VFloat fzero);
                              field "sale_tag" (VStr [])]);
   field "stock" (VDict [field "in_stock" (VBool false);
                         field "count" (VInt 0)]);
   field "assets" (VDict [field "main_image" (VStr []);
                          field "set_images" (VList []);
                          field "view360" (VList []);
                          field "video" (VList [])]);
   field "metadata" (VDict [field "__description" (VStr [])]);
   field "variants" (VInt 0)].

(** What an empty map becomes once validation has filled its nested
    fields. *)
Definition completed (k : string) : dict :=
  if String.eqb k "price_data" then
    [field "current" (VFloat fzero); field "original" (VFloat fzero);
     field "sale_tag" (VStr [])]
  else if String.eqb k "stock" then
    [field "in_stock" (VBool false); field "count" (VInt 0)]
  else if String.eqb k "assets" then
    [field "set_images" (VList []); field "view360" (VList []);
     field "video" (VList [])]
  else [].

(** The default of a key among the required fields. *)
Fixpoint default_of (x : value) (fields : list (string * value))
    : option value :=
  match fields with
  | [] => None
  | (k, v) :: rest =>
    if key_eqb x (lit_str k) then Some v else default_of x rest
  end.

(** The entries of a sequence that no earlier entry equals, in order:
    an entry is dropped when it is [in] what came before. *)
Fixpoint first_occurrences (seen xs : list value) : list value :=
  match xs with
  | [] => []
  | x :: xs' =>
    if py_in x seen then first_occurrences seen xs'
    else x :: first_occurrences (seen ++ [x]) xs'
  end.

(** No two entries are equal. *)
Definition distinct (l : list value) : Prop :=
  forall i j x y, i <> j -> l !! i = Some x -> l !! j = Some y ->
                  py_same x y = false.

(** What [list(dict.fromkeys(v))] returns. *)
Definition deduplicated (xs ks : list value) : Prop :=
  ks = first_occurrences [] xs /\ distinct ks /\ sublist ks xs /\
  forall x, x ∈ xs -> py_in x ks = true.

(** The title is [name] with [", "] and [volume] added, once. *)
Definition with_volume {R : Runtime} (name volume title : value) : Prop :=
  title = VStr (py_str name ++ u ", " ++ py_str volume).

(** The volume a detail record gives: that of the ['obem'] block when it
    is truthy, else what [_extract_volume] returns. *)
Definition detail_volume {R : Runtime} (d : dict) (volume : value) : Prop :=
  exists blocks bv,
    py_iter (get_or d "description_blocks" (VList [])) = Ok blocks /\
    block_volume blocks = Ok bv /\
    if truthy bv then volume = bv else _extract_volume d = Ok volume.

(** A number that is not negative. *)
Definition nonneg (v : value) : bool :=
  match v with
  | VInt n => 0 <=? n
  | VFloat f => fleb fzero f
  | VBool _ => true
  | _ => false
  end.

(** The field [k] of a record is absent, null, or a number that is not
    negative. *)
Definition nonneg_field (d : dict) (k : string) : bool :=
  match dget (lit_str k) d with
  | None => true
  | Some v => is_none v || nonneg v
  end.

(** A float that is zero, positive or plus infinity. *)
Definition not_negative (f : float) : Prop :=
  match f with
  | S754_zero s | S754_infinity s | S754_finite s _ _ => s = false
  | S754_nan => False
  end.

(** The numbers of the record are absent, null or not negative. *)
Definition nonneg_record (d : dict) : Prop :=
  nonneg_field d "price" = true /\ nonneg_field d "prev_price" = true /\
  nonneg_field d "quantity" = true /\ nonneg_field d "quantity_total" = true.

(** The item with the text of a string field stripped, and with the four of
    them: what the cleaning of the strings returns when it returns. *)
Definition stripped_string {R : Runtime} (k : string) (item : dict) : dict :=
  if Pipelines.has item k && truthy (get item k)
  then Pipelines.set k (VStr (strip (py_str (get item k)))) item
  else item.

Definition stripped_strings {R : Runtime} (item : dict) : dict :=
  stripped_string "brand"
    (stripped_string "title" (stripped_string "url" (stripped_string "RPC" item))).

End Spec.

(** * Notions for the further properties *)

(** ** Items, validity and the shape of a cleaned item *)

Module ObsItems.
Import Py Spider Pipelines.

(** The items and the requests among the events of a callback, in the
    order they were yielded. *)
Definition items_of (es : list event) : list dict :=
  omap (fun e => match e with YieldItem i => Some i | _ => None end) es.

Definition requests_of (es : list event) : list request :=
  omap (fun e => match e with YieldRequest r => Some r | _ => None end) es.

(** The number of required fields an item lacks. *)
Definition missing (item : dict) : Z :=
  Z.of_nat (length (List.filter (fun kv => negb (has item (fst kv)))
                                required_fields)).

(** What validation establishes: the twelve fields are there, the
    sequences are lists, the groups are maps and hold their nested
    fields. *)
Definition list_at (d : dict) (k : string) : bool :=
  match dget (lit_str k) d with Some (VList _) => true | _ => false end.
Arguments list_at d k%_string.

Definition dict_at (d : dict) (k : string) (sub : dict -> bool) : bool :=
  match dget (lit_str k) d with Some (VDict m) => sub m | _ => false end.
Arguments dict_at d k%_string sub.

Definition valid (item : dict) : bool :=
  forallb (has item)
    ["timestamp"; "RPC"; "url"; "title"; "brand"; "variants"]%string &&
  list_at item "marketing_tags" && list_at item "section" &&
  dict_at item "price_data"
    (fun p => has p "current" && has p "original" && has p "sale_tag") &&
  dict_at item "stock" (fun s => has s "in_stock" && has s "count") &&
  dict_at item "assets"
    (fun a => list_at a "set_images" && list_at a "view360" &&
              list_at a "video") &&
  dict_at item "metadata" (fun _ => true).

(** What cleaning adds: prices are floats, counts are integers, the
    sequences it rebuilt hold hashable entries, and no metadata value is
    null. *)
Definition float_at (d : dict) (k : string) : bool :=
  match dget (lit_str k) d with Some (VFloat _) => true | _ => false end.
Arguments float_at d k%_string.

Definition int_at (d : dict) (k : string) : bool :=
  match dget (lit_str k) d with Some (VInt _) => true | _ => false end.
Arguments int_at d k%_string.

Definition cleaned (item : dict) : bool :=
  valid item &&
  dict_at item "price_data" (fun p => float_at p "current" && float_at p "original") &&
  dict_at item "stock" (fun s => int_at s "count") &&
  int_at item "variants" &&
  dict_at item "metadata" (forallb (fun kv => negb (is_none (snd kv)))).

End ObsItems.

Module ObsStrings.
Import Py Spider Pipelines.

(** A string with no whitespace at either end. *)
Definition trimmed {R : Runtime} (s : str) : bool :=
  match s with [] => true | c :: _ => negb (is_space c) end &&
  match rev s with [] => true | c :: _ => negb (is_space c) end.

End ObsStrings.

Module ObsTags.
Import Py Spider Pipelines.

(** No entry equals ([==]) a later one. *)
Fixpoint no_repeats (l : list value) : bool :=
  match l with
  | [] => true
  | x :: l' => forallb (fun y => negb (py_same x y)) l' && no_repeats l'
  end.

End ObsTags.

(** Further records for the examples. *)
Module Examples.
Import Py Spider.

(** A detail record whose volume block gives a range. *)
Definition ranged_record : dict :=
  [field "description_blocks"
     (VList [VDict [field "code" (lit_str "obem");
                    field "min" (VInt 1); field "max" (VInt 2)]])].

(** An item whose title is a number of 4301 digits. *)
Definition long_number_item : dict :=
  [field "title" (VInt (10 ^ int_max_str_digits))].

(** A record flagged as new, with two action labels. *)
Definition tagged_record : dict :=
  [field "new" (VBool true);
   field "action_labels"
     (VList [VDict [field "name" (lit_str "Новинка")];
             VDict [field "name" (lit_str "Акция")]])].

End Examples.

Module ObsCounts.
Import Py Spider Pipelines ObsItems.

(** A generator counts every item it yields, and nothing else. *)
Definition counts_items (g : gen) : Prop :=
  forall s,
    products_count (final (g s)) =
    products_count s + Z.of_nat (length (items_of (events (g s)))).

End ObsCounts.

Module ObsPages.
Import Py Spider Pipelines ObsItems.

Section Pages.
Context {R : Runtime}.

(** The items of the records of a page, in order, up to the first record
    whose extraction raises; [clock i] is the time at the [i]-th record. *)
Fixpoint extracted (clock : nat -> Z) (i : nat) (ps : list value)
    : list dict :=
  match ps with
  | [] => []
  | p :: ps' =>
    match _parse_product_from_list (clock i) p with
    | Ok (Some item) => item :: extracted clock (S i) ps'
    | Ok None => extracted clock (S i) ps'
    | Raise _ => []
    end
  end.

(** A response that [parse_product_list] reads as a page of the category
    [slug] with the records [ps] and the paging data [meta_info]. *)
Definition page_of (resp : response) (slug : str) (meta_info : dict)
    (ps : list value) : Prop :=
  status resp = 200 /\
  category_slug (resp_meta resp) = Some slug /\
  exists d,
    json_loads (text resp) = Ok (VDict d) /\
    truthy (get d "success") = true /\
    as_dict (get_or d "meta" (VDict [])) = Ok meta_info /\
    number_pages_check meta_info = Ok tt /\
    get_or d "results" (VList []) = VList ps.

(** The detail request of a record, when it has a slug. *)
Definition detail_request_of (cfg : config) (s : state) (curl : str)
    (p : value) : option request :=
  match p with
  | VDict pd =>
    if truthy (get pd "slug")
    then Some (detail_request cfg s p (get pd "slug") curl)
    else None
  | _ => None
  end.

(** The [# Pagination] block of [parse_product_list]. *)
Definition next_page_step (cfg : config) (resp : response) (slug : str)
    (meta_info : dict) : gen :=
  if truthy (get_or meta_info "has_more_pages" (VBool false)) then
    attempt (py_add1 (get_or meta_info "current_page" (VInt 1)))
      (fun next_page =>
         match category_url (resp_meta resp) with
         | Some curl =>
           read (fun s =>
             emit (YieldRequest
                     (_create_product_list_request cfg s slug next_page curl)))
         | None => throw KeyError
         end)
  else done.

End Pages.

(** A generator that yields no item and leaves the state as it is. *)
Definition only_requests (g : gen) : Prop :=
  forall s, items_of (events (g s)) = [] /\ final (g s) = s.

End ObsPages.

(** A page of one record, and a runtime whose [json.loads] decodes its
    body. *)
Module DemoPages.
Import Py Spider.

Definition page_body : str := u "page 1 of pivo".

Definition page_meta : dict :=
  [field "current_page" (VInt 1); field "has_more_pages" (VBool true)].

Definition page : dict :=
  [field "success" (VBool true);
   field "results" (VList [VDict Demo.list_record]);
   field "meta" (VDict page_meta)].

(** A page of two cities; the second is the target of [Demo.cfg]. *)
Definition cities_body : str := u "page 1 of cities".

Definition krasnodar : dict :=
  [field "name" (lit_str "Краснодар"); field "uuid" (lit_str "city-2");
   field "slug" (lit_str "krasnodar")].

Definition cities_page : dict :=
  [field "success" (VBool true);
   field "results"
     (VList [VDict [field "name" (lit_str "Сочи");
                    field "uuid" (lit_str "city-1");
                    field "slug" (lit_str "sochi")];
             VDict krasnodar]);
   field "meta" (VDict page_meta)].

(** A page of one city that is not the target. *)
Definition sochi_body : str := u "page 1 of cities, Sochi only".

Definition sochi_page : dict :=
  [field "success" (VBool true);
   field "results"
     (VList [VDict [field "name" (lit_str "Сочи");
                    field "uuid" (lit_str "city-1");
                    field "slug" (lit_str "sochi")]]);
   field "meta" (VDict page_meta)].

Definition runtime_with_pages : Runtime :=
  {| Py.is_digit := Demo.is_digit; Py.is_space := Demo.is_space;
     Py.is_word := Demo.is_word;
     Py.lower := Demo.lower; Py.upper := Demo.upper;
     Py.float_repr := Demo.float_repr; Py.str_repr := Demo.str_repr;
     Py.float_of_str := Demo.float_of_str; Py.int_of_str := Demo.int_of_str;
     Py.json_loads :=
       fun s => if bool_decide (s = page_body) then Ok (VDict page)
                else if bool_decide (s = cities_body)
                     then Ok (VDict cities_page)
                else if bool_decide (s = sochi_body)
                     then Ok (VDict sochi_page)
                     else Demo.json_loads s;
     Py.urlencode := Demo.urlencode;
     Py.b64encode := fun s => s |}.

(** The settings with the detail pages switched off. *)
Definition list_cfg : config :=
  {| api_base := api_base Demo.cfg;
     products_endpoint := products_endpoint Demo.cfg;
     city_endpoint := city_endpoint Demo.cfg;
     target_city_name := target_city_name Demo.cfg;
     initial_city_uuid := initial_city_uuid Demo.cfg;
     per_page := per_page Demo.cfg;
     parse_details := false;
     categories_txt := categories_txt Demo.cfg |}.

Definition category : str := u "https://alkoteka.com/catalog/pivo".

Definition page_response : response :=
  {| status := 200; text := page_body;
     resp_request :=
       _create_product_list_request (R := runtime_with_pages) Demo.cfg initial_state
         (u "pivo") (VInt 1) category |}.

Definition cities_response : response :=
  {| status := 200; text := cities_body;
     resp_request :=
       city_request (R := runtime_with_pages) Demo.cfg
         (u "https://alkoteka.com/web-api/v1/city") (VInt 1) |}.

Definition sochi_response : response :=
  {| status := 200; text := sochi_body;
     resp_request :=
       city_request (R := runtime_with_pages) Demo.cfg
         (u "https://alkoteka.com/web-api/v1/city") (VInt 1) |}.

End DemoPages.

Module ObsCities.
Import Py Spider Pipelines ObsItems.

(** The request a retry resubmits, if any, and the chain of requests that a
    request gives rise to when every attempt fails again. *)
Definition resubmitted (r : request) : option request :=
  match requests_of (events (retry r initial_state)) with
  | [r'] => Some r'
  | _ => None
  end.

Fixpoint resubmissions (fuel : nat) (r : request) : list request :=
  match fuel with
  | O => []
  | S n =>
    match resubmitted r with
    | Some r' => r' :: resubmissions n r'
    | None => []
    end
  end.

(** A generator only adds to the cities found, and adds no city twice. *)
Definition grows_cities (g : gen) : Prop :=
  forall s,
    (exists new, cities_found (final (g s)) = cities_found s ++ new) /\
    (ObsTags.no_repeats (cities_found s) = true ->
     ObsTags.no_repeats (cities_found (final (g s))) = true).

Section Cities.
Context {R : Runtime}.

(** A response that [parse_cities] reads as a page of the cities
    [cities] with the paging data [meta_info]. *)
Definition cities_page_of (resp : response) (meta_info : dict)
    (cities : list value) : Prop :=
  status resp = 200 /\
  exists d,
    json_loads (text resp) = Ok (VDict d) /\
    truthy (get d "success") = true /\
    get_or d "results" (VList []) = VList cities /\
    as_dict (get_or d "meta" (VDict [])) = Ok meta_info.

End Cities.

(** A response from which [parse_cities] reads the entries [cities] and the
    paging data [meta_info]; [cities.extend] takes the entries of whatever
    iterable ['results'] is. *)
Definition cities_read {R : Runtime} (resp : response) (meta_info : dict)
    (cities : list value) : Prop :=
  status resp = 200 /\
  exists d,
    json_loads (text resp) = Ok (VDict d) /\
    truthy (get d "success") = true /\
    py_iter (get_or d "results" (VList [])) = Ok cities /\
    as_dict (get_or d "meta" (VDict [])) = Ok meta_info.

(** The identifier the loop over the entries leaves: that of the last
    entry that carries the name [target], else [cur]. *)
Definition found_uuid (target : value) (cities : list value) (cur : value)
    : value :=
  fold_left (fun cur city =>
               match city with
               | VDict c =>
                 if py_eq (get c "name") target then get c "uuid" else cur
               | _ => cur
               end) cities cur.

(** A city that does not carry the name [target]. *)
Definition other_city (target : value) (city : value) : bool :=
  match city with
  | VDict c => negb (py_eq (get c "name") target)
  | _ => true
  end.

End ObsCities.

Module ObsRegex.
Import Py Re Spider.

Section Lang.
Context {R : Runtime}.

(** The strings a pattern without [\b] matches in full. *)
Inductive lang : re -> str -> Prop :=
| lang_set c x : in_cls c x = true -> lang (RSet c) [x]
| lang_lit s t :
    Forall2 (fun c x => lit_match c x = true) s t -> lang (RLit s) t
| lang_seq a b s t : lang a s -> lang b t -> lang (RSeq a b) (s ++ t)
| lang_alt_l a b s : lang a s -> lang (RAlt a b) s
| lang_alt_r a b s : lang b s -> lang (RAlt a b) s
| lang_opt_none a : lang (ROpt a) []
| lang_opt_some a s : lang a s -> lang (ROpt a) s
| lang_many min c s :
    (min <= length s)%nat -> Forall (fun x => in_cls c x = true) s ->
    lang (RMany min c) s.

End Lang.

Fixpoint wordb_free (r : re) : bool :=
  match r with
  | RSet _ | RLit _ | RMany _ _ => true
  | RSeq a b | RAlt a b => wordb_free a && wordb_free b
  | ROpt a => wordb_free a
  | RWordB => false
  end.

(** The character before the position reached after [s]. *)
Definition prev_after (prev : option char) (s : str) : option char :=
  match last s with Some c => Some c | None => prev end.

End ObsRegex.

(** ** Notions for the proxy middleware *)
Module ObsProxy.
Import Py Spider Proxy.

Section Engine.
Context {R : Runtime}.

(** [proxy.startswith(('http://', 'https://', 'socks4://', 'socks5://'))]. *)
Definition supported (proxy : str) : bool :=
  prefixb (u "http://") proxy || prefixb (u "https://") proxy ||
  prefixb (u "socks4://") proxy || prefixb (u "socks5://") proxy.

(** A pool of distinct, non-empty addresses none of which has reached
    [max_failures]. *)
Definition healthy (s : pstate) : Prop :=
  NoDup (proxies s) /\
  forall p, p ∈ proxies s -> (failures s p < max_failures)%nat /\ p <> [].

(** The failures the pool can still take. *)
Definition slack (s : pstate) : nat :=
  sum_list (map (fun p => max_failures - failures s p)%nat (proxies s)).

(** A request all of whose downloads fail: the engine passes it to
    [process_request], the download raises, [process_exception] is called
    with the same request, and the request it returns is scheduled again.
    The result is the state at the end and the number of times the request
    was rescheduled. *)
Fixpoint bounce (fuel : nat) (s : pstate) (r : request) : pstate * nat :=
  match fuel with
  | O => (s, O)
  | S n =>
    match process_request s r with
    | Raise _ => (s, O)
    | Ok (s1, r1) =>
      match process_exception s1 r1 with
      | (s2, Some r2) => let (s3, k) := bounce n s2 r2 in (s3, S k)
      | (s2, None) => (s2, O)
      end
    end
  end.

End Engine.

End ObsProxy.

(** * Properties *)

Import Py Re Spider.

(** ** Dictionaries *)

Section DictFacts.

Lemma key_eqb_spec k1 k2 :
  key_eqb k1 k2 = true <->
  exists a, hash_key k1 = Some a /\ hash_key k2 = Some a.
Proof.
  unfold key_eqb.
  destruct (hash_key k1) as [a|], (hash_key k2) as [b|]; split;
    try (intros [c [H1 H2]]; congruence); try discriminate.
  - intros H. apply bool_decide_eq_true in H. subst. eauto.
  - intros [c [H1 H2]]. apply bool_decide_eq_true. congruence.
Qed.

Lemma key_eqb_refl k : hashable k = true -> key_eqb k k = true.
Proof.
  unfold hashable. intros H. apply key_eqb_spec.
  destruct (hash_key k); [eauto | discriminate].
Qed.

Lemma key_eqb_sym k1 k2 : key_eqb k1 k2 = key_eqb k2 k1.
Proof.
  apply eq_true_iff_eq. rewrite !key_eqb_spec.
  split; intros [a [H1 H2]]; eauto.
Qed.

Lemma key_eqb_trans k1 k2 k3 :
  key_eqb k1 k2 = true -> key_eqb k2 k3 = true -> key_eqb k1 k3 = true.
Proof.
  rewrite !key_eqb_spec. intros [a [H1 H2]] [b [H3 H4]].
  exists a. split; congruence.
Qed.

(** Keys equal to a common key look up alike. *)
Lemma key_eqb_congr k k1 k2 :
  key_eqb k1 k2 = true -> key_eqb k k1 = key_eqb k k2.
Proof.
  intros H. apply eq_true_iff_eq. split; intros Hk.
  - eapply key_eqb_trans; eauto.
  - eapply key_eqb_trans; eauto. rewrite key_eqb_sym. exact H.
Qed.

(** Reading after [d[k'] = v]. *)
Lemma dget_dset k k' v d :
  hashable k' = true ->
  dget k (dset k' v d) = if key_eqb k k' then Some v else dget k d.
Proof.
  intros Hk'. induction d as [|[k0 v0] d IH]; simpl.
  - reflexivity.
  - destruct (key_eqb k' k0) eqn:E; simpl.
    + rewrite <- (key_eqb_congr k _ _ E).
      destruct (key_eqb k k'); reflexivity.
    + destruct (key_eqb k k0) eqn:E0.
      * destruct (key_eqb k k') eqn:E1; [|reflexivity].
        exfalso. rewrite key_eqb_sym in E1.
        rewrite (key_eqb_trans _ _ _ E1 E0) in E. discriminate.
      * exact IH.
Qed.

Lemma dmem_dset k k' v d :
  hashable k' = true ->
  dmem k (dset k' v d) = key_eqb k k' || dmem k d.
Proof.
  intros H. unfold dmem. rewrite dget_dset by exact H.
  destruct (key_eqb k k'); reflexivity.
Qed.

End DictFacts.

(** ** Price data *)

Section Price.
Context {R : Runtime}.
Import Spec.

Lemma price_source_eq data :
  py_or (get_or data "price" (VInt 0)) (VInt 0) = price_source data.
Proof.
  unfold price_source, field_value, py_or, get_or, lit_str.
  destruct (dget _ data) as [v|]; simpl; [destruct (truthy v)|]; reflexivity.
Qed.

Lemma original_source_eq data :
  py_or (py_or (get data "prev_price") (get_or data "price" (VInt 0))) (VInt 0)
  = original_source data.
Proof.
  unfold original_source, price_source, field_value, py_or, get, get_or, lit_str.
  destruct (dget (VStr (u "prev_price")) data) as [v|]; simpl.
  - destruct (truthy v) eqn:E; [rewrite E; reflexivity|].
    destruct (dget _ data) as [w|]; simpl; [destruct (truthy w) eqn:E'|];
      simpl; rewrite ?E'; reflexivity.
  - destruct (dget _ data) as [w|]; simpl; [destruct (truthy w) eqn:E'|];
      simpl; rewrite ?E'; reflexivity.
Qed.

Lemma py_round_finite f : finite f = true -> exists n, py_round f = Ok n.
Proof. destruct f; simpl; intros H; try discriminate; eauto. Qed.


End Price.

(** ** Metadata of a detail record *)

(** [key_eqb] of two literal keys, computed. *)
Ltac eval_keys :=
  repeat match goal with
         | |- context [key_eqb (lit_str ?a) (lit_str ?b)] =>
           let r := eval vm_compute in (key_eqb (lit_str a) (lit_str b)) in
           change (key_eqb (lit_str a) (lit_str b)) with r
         end.

Section Metadata.
Context {R : Runtime}.
Import Spec.

Lemma dget_set_if d k key f md x :
  dget x (set_if d k key f md) =
  if truthy (get d k) && key_eqb x (lit_str key)
  then Some (f (get d k)) else dget x md.
Proof.
  unfold set_if. destruct (truthy (get d k)); simpl; [|reflexivity].
  apply dget_dset. reflexivity.
Qed.

Lemma dget_if_dset (c : bool) k v md x :
  hashable k = true ->
  dget x (if c then dset k v md else md) =
  if c && key_eqb x k then Some v else dget x md.
Proof.
  intros H. destruct c; simpl; [apply dget_dset; exact H | reflexivity].
Qed.

Lemma is_extra_key_false k :
  is_extra_key k = false ->
  key_eqb k (lit_str "Артикул") = false /\
  key_eqb k (lit_str "Код страны") = false /\
  key_eqb k (lit_str "UUID") = false /\
  key_eqb k (lit_str "Общее количество") = false /\
  key_eqb k (lit_str "Подарочная упаковка") = false /\
  key_eqb k (lit_str "Офлайн цена") = false.
Proof.
  unfold is_extra_key, extra_keys. simpl.
  rewrite !orb_false_iff. tauto.
Qed.

(** Reading the metadata after the extras, key by key: the assignments in
    reverse order. *)
Lemma dget_metadata_extras d md x :
  dget x (metadata_extras d md) =
  if truthy (get d "offline_price") && key_eqb x (lit_str "Офлайн цена")
  then Some (to_str (get d "offline_price"))
  else if negb (is_none (get d "gift_package")) &&
          key_eqb x (lit_str "Подарочная упаковка")
  then Some (yes_no (get d "gift_package"))
  else if truthy (get d "quantity_total") &&
          key_eqb x (lit_str "Общее количество")
  then Some (to_str (get d "quantity_total"))
  else if truthy (get d "uuid") && key_eqb x (lit_str "UUID")
  then Some (get d "uuid")
  else if truthy (get d "country_code") && key_eqb x (lit_str "Код страны")
  then Some (get d "country_code")
  else if truthy (get d "country_name") &&
          negb (dmem (lit_str "Страна") md) && key_eqb x (lit_str "Страна")
  then Some (get d "country_name")
  else if truthy (get d "vendor_code") && key_eqb x (lit_str "Артикул")
  then Some (to_str (get d "vendor_code"))
  else dget x md.
Proof.
  unfold metadata_extras.
  rewrite dget_set_if, dget_if_dset by reflexivity.
  rewrite !dget_set_if.
  assert (Hm : dmem (lit_str "Страна")
                 (set_if d "vendor_code" "Артикул" to_str md)
               = dmem (lit_str "Страна") md).
  { unfold dmem. rewrite dget_set_if. eval_keys.
    rewrite andb_false_r. reflexivity. }
  rewrite Hm.
  replace (if truthy (get d "country_name")
           then if negb (dmem (lit_str "Страна") md)
                then dset (lit_str "Страна") (get d "country_name")
                       (set_if d "vendor_code" "Артикул" to_str md)
                else set_if d "vendor_code" "Артикул" to_str md
           else set_if d "vendor_code" "Артикул" to_str md)
    with (if truthy (get d "country_name") && negb (dmem (lit_str "Страна") md)
          then dset (lit_str "Страна") (get d "country_name")
                 (set_if d "vendor_code" "Артикул" to_str md)
          else set_if d "vendor_code" "Артикул" to_str md)
    by (destruct (truthy (get d "country_name")); reflexivity).
  rewrite dget_if_dset by reflexivity.
  rewrite dget_set_if. reflexivity.
Qed.

(** C10 (amended). The scalar extras are stored by plain assignment: each
    one that is present ends up under its key, whatever a characteristic
    block stored there; every other key keeps the value the blocks gave
    it, and the country name fills ["Страна"] only when no block set it. *)
Theorem metadata_extras_assign (d md : dict) :
  (forall k v, In (k, v) (stored_extras d) ->
     dget k (metadata_extras d md) = Some v) /\
  (forall k, is_extra_key k = false ->
     dget k (metadata_extras d md) =
     if key_eqb k (lit_str "Страна") && truthy (get d "country_name") &&
        negb (dmem (lit_str "Страна") md)
     then Some (get d "country_name") else dget k md).
Proof.
  split.
  - intros k v Hin. rewrite dget_metadata_extras.
    unfold stored_extras in Hin.
    repeat (apply in_app_or in Hin; destruct Hin as [Hin|Hin]);
      repeat match type of Hin with
             | In _ (if ?c then _ else _) => destruct c eqn:?; simpl in Hin
             | _ \/ _ => destruct Hin as [Hin|Hin]
             | False => destruct Hin
             | (_, _) = (_, _) => injection Hin as <- <-
             end;
      eval_keys; rewrite ?andb_false_r, ?andb_true_r;
      repeat match goal with
             | H : ?c = true |- context [?c] => rewrite H
             end;
      reflexivity.
  - intros k Hk. apply is_extra_key_false in Hk.
    destruct Hk as (H1 & H2 & H3 & H4 & H5 & H6).
    rewrite dget_metadata_extras, H1, H2, H3, H4, H5, H6.
    rewrite !andb_false_r.
    destruct (key_eqb k (lit_str "Страна")),
      (truthy (get d "country_name")), (dmem (lit_str "Страна") md);
      reflexivity.
Qed.

End Metadata.

(** On a record with a block titled ["UUID"], the blocks store the block's
    value under ["UUID"] and the identifier of the record then replaces
    it. *)
Lemma extras_overwrite_block_key :
  exists md,
    metadata_before_extras (R := Demo.runtime) Demo.titled_uuid_record = Ok md /\
    dget (lit_str "UUID") md = Some (lit_str "from-block") /\
    detail_metadata (R := Demo.runtime) Demo.titled_uuid_record
    = Ok (metadata_extras (R := Demo.runtime) Demo.titled_uuid_record md) /\
    dget (lit_str "UUID")
      (metadata_extras (R := Demo.runtime) Demo.titled_uuid_record md)
    = Some (lit_str "u-1") /\
    lit_str "u-1" <> lit_str "from-block".
Proof.
  eexists. split; [vm_compute; reflexivity|].
  split; [vm_compute; reflexivity|].
  split; [vm_compute; reflexivity|].
  split; [vm_compute; reflexivity|].
  vm_compute. discriminate.
Qed.

Lemma metadata_extras_assign_witness :
  dget (lit_str "UUID")
    (metadata_extras (R := Demo.runtime) Demo.titled_uuid_record []) =
  Some (lit_str "u-1") /\
  dget (lit_str "Страна")
    (metadata_extras (R := Demo.runtime) Demo.titled_uuid_record []) = None.
Proof.
  destruct (metadata_extras_assign (R := Demo.runtime)
              Demo.titled_uuid_record []) as [H1 H2].
  split.
  - apply H1. vm_compute. left. reflexivity.
  - rewrite H2; vm_compute; reflexivity.
Defined.

(** ** Retries *)

Section Retry.
Context {R : Runtime}.
Variable cfg : config.

Lemma retry_exhausted r n :
  retry_count (req_meta r) = Some n -> 3 <= n -> retry r = done.
Proof.
  intros Hn Hle. unfold retry. rewrite Hn. simpl.
  destruct (Z.ltb_spec n 3); [lia | reflexivity].
Qed.

(** C3. A request whose retry counter has reached 3 is not resubmitted
    when it fails again: [parse_product_list] on a 403 or 429 logs its
    warning and yields nothing, [handle_error] (HTTP error or transport
    failure) logs and yields nothing, and [process_exception] returns no
    request once its own counter stands at 3; none of them raises. *)
Theorem no_fourth_retry (r : request) (n : Z) :
  3 <= n ->
  (retry_count (req_meta r) = Some n ->
   (forall clock resp s,
      resp_request resp = r -> status resp = 403 \/ status resp = 429 ->
      parse_product_list cfg clock resp s =
      {| events := [Log WARNING]; final := s; raised := None |}) /\
   (forall f s,
      failure_request f = r ->
      handle_error f s =
      {| events := [Log ERROR]; final := s; raised := None |})) /\
  (proxy_retry_times (req_meta r) = Some n ->
   forall ps, snd (Proxy.process_exception ps r) = None).
Proof.
  intros Hle. split; [intros Hn; split|].
  - intros clock resp s Hr Hst. unfold parse_product_list.
    assert (H200 : (status resp =? 200) = false)
      by (apply Z.eqb_neq; lia).
    assert (Hre : (status resp =? 403) || (status resp =? 429) = true)
      by (destruct Hst as [-> | ->]; reflexivity).
    rewrite H200, Hre, Hr. simpl negb. cbv iota.
    rewrite (retry_exhausted r n Hn Hle). reflexivity.
  - intros f s Hr. unfold handle_error. rewrite Hr.
    rewrite (retry_exhausted r n Hn Hle).
    destruct (failure_response f) as [resp|]; [|reflexivity].
    destruct ((status resp =? 403) || (status resp =? 429) ||
              (status resp =? 503)); reflexivity.
  - intros Hn ps. unfold Proxy.process_exception.
    destruct (proxy (req_meta r)); [|reflexivity].
    rewrite Hn. simpl.
    destruct (Z.ltb_spec (n + 1) 3); [lia | reflexivity].
Qed.

End Retry.

(** ** City resolution *)

Section Cities.
Context {R : Runtime}.
Variable cfg : config.

(** C5 (the errback of the city request).  A transport failure of a
    city-list request reaches [handle_error], which logs it and yields
    nothing: the city identifier is left as it was and no category request
    is made. *)
Theorem city_transport_failure_stops (cu : str) (pg : value) (s : state) :
  handle_error
    {| failure_request := city_request cfg cu pg; failure_response := None |} s
  = {| events := [Log ERROR]; final := s; raised := None |}.
Proof. reflexivity. Qed.

(** Starting the categories only logs and yields requests. *)
Lemma for_each_quiet {A} (l : list A) (body : A -> gen) :
  (forall x s, final (body x s) = s /\ raised (body x s) = None) ->
  forall s, final (for_each l body s) = s /\ raised (for_each l body s) = None.
Proof.
  intros Hb. induction l as [|x l IH]; intros s; simpl; [split; reflexivity|].
  unfold andthen. destruct (Hb x s) as [Hf Hr]. rewrite Hr. simpl.
  rewrite Hf. apply IH.
Qed.

Lemma andthen_quiet (g1 g2 : gen) s :
  final (g1 s) = s /\ raised (g1 s) = None ->
  final (g2 s) = s /\ raised (g2 s) = None ->
  final ((g1 >>> g2) s) = s /\ raised ((g1 >>> g2) s) = None.
Proof.
  intros [F1 R1] [F2 R2]. unfold andthen. rewrite R1. simpl. rewrite F1.
  split; assumption.
Qed.

Lemma load_categories_log_quiet s :
  final (_load_categories_log cfg s) = s /\
  raised (_load_categories_log cfg s) = None.
Proof.
  unfold _load_categories_log.
  destruct (categories_txt cfg) as [lines| |];
    [destruct (List.filter _ _)| |]; split; reflexivity.
Qed.

Lemma start_category_parsing_quiet s :
  final (start_category_parsing cfg s) = s /\
  raised (start_category_parsing cfg s) = None.
Proof.
  unfold start_category_parsing.
  apply andthen_quiet; [apply load_categories_log_quiet|].
  apply andthen_quiet; [split; reflexivity|].
  apply for_each_quiet. intros x t.
  destruct (_extract_category_slug x) as [[|c slug]|]; split; reflexivity.
Qed.

(** The sibling paths: a page that arrives with a bad status, an unreadable
    body or a failure flag falls back to the initial identifier and starts
    the categories. *)
Lemma city_parse_failure_falls_back (resp : response) (s : state) :
  Spec.bad_response resp ->
  parse_cities cfg resp s = city_fallback cfg s /\
  city_uuid (final (city_fallback cfg s)) = initial_city_uuid cfg /\
  raised (city_fallback cfg s) = None.
Proof.
  intros Hf. split; [|split].
  - unfold parse_cities.
    destruct (Z.eqb_spec (status resp) 200) as [E|E]; simpl negb; cbv iota;
      [|reflexivity].
    destruct Hf as [Hf | [Hf | (d & Hd & Hs)]]; [contradiction | |].
    + rewrite Hf. reflexivity.
    + rewrite Hd. simpl. rewrite Hs. reflexivity.
  - unfold city_fallback, andthen. cbn -[start_category_parsing].
    match goal with
    | |- context [start_category_parsing cfg ?t] =>
      destruct (start_category_parsing_quiet t) as [Hq Hr]
    end.
    rewrite Hq. reflexivity.
  - unfold city_fallback, andthen. cbn -[start_category_parsing].
    match goal with
    | |- context [start_category_parsing cfg ?t] =>
      destruct (start_category_parsing_quiet t) as [Hq Hr]
    end.
    exact Hr.
Qed.

End Cities.

(** ** Detail mode and its fallback *)

(** Destructs the [let*] steps of a hypothesis that says a computation
    succeeded. *)
Ltac bind_inv H :=
  repeat match type of H with
         | bind ?r _ = Ok _ =>
           let E := fresh "E" in
           destruct r eqn:E; cbn [bind] in H; [|discriminate H]
         | (if ?c then _ else _) = Ok _ =>
           let E := fresh "E" in destruct c eqn:E
         end.

Section Fallback.
Context {R : Runtime}.
Import Spec.

Lemma parsed_list_item_truthy now v i :
  _parse_product_from_list now v = Ok (Some i) -> truthy (VDict i) = true.
Proof.
  unfold _parse_product_from_list. intros H.
  destruct (negb (truthy v)); [discriminate|].
  bind_inv H. injection H as <-. reflexivity.
Qed.

(** The guard [if list_data] changes nothing: a falsy record yields no
    item either way. *)
Lemma fallback_is_list_only now v : fallback_to_list now v = list_only now v.
Proof.
  unfold fallback_to_list, list_only, _parse_product_from_list.
  destruct (truthy v); reflexivity.
Qed.


End Fallback.



Lemma no_fourth_retry_witness :
    handle_error
      {| failure_request := Demo.detail_req (Some 3);
         failure_response := None |} initial_state
    = {| events := [Log ERROR]; final := initial_state; raised := None |} /\
    snd (Proxy.process_exception
           (Proxy.init (R := Demo.runtime) (u "rotating") [] [] None
              [u "10.0.0.1:8080"])
           (Demo.detail_req (Some 3))) = None /\
    parse_product_list (R := Demo.runtime) Demo.cfg (fun _ => 0)
      {| status := 403; text := [];
         resp_request := Demo.detail_req (Some 3) |} initial_state
    = {| events := [Log WARNING]; final := initial_state; raised := None |}.
Proof.
  destruct (no_fourth_retry (R := Demo.runtime) Demo.cfg
              (Demo.detail_req (Some 3)) 3) as [H1 H2]; [lia|].
  destruct H1 as [Hl He]; [reflexivity|].
  split; [apply He; reflexivity|].
  split; [apply H2; reflexivity|].
  apply Hl; [reflexivity | left; reflexivity].
Defined.



(** ** Proxy rotation *)

Section Rotation.
Context {R : Runtime}.
Import Proxy.

(** The pick only moves the index. *)
Lemma next_proxy_loop_frame n s :
  let s' := snd (next_proxy_loop n s) in
  enabled s' = enabled s /\ mode s' = mode s /\ proxies s' = proxies s /\
  proxy_failures s' = proxy_failures s /\ proxy_endpoint s' = proxy_endpoint s.
Proof.
  revert s. induction n as [|n IH]; intros s; simpl; [tauto|].
  destruct (proxies s) as [|p0 l] eqn:E; simpl; [tauto|].
  match goal with
  | |- context [if ?c then _ else _] => destruct c
  end; simpl; [rewrite E; tauto|].
  specialize (IH (set_index (S (current_proxy_index s)) s)).
  simpl in IH. rewrite E in IH. exact IH.
Qed.

(** A pick never returns a proxy that has failed [max_failures] times. *)
Lemma next_proxy_loop_active n s p :
  fst (next_proxy_loop n s) = Some p -> (failures s p < max_failures)%nat.
Proof.
  revert s. induction n as [|n IH]; intros s; simpl; [discriminate|].
  destruct (proxies s) as [|p0 l] eqn:E; simpl; [discriminate|].
  match goal with
  | |- context [if ?c then _ else _] => destruct c eqn:Ec
  end; simpl.
  - intros [= <-]. apply Nat.ltb_lt in Ec. exact Ec.
  - intros H. apply IH in H. exact H.
Qed.

Lemma pick_active s p : pick s = Some p -> (failures s p < max_failures)%nat.
Proof. apply next_proxy_loop_active. Qed.

Lemma process_request_frame s r s' r' :
  process_request s r = Ok (s', r') ->
  proxies s' = proxies s /\ proxy_failures s' = proxy_failures s /\
  mode s' = mode s /\ (enabled s = false -> enabled s' = false).
Proof.
  unfold process_request.
  destruct (enabled s) eqn:En; simpl;
    [|intros [= <- <-]; repeat split; auto].
  destruct (proxy (req_meta r));
    [intros [= <- <-]; repeat split; auto; discriminate|].
  destruct (rotating s && _).
  - unfold _get_next_proxy.
    pose proof (next_proxy_loop_frame (length (proxies s) * 2) s) as F.
    destruct (next_proxy_loop (length (proxies s) * 2) s) as [[[|c p]|] t];
      simpl in F; destruct F as (F1 & F2 & F3 & F4 & F5);
      intros [= <- <-]; simpl; repeat split; auto; discriminate.
  - destruct (proxy_endpoint s) as [[|c e]|]; [| |discriminate];
      intros [= <- <-]; repeat split; auto; discriminate.
Qed.

Lemma failures_record_failure p q s :
  failures (record_failure p s) q =
  if bool_decide (p = q) then S (failures s q) else failures s q.
Proof.
  unfold record_failure.
  assert (H : forall t, proxy_failures t = <[p := S (failures s p)]> (proxy_failures s) ->
              failures t q = if bool_decide (p = q) then S (failures s q) else failures s q).
  { intros t Ht. unfold failures at 1. rewrite Ht.
    case_bool_decide as E.
    - subst. rewrite lookup_insert_eq. reflexivity.
    - rewrite lookup_insert_ne by exact E. reflexivity. }
  repeat match goal with
         | |- context [if ?c then _ else _] => destruct c
         | |- context [match ?l with [] => _ | _ => _ end] => destruct l eqn:?
         end; apply H; reflexivity.
Qed.

Lemma proxies_record_failure p s :
  proxies (record_failure p s) =
  if (max_failures <=? S (failures s p))%nat
  then remove_first p (proxies s) else proxies s.
Proof.
  unfold record_failure. cbv zeta.
  destruct (max_failures <=? S (failures s p))%nat; [|reflexivity].
  cbn [proxies set_failures set_proxies].
  unfold mem. case_bool_decide as E.
  - destruct (remove_first p (proxies s)); reflexivity.
  - cbn [proxies set_failures]. clear -E.
    induction (proxies s) as [|y l IH]; simpl; [reflexivity|].
    case_bool_decide as E'; [subst; exfalso; apply E; left|].
    rewrite <- IH; [reflexivity|]. intros H. apply E. right. exact H.
Qed.

Lemma enabled_record_failure p s :
  enabled (record_failure p s) =
  if (max_failures <=? S (failures s p))%nat && mem p (proxies s) &&
     bool_decide (remove_first p (proxies s) = [])
  then false else enabled s.
Proof.
  unfold record_failure. cbv zeta.
  destruct (max_failures <=? S (failures s p))%nat; [|reflexivity].
  cbn [proxies set_failures set_proxies andb].
  destruct (mem p (proxies s)); [|reflexivity]. cbn [andb].
  destruct (remove_first p (proxies s)); reflexivity.
Qed.

Lemma mode_record_failure p s : mode (record_failure p s) = mode s.
Proof.
  unfold record_failure.
  repeat match goal with
         | |- context [if ?c then _ else _] => destruct c
         | |- context [match ?l with [] => _ | _ => _ end] => destruct l eqn:?
         end; reflexivity.
Qed.

Lemma remove_first_subset x y l : x ∈ remove_first y l -> x ∈ l.
Proof.
  induction l as [|z l IH]; simpl; [tauto|].
  case_bool_decide as E.
  - intros H. right. exact H.
  - intros H. apply elem_of_cons in H as [->|H]; [left | right; auto].
Qed.

Lemma remove_first_NoDup y l : NoDup l -> NoDup (remove_first y l) /\ y ∉ remove_first y l.
Proof.
  induction 1 as [|z l Hz Hl IH]; simpl.
  - split; [constructor | apply not_elem_of_nil].
  - case_bool_decide as E.
    + subst. split; assumption.
    + destruct IH as [IH1 IH2]. split.
      * constructor; [|exact IH1]. intros H. apply Hz.
        eapply remove_first_subset. exact H.
      * intros H. apply elem_of_cons in H as [->|H]; [congruence | auto].
Qed.

(** One call of the engine. *)
Lemma step_failures s o p : (failures s p <= failures (step s o) p)%nat.
Proof.
  destruct o as [r|r]; simpl.
  - destruct (process_request s r) as [[s' r']|] eqn:E; [|lia].
    apply process_request_frame in E as (_ & E & _).
    unfold failures. rewrite E. lia.
  - unfold process_exception. destruct (proxy (req_meta r)); simpl; [|lia].
    destruct (rotating s); [|lia].
    rewrite failures_record_failure. case_bool_decide; lia.
Qed.

Lemma step_proxies s o x : x ∈ proxies (step s o) -> x ∈ proxies s.
Proof.
  destruct o as [r|r]; simpl.
  - destruct (process_request s r) as [[s' r']|] eqn:E; [|tauto].
    apply process_request_frame in E as (E & _). rewrite E. tauto.
  - unfold process_exception. destruct (proxy (req_meta r)); simpl; [|tauto].
    destruct (rotating s); [|tauto].
    rewrite proxies_record_failure.
    destruct (max_failures <=? _)%nat; [apply remove_first_subset | tauto].
Qed.

Lemma step_disabled s o : enabled s = false -> enabled (step s o) = false.
Proof.
  intros H. destruct o as [r|r]; simpl.
  - destruct (process_request s r) as [[s' r']|] eqn:E; [|exact H].
    apply process_request_frame in E as (_ & _ & _ & E). auto.
  - unfold process_exception. destruct (proxy (req_meta r)); simpl; [|exact H].
    destruct (rotating s); [|exact H].
    rewrite enabled_record_failure, H.
    match goal with |- (if ?c then _ else _) = _ => destruct c end; reflexivity.
Qed.

Lemma run_failures ops s p : (failures s p <= failures (run s ops) p)%nat.
Proof.
  revert s. induction ops as [|o ops IH]; intros s; simpl; [lia|].
  etransitivity; [apply (step_failures s o p) | apply IH].
Qed.

Lemma run_proxies ops s x : x ∈ proxies (run s ops) -> x ∈ proxies s.
Proof.
  revert s. induction ops as [|o ops IH]; intros s; simpl; [tauto|].
  intros H. apply IH in H. eapply step_proxies. exact H.
Qed.

Lemma run_disabled ops s : enabled s = false -> enabled (run s ops) = false.
Proof.
  revert s. induction ops as [|o ops IH]; intros s; simpl; [tauto|].
  intros H. apply IH. apply step_disabled. exact H.
Qed.

Lemma remove_first_absent x l : x ∉ l -> remove_first x l = l.
Proof.
  induction l as [|y l IH]; simpl; [reflexivity|]. intros H.
  case_bool_decide as E; [subst; exfalso; apply H; left|].
  rewrite IH; [reflexivity|]. intros Hin. apply H. right. exact Hin.
Qed.

(** C2 (amended). In rotating mode a recorded failure of a proxy adds one
    to its count.  Once the count has reached [max_failures], the first
    occurrence of the proxy is removed from the pool, so a pool of distinct
    addresses never contains it again, and whatever the pool holds the
    proxy is never again returned by a rotation pick.  When the removal
    empties the pool the middleware disables itself, and nothing enables a
    disabled middleware again. *)
Theorem proxy_eviction (s : pstate) (r : request) (p : str) :
  rotating s = true ->
  proxy (req_meta r) = Some p ->
  let s' := step s (Exception r) in
  failures s' p = S (failures s p) /\
  ((max_failures <= failures s' p)%nat ->
   proxies s' = remove_first p (proxies s) /\
   (NoDup (proxies s) -> forall ops, p ∉ proxies (run s' ops)) /\
   (forall ops, pick (run s' ops) <> Some p)) /\
  (proxies s <> [] -> proxies s' = [] -> enabled s' = false) /\
  (forall t ops, enabled t = false -> enabled (run t ops) = false).
Proof.
  intros Hrot Hp. simpl. unfold process_exception. rewrite Hp, Hrot.
  cbn [fst].
  assert (Hf : failures (record_failure p s) p = S (failures s p)).
  { rewrite failures_record_failure. case_bool_decide; congruence. }
  split; [exact Hf|]. split; [|split].
  - rewrite Hf. intros Hmax.
    assert (Hpr : proxies (record_failure p s) = remove_first p (proxies s)).
    { rewrite proxies_record_failure.
      destruct (Nat.leb_spec max_failures (S (failures s p)));
        [reflexivity|lia]. }
    split; [exact Hpr|]. split.
    + intros Hnd ops Hin. apply run_proxies in Hin. rewrite Hpr in Hin.
      apply (remove_first_NoDup p) in Hnd as [_ Hnd]. auto.
    + intros ops Hpick. apply pick_active in Hpick.
      pose proof (run_failures ops (record_failure p s) p). lia.
  - intros Hne Hnil. rewrite enabled_record_failure.
    rewrite proxies_record_failure in Hnil.
    destruct (max_failures <=? S (failures s p))%nat; [|congruence].
    destruct (decide (p ∈ proxies s)) as [Hin|Hout].
    + unfold mem. rewrite bool_decide_eq_true_2 by exact Hin.
      rewrite Hnil. reflexivity.
    + rewrite remove_first_absent in Hnil by exact Hout. congruence.
  - intros t ops. apply run_disabled.
Qed.

(** From [__init__] on, an empty pool in rotating mode means a disabled
    middleware. *)
Lemma empty_pool_disabled proxy_mode auth endpoint file proxy_list ops :
  let s := run (init proxy_mode auth endpoint file proxy_list) ops in
  rotating s = true -> proxies s = [] -> enabled s = false.
Proof.
  set (inv := fun s => rotating s = true -> proxies s = [] -> enabled s = false).
  assert (Hstep : forall s o, inv s -> inv (step s o)).
  { intros s o Hs Hrot Hnil.
    destruct (enabled s) eqn:En; [|apply step_disabled; exact En].
    destruct o as [q|q]; simpl in *.
    - destruct (process_request s q) as [[s' q']|] eqn:E.
      + apply process_request_frame in E as (E1 & _ & E3 & _).
        unfold rotating in *. rewrite E1 in Hnil. rewrite E3 in Hrot.
        rewrite Hs in En; [discriminate | exact Hrot | exact Hnil].
      + rewrite Hs in En; [discriminate | exact Hrot | exact Hnil].
    - unfold process_exception in *.
      destruct (proxy (req_meta q)) as [p|]; cbn [fst] in *;
        [|rewrite Hs in En; [discriminate | exact Hrot | exact Hnil]].
      destruct (rotating s) eqn:Er; [|congruence].
      rewrite enabled_record_failure. rewrite proxies_record_failure in Hnil.
      destruct (max_failures <=? S (failures s p))%nat;
        [|rewrite Hs in En; [discriminate | exact Er | exact Hnil]].
      destruct (decide (p ∈ proxies s)) as [Hin|Hout].
      + unfold mem. rewrite bool_decide_eq_true_2 by exact Hin.
        rewrite Hnil. reflexivity.
      + rewrite remove_first_absent in Hnil by exact Hout.
        rewrite Hs in En; [discriminate | exact Er | exact Hnil]. }
  assert (Hrun : forall l s, inv s -> inv (run s l)).
  { induction l as [|o l IH]; intros s Hs; simpl; [exact Hs|].
    apply IH, Hstep, Hs. }
  apply Hrun. intros Hrot Hnil. unfold init in *.
  unfold rotating in Hrot.
  destruct (bool_decide (proxy_mode = u "rotating")) eqn:Em; simpl in *.
  - rewrite Hnil. reflexivity.
  - rewrite Em in Hrot. discriminate.
Qed.

End Rotation.

(** A pool that lists one address twice: after three recorded failures the
    address has reached [max_failures] and is still in the pool. *)
Lemma evicted_duplicate_stays_in_pool :
  let s := Proxy.run (R := Demo.runtime) Demo.duplicate_pool
             [Proxy.Exception Demo.failing; Proxy.Exception Demo.failing;
              Proxy.Exception Demo.failing] in
  Proxy.rotating Demo.duplicate_pool = true /\
  Proxy.failures s Demo.proxy_a = Proxy.max_failures /\
  Proxy.proxies s = [Demo.proxy_a] /\
  Demo.proxy_a ∈ Proxy.proxies s.
Proof.
  vm_compute. repeat split. left.
Qed.

Lemma proxy_eviction_witness :
  Proxy.failures
    (Proxy.step (R := Demo.runtime) Demo.pool (Proxy.Exception Demo.failing))
    Demo.proxy_a = 1%nat.
Proof.
  destruct (proxy_eviction (R := Demo.runtime) Demo.pool Demo.failing
              Demo.proxy_a) as [H _];
    [reflexivity | reflexivity |].
  rewrite H. reflexivity.
Defined.

(** ** Validation *)

(** Literal keys back in the form the lemmas use. *)
Ltac fold_lit :=
  repeat match goal with
         | |- context [VStr (u ?k)] => change (VStr (u k)) with (lit_str k)
         end.

Import Pipelines Spec.

Lemma dget_key_congr x k d : key_eqb x k = true -> dget x d = dget k d.
Proof.
  intros H. induction d as [|[k0 v0] d IH]; simpl; [reflexivity|].
  rewrite (key_eqb_sym x k0), (key_eqb_sym k k0).
  rewrite (key_eqb_congr k0 x k H), IH. reflexivity.
Qed.

Lemma dget_force_list k x item :
  dget x (force_list k item) =
  if key_eqb x (lit_str k) && negb (is_list (get item k))
  then Some (VList []) else dget x item.
Proof.
  unfold force_list. destruct (is_list (get item k)); simpl.
  - rewrite andb_false_r. reflexivity.
  - rewrite andb_true_r. apply dget_dset. reflexivity.
Qed.

Lemma dget_force_dict k x item :
  dget x (force_dict k item) =
  if key_eqb x (lit_str k) && negb (is_dict (get item k))
  then Some (VDict []) else dget x item.
Proof.
  unfold force_dict. destruct (is_dict (get item k)); simpl.
  - rewrite andb_false_r. reflexivity.
  - rewrite andb_true_r. apply dget_dset. reflexivity.
Qed.

Lemma dget_within k f x item :
  dget x (within k f item) =
  if key_eqb x (lit_str k) then
    match dget (lit_str k) item with
    | Some (VDict d) => Some (VDict (f d))
    | o => o
    end
  else dget x item.
Proof.
  unfold within, has, dmem, get, Pipelines.set.
  change (VStr (u k)) with (lit_str k).
  destruct (dget (lit_str k) item) as [v|] eqn:Ev.
  - destruct (key_eqb x (lit_str k)) eqn:E.
    + destruct v; rewrite ?dget_dset, ?E by reflexivity;
        rewrite ?(dget_key_congr _ _ item E); auto.
    + destruct v; rewrite ?dget_dset, ?E by reflexivity; reflexivity.
  - destruct (key_eqb x (lit_str k)) eqn:E; [|reflexivity].
    rewrite (dget_key_congr _ _ item E). exact Ev.
Qed.

Lemma dget_fill_missing fields errors item x :
  dget x (snd (fill_missing fields errors item)) =
  match dget x item with
  | Some v => Some v
  | None => default_of x fields
  end.
Proof.
  revert errors item. induction fields as [|[k v] rest IH]; intros; simpl.
  - destruct (dget x item); reflexivity.
  - unfold has, dmem, Pipelines.set.
    destruct (dget (lit_str k) item) as [w|] eqn:Ek.
    + rewrite IH. destruct (dget x item) eqn:Ex; [reflexivity|].
      destruct (key_eqb x (lit_str k)) eqn:E; [|reflexivity].
      rewrite (dget_key_congr _ _ item E) in Ex. congruence.
    + rewrite IH, dget_dset by reflexivity.
      destruct (key_eqb x (lit_str k)) eqn:E.
      * rewrite (dget_key_congr _ _ item E), Ek. reflexivity.
      * reflexivity.
Qed.

Lemma dget_set_default k v d x :
  dget x (set_default k v d) =
  match dget x d with
  | Some w => Some w
  | None => if key_eqb x (lit_str k) then Some v else None
  end.
Proof.
  unfold set_default, has, dmem, Pipelines.set.
  destruct (dget (lit_str k) d) as [w|] eqn:Ek.
  - destruct (dget x d) eqn:Ex; [reflexivity|].
    destruct (key_eqb x (lit_str k)) eqn:E; [|reflexivity].
    rewrite (dget_key_congr _ _ d E) in Ex. congruence.
  - rewrite dget_dset by reflexivity.
    destruct (key_eqb x (lit_str k)) eqn:E.
    + rewrite (dget_key_congr _ _ d E), Ek. reflexivity.
    + destruct (dget x d); reflexivity.
Qed.

Lemma validate_item_eq item :
  validate_item item = _validate_types (snd (fill_missing required_fields 0 item)).
Proof.
  unfold validate_item, validate. cbn [error_count].
  destruct (fill_missing required_fields 0 item). reflexivity.
Qed.

(** The value of a field when the type checks start. *)
Lemma dget_filled item x :
  dget x (snd (fill_missing required_fields 0 item)) =
  match dget x item with
  | Some v => Some v
  | None => default_of x required_fields
  end.
Proof. apply dget_fill_missing. Qed.

Ltac dget_steps :=
  repeat first
    [ rewrite dget_within | rewrite dget_force_dict | rewrite dget_force_list
    | rewrite dget_filled
    | progress eval_keys | progress cbn [andb negb]
    | progress (unfold get; fold_lit) ].

Lemma get_validate_list_field item (k : string) :
  k = "marketing_tags"%string \/ k = "section"%string ->
  has item k = true -> is_list (get item k) = false ->
  get (validate_item item) k = VList [].
Proof.
  intros Hk Hhas Hnl. rewrite validate_item_eq.
  unfold _validate_types. cbv zeta.
  unfold has, dmem in Hhas. unfold get in Hnl.
  change (VStr (u k)) with (lit_str k) in *.
  destruct (dget (lit_str k) item) as [v|] eqn:Ev; [|discriminate].
  destruct Hk as [-> | ->]; dget_steps; rewrite Ev, Hnl; reflexivity.
Qed.

Lemma get_validate_map_field item (k : string) :
  k = "price_data"%string \/ k = "stock"%string \/ k = "assets"%string \/
  k = "metadata"%string ->
  has item k = true -> is_dict (get item k) = false ->
  get (validate_item item) k = VDict (completed k).
Proof.
  intros Hk Hhas Hnl. rewrite validate_item_eq.
  unfold _validate_types. cbv zeta.
  unfold has, dmem in Hhas. unfold get in Hnl.
  change (VStr (u k)) with (lit_str k) in *.
  destruct (dget (lit_str k) item) as [v|] eqn:Ev; [|discriminate].
  destruct Hk as [-> | [-> | [-> | ->]]]; dget_steps; rewrite Ev, Hnl;
    reflexivity.
Qed.

Lemma dget_force_sublist k x a :
  dget x (force_sublist k a) =
  if key_eqb x (lit_str k) && negb (has a k && is_list (get a k))
  then Some (VList []) else dget x a.
Proof.
  unfold force_sublist, Pipelines.set.
  destruct (has a k); cbn [andb negb].
  - destruct (is_list (get a k)); cbn [negb].
    + rewrite andb_false_r. reflexivity.
    + rewrite andb_true_r. apply dget_dset. reflexivity.
  - rewrite andb_true_r. apply dget_dset. reflexivity.
Qed.

Lemma get_validate_asset_list item a (k : string) :
  k = "set_images"%string \/ k = "view360"%string \/ k = "video"%string ->
  dget (lit_str "assets") item = Some (VDict a) ->
  is_list (get a k) = false ->
  exists a', get (validate_item item) "assets" = VDict a' /\
             get a' k = VList [].
Proof.
  intros Hk Ha Hnl. rewrite validate_item_eq.
  unfold _validate_types. cbv zeta.
  eexists. split.
  - dget_steps. rewrite Ha. cbn. reflexivity.
  - unfold get in Hnl. change (VStr (u k)) with (lit_str k) in *.
    unfold get. fold_lit.
    destruct Hk as [-> | [-> | ->]];
      repeat first [ rewrite dget_force_sublist | progress eval_keys
                   | progress cbn [andb negb]
                   | progress (unfold get, has, dmem; fold_lit) ];
      rewrite Hnl, andb_false_r; reflexivity.
Qed.

(** The type checks never remove a field. *)
Lemma dmem_within k f x item : dmem x (within k f item) = dmem x item.
Proof.
  unfold dmem. rewrite dget_within.
  destruct (key_eqb x (lit_str k)) eqn:E; [|reflexivity].
  rewrite (dget_key_congr _ _ item E).
  destruct (dget (lit_str k) item) as [[]|]; reflexivity.
Qed.

Lemma dmem_force_list k x item :
  dmem x item = true -> dmem x (force_list k item) = true.
Proof.
  unfold dmem. rewrite dget_force_list.
  destruct (key_eqb x (lit_str k) && _); [reflexivity | tauto].
Qed.

Lemma dmem_force_dict k x item :
  dmem x item = true -> dmem x (force_dict k item) = true.
Proof.
  unfold dmem. rewrite dget_force_dict.
  destruct (key_eqb x (lit_str k) && _); [reflexivity | tauto].
Qed.

Lemma has_validate_required item (k : string) :
  In k (map fst required_fields) -> has (validate_item item) k = true.
Proof.
  intros Hk. rewrite validate_item_eq. unfold _validate_types. cbv zeta.
  unfold has. rewrite !dmem_within.
  do 4 apply dmem_force_dict. do 2 apply dmem_force_list.
  unfold dmem. rewrite dget_filled.
  destruct (dget (lit_str k) item); [reflexivity|].
  simpl in Hk.
  repeat (destruct Hk as [<- | Hk]; [reflexivity|]).
  destruct Hk.
Qed.

(** C6. Validation of the empty item gives the item of all defaults, and
    validation never rejects: it is a total function whose result holds
    every required field.  For every item, a value that is not a list where
    a list is expected becomes the empty list, and a value that is not a
    map where a map is expected becomes the empty map, which the same pass
    then completes with the defaults of its nested fields. *)
Theorem validation_defaults_and_coercion :
  validate_item [] = all_defaults /\
  forall item : dict,
    (forall k, In k (map fst required_fields) ->
       has (validate_item item) k = true) /\
    (forall k, In k ["marketing_tags"; "section"]%string ->
       has item k = true -> is_list (get item k) = false ->
       get (validate_item item) k = VList []) /\
    (forall k, In k ["price_data"; "stock"; "assets"; "metadata"]%string ->
       has item k = true -> is_dict (get item k) = false ->
       get (validate_item item) k = VDict (completed k)) /\
    (forall k a, In k ["set_images"; "view360"; "video"]%string ->
       dget (lit_str "assets") item = Some (VDict a) ->
       is_list (get a k) = false ->
       exists a', get (validate_item item) "assets" = VDict a' /\
                  get a' k = VList []).
Proof.
  split; [vm_compute; reflexivity|].
  intros item. split; [|split; [|split]].
  - intros k. apply has_validate_required.
  - intros k Hk. apply get_validate_list_field. simpl in Hk.
    intuition (subst; auto).
  - intros k Hk. apply get_validate_map_field. simpl in Hk.
    intuition (subst; auto).
  - intros k a Hk. apply get_validate_asset_list. simpl in Hk.
    intuition (subst; auto).
Qed.

Lemma validation_defaults_and_coercion_witness :
  get (Pipelines.validate_item Demo.untyped_item) "marketing_tags" = VList [] /\
  get (Pipelines.validate_item Demo.untyped_item) "price_data"
  = VDict (Spec.completed "price_data").
Proof.
  destruct validation_defaults_and_coercion as [_ H].
  destruct (H Demo.untyped_item) as (_ & H1 & H2 & _).
  split.
  - apply H1; [left; reflexivity | reflexivity | reflexivity].
  - apply H2; [left; reflexivity | reflexivity | reflexivity].
Defined.

(** ** Cleaning: duplicates *)

Section Dedup.
Import Pipelines Spec.

Lemma py_same_key_eqb a b :
  hashable a = true -> hashable b = true -> py_same a b = key_eqb a b.
Proof.
  unfold hashable, key_eqb.
  destruct a, b; simpl; try discriminate; intros _ _;
    try reflexivity;
    repeat match goal with
    | |- bool_decide (Some ?x = Some ?y) = bool_decide (?x = ?y) =>
      apply bool_decide_ext; split; [intros [= ->]; reflexivity | intros ->; reflexivity]
    end.
Qed.

Lemma py_in_key_eqb x seen :
  hashable x = true -> forallb hashable seen = true ->
  py_in x seen = existsb (key_eqb x) seen.
Proof.
  intros Hx. induction seen as [|y seen IH]; simpl; [reflexivity|].
  intros H. apply andb_true_iff in H as [Hy Hs].
  rewrite py_same_key_eqb, key_eqb_sym, IH by assumption. reflexivity.
Qed.

Lemma forallb_app_hashable l x :
  forallb hashable l = true -> hashable x = true ->
  forallb hashable (l ++ [x]) = true.
Proof.
  intros Hl Hx. rewrite forallb_app, Hl. simpl. rewrite Hx. reflexivity.
Qed.

(** [dict.fromkeys] keeps the first occurrences. *)
Lemma fromkeys_first_occurrences xs keys out :
  forallb hashable keys = true ->
  fromkeys xs keys = Ok out ->
  forallb hashable xs = true /\ out = keys ++ first_occurrences keys xs.
Proof.
  revert keys. induction xs as [|x xs IH]; intros keys Hk; simpl.
  - intros [= <-]. rewrite app_nil_r. split; reflexivity.
  - destruct (hashable x) eqn:Hx; [|discriminate].
    rewrite (py_in_key_eqb x keys Hx Hk).
    destruct (existsb (key_eqb x) keys) eqn:E; intros H.
    + apply IH in H as [H1 H2]; [|exact Hk]. split; assumption.
    + apply IH in H as [H1 H2]; [|apply forallb_app_hashable; assumption].
      split; [exact H1|]. rewrite H2, <- app_assoc. reflexivity.
Qed.

Lemma first_occurrences_sublist seen xs : sublist (first_occurrences seen xs) xs.
Proof.
  revert seen. induction xs as [|x xs IH]; intros seen; simpl.
  - constructor.
  - destruct (py_in x seen); [apply sublist_cons | apply sublist_skip]; apply IH.
Qed.

Lemma py_in_app x l1 l2 : py_in x (l1 ++ l2) = py_in x l1 || py_in x l2.
Proof. unfold py_in. apply existsb_app. Qed.

Lemma first_occurrences_fresh seen xs y :
  y ∈ first_occurrences seen xs -> py_in y seen = false.
Proof.
  revert seen. induction xs as [|x xs IH]; intros seen; simpl.
  - intros H. apply elem_of_nil in H. destruct H.
  - destruct (py_in x seen) eqn:E; [apply IH|].
    intros H. apply elem_of_cons in H as [->|H]; [exact E|].
    apply IH in H. rewrite py_in_app in H.
    apply orb_false_iff in H as [H _]. exact H.
Qed.

Lemma sublist_hashable l1 l2 :
  sublist l1 l2 -> forallb hashable l2 = true -> forallb hashable l1 = true.
Proof.
  induction 1 as [|x l1 l2 _ IH|x l1 l2 _ IH]; simpl; [reflexivity| |];
    intros H; apply andb_true_iff in H as [Hx H];
    [rewrite Hx; simpl|]; apply IH; exact H.
Qed.

Lemma py_same_sym a b :
  hashable a = true -> hashable b = true -> py_same a b = py_same b a.
Proof.
  intros Ha Hb. rewrite !py_same_key_eqb by assumption. apply key_eqb_sym.
Qed.

Lemma first_occurrences_distinct seen xs :
  forallb hashable xs = true -> distinct (first_occurrences seen xs).
Proof.
  revert seen. induction xs as [|x xs IH]; intros seen Hh; simpl.
  - intros i j a b _ H. rewrite lookup_nil in H. discriminate.
  - apply andb_true_iff in Hh as [Hx Hh].
    destruct (py_in x seen) eqn:E; [apply IH; exact Hh|].
    assert (Hrest : forall y, y ∈ first_occurrences (seen ++ [x]) xs ->
                      py_same x y = false /\ py_same y x = false).
    { intros y Hy.
      assert (Hyh : hashable y = true).
      { pose proof (sublist_hashable _ _ (first_occurrences_sublist (seen ++ [x]) xs) Hh) as Hs.
        rewrite forallb_forall in Hs. apply Hs.
        apply list_elem_of_In. exact Hy. }
      apply first_occurrences_fresh in Hy. rewrite py_in_app in Hy.
      apply orb_false_iff in Hy as [_ Hy]. simpl in Hy.
      rewrite orb_false_r in Hy. split; [exact Hy|].
      rewrite py_same_sym by assumption. exact Hy. }
    intros [|i] [|j] a b Hij Ha Hb; simpl in *.
    + congruence.
    + injection Ha as <-. apply Hrest.
      apply list_elem_of_lookup. eauto.
    + injection Hb as <-. apply Hrest.
      apply list_elem_of_lookup. eauto.
    + eapply (IH (seen ++ [x]) Hh i j); eauto.
Qed.

Lemma py_same_refl x : hashable x = true -> py_same x x = true.
Proof.
  intros H. rewrite py_same_key_eqb by exact H. apply key_eqb_refl. exact H.
Qed.

(** Every entry of the sequence equals a kept entry (or a seen one). *)
Lemma first_occurrences_cover seen xs x :
  forallb hashable seen = true -> forallb hashable xs = true ->
  x ∈ xs -> py_in x (seen ++ first_occurrences seen xs) = true.
Proof.
  revert seen. induction xs as [|x0 xs IH]; intros seen Hs Hh Hin.
  - apply elem_of_nil in Hin. destruct Hin.
  - simpl in Hh. apply andb_true_iff in Hh as [Hx0 Hh]. simpl.
    apply elem_of_cons in Hin as [->|Hin].
    + destruct (py_in x0 seen) eqn:E.
      * rewrite py_in_app, E. reflexivity.
      * rewrite py_in_app. simpl. rewrite py_same_refl by exact Hx0.
        rewrite orb_true_r. reflexivity.
    + destruct (py_in x0 seen) eqn:E; [apply IH; assumption|].
      specialize (IH (seen ++ [x0]) (forallb_app_hashable _ _ Hs Hx0) Hh Hin).
      rewrite <- app_assoc in IH. exact IH.
Qed.

End Dedup.

Section Cleaning.
Context {R : Runtime}.
Import Pipelines Spec.

Lemma dget_set x k v item :
  dget x (Pipelines.set k v item) =
  if key_eqb x (lit_str k) then Some v else dget x item.
Proof. apply dget_dset. reflexivity. Qed.

Lemma dget_clean_string k x item :
  key_eqb x (lit_str k) = false ->
  dget x (stripped_string k item) = dget x item.
Proof.
  intros H. unfold stripped_string.
  destruct (has item k && truthy (get item k)); [|reflexivity].
  rewrite dget_set, H. reflexivity.
Qed.

Lemma dget_convert_in k sub f item item' x :
  convert_in k sub f item = Ok item' ->
  key_eqb x (lit_str k) = false ->
  dget x item' = dget x item.
Proof.
  unfold convert_in. intros H Hx.
  destruct (lookup_in sub (get item k)) as [[y|]|]; simpl in H;
    [| injection H as <-; reflexivity | discriminate].
  destruct (get item k); try (injection H as <-; reflexivity).
  destruct (f y); simpl in H; [|discriminate].
  injection H as <-. rewrite dget_set, Hx. reflexivity.
Qed.

(** Each later step of the cleaning leaves the other fields alone. *)
Lemma clean_images_frame item item' x :
  clean_images item = Ok item' -> key_eqb x (lit_str "assets") = false ->
  dget x item' = dget x item.
Proof.
  unfold clean_images. destruct (has item "assets").
  - apply dget_convert_in.
  - intros [= <-]. reflexivity.
Qed.

Lemma clean_prices_frame item item' x :
  clean_prices item = Ok item' -> key_eqb x (lit_str "price_data") = false ->
  dget x item' = dget x item.
Proof.
  unfold clean_prices. destruct (has item "price_data").
  - intros H Hx.
    destruct (convert_in "price_data" "current" float_or_zero item) as [i1|] eqn:E1;
      simpl in H; [|discriminate].
    rewrite (dget_convert_in _ _ _ _ _ _ H Hx).
    apply (dget_convert_in _ _ _ _ _ _ E1 Hx).
  - intros [= <-]. reflexivity.
Qed.

Lemma clean_count_frame item item' x :
  clean_count item = Ok item' -> key_eqb x (lit_str "stock") = false ->
  dget x item' = dget x item.
Proof.
  unfold clean_count. destruct (has item "stock").
  - apply dget_convert_in.
  - intros [= <-]. reflexivity.
Qed.

Lemma clean_variants_frame item item' x :
  clean_variants item = Ok item' -> key_eqb x (lit_str "variants") = false ->
  dget x item' = dget x item.
Proof.
  unfold clean_variants. destruct (has item "variants").
  - intros H Hx. destruct (int_or_zero (get item "variants")); simpl in H;
      [|discriminate].
    injection H as <-. rewrite dget_set, Hx. reflexivity.
  - intros [= <-]. reflexivity.
Qed.

Lemma clean_metadata_frame item item' x :
  clean_metadata item = Ok item' -> key_eqb x (lit_str "metadata") = false ->
  dget x item' = dget x item.
Proof.
  unfold clean_metadata. destruct (has item "metadata").
  - intros H Hx. destruct (as_dict (get item "metadata")); simpl in H;
      [|discriminate].
    injection H as <-. rewrite dget_set, Hx. reflexivity.
  - intros [= <-]. reflexivity.
Qed.

Lemma clean_string_ok k item x :
  clean_string k item = Ok x -> x = stripped_string k item.
Proof.
  unfold clean_string, stripped_string, py_str_limited.
  destruct (has item k && truthy (get item k)); [|intros [= <-]; reflexivity].
  destruct (str_fits (get item k)); cbn [bind];
    [intros [= <-]; reflexivity | discriminate].
Qed.

Lemma clean_strings_ok item x :
  clean_strings item = Ok x -> x = stripped_strings item.
Proof.
  unfold clean_strings, stripped_strings. intros H. bind_inv H.
  apply clean_string_ok in E, E0, E1, H. subst. reflexivity.
Qed.

(** The steps of a cleaning that returns. *)
Lemma clean_ok item out :
  clean item = Ok out ->
  (let* item := clean_tags (stripped_strings item) in
   let* item := clean_images item in
   let* item := clean_prices item in
   let* item := clean_count item in
   let* item := clean_variants item in
   clean_metadata item) = Ok out.
Proof.
  unfold clean. destruct (clean_strings item) as [x|e] eqn:E;
    [|discriminate].
  apply clean_strings_ok in E. subst x. intros H. exact H.
Qed.

Lemma clean_tags_frame item item' x :
  clean_tags item = Ok item' -> key_eqb x (lit_str "marketing_tags") = false ->
  dget x item' = dget x item.
Proof.
  unfold clean_tags. destruct (has item "marketing_tags").
  - intros H Hx. destruct (unique (get item "marketing_tags")); simpl in H;
      [|discriminate].
    injection H as <-. rewrite dget_set, Hx. reflexivity.
  - intros [= <-]. reflexivity.
Qed.

Lemma dget_clean_strings x item :
  key_eqb x (lit_str "RPC") = false -> key_eqb x (lit_str "url") = false ->
  key_eqb x (lit_str "title") = false -> key_eqb x (lit_str "brand") = false ->
  dget x (stripped_strings item) = dget x item.
Proof.
  intros H1 H2 H3 H4. unfold stripped_strings.
  rewrite !dget_clean_string by assumption. reflexivity.
Qed.

Lemma unique_deduplicated v xs w :
  py_iter v = Ok xs -> unique v = Ok w ->
  exists ks, w = VList ks /\ deduplicated xs ks.
Proof.
  unfold unique. intros -> H. simpl in H.
  destruct (fromkeys xs []) as [ks|] eqn:E; simpl in H; [|discriminate].
  injection H as <-. exists ks. split; [reflexivity|].
  apply fromkeys_first_occurrences in E as [Hh ->]; [|reflexivity].
  simpl. repeat split.
  - apply first_occurrences_distinct. exact Hh.
  - apply first_occurrences_sublist.
  - intros x Hx.
    apply (first_occurrences_cover [] xs x eq_refl Hh Hx).
Qed.

(** C7. In a product that has passed the cleaning stage, [marketing_tags]
    and [set_images] hold no two equal entries, and what is left is the
    original sequence with every entry dropped that equals an earlier one:
    the order is the order of first occurrence. *)
Theorem cleaning_deduplicates (item out : dict) :
  clean item = Ok out ->
  (forall tags,
     has item "marketing_tags" = true ->
     py_iter (get item "marketing_tags") = Ok tags ->
     exists ks, get out "marketing_tags" = VList ks /\ deduplicated tags ks) /\
  (forall assets images,
     dget (lit_str "assets") item = Some (VDict assets) ->
     has assets "set_images" = true ->
     py_iter (get assets "set_images") = Ok images ->
     exists assets' ks,
       get out "assets" = VDict assets' /\
       get assets' "set_images" = VList ks /\ deduplicated images ks).
Proof.
  intros H. apply clean_ok in H. bind_inv H.
  rename a into i1, a0 into i2, a1 into i3, a2 into i4, a3 into i5.
  assert (Hout : forall x,
             key_eqb x (lit_str "metadata") = false ->
             key_eqb x (lit_str "variants") = false ->
             key_eqb x (lit_str "stock") = false ->
             key_eqb x (lit_str "price_data") = false ->
             dget x out = dget x i2).
  { intros x H1 H2 H3 H4.
    rewrite (clean_metadata_frame _ _ _ H H1).
    rewrite (clean_variants_frame _ _ _ E3 H2).
    rewrite (clean_count_frame _ _ _ E2 H3).
    apply (clean_prices_frame _ _ _ E1 H4). }
  assert (Hin : forall x,
             key_eqb x (lit_str "RPC") = false ->
             key_eqb x (lit_str "url") = false ->
             key_eqb x (lit_str "title") = false ->
             key_eqb x (lit_str "brand") = false ->
             dget x (stripped_strings item) = dget x item)
    by (intros; apply dget_clean_strings; assumption).
  split.
  - intros tags Hhas Hit.
    unfold get. fold_lit.
    rewrite Hout by reflexivity.
    rewrite (clean_images_frame _ _ _ E0) by reflexivity.
    unfold clean_tags, has, dmem, get in E. fold_lit.
    unfold has, dmem in Hhas. unfold get in Hit.
    change (VStr (u "marketing_tags")) with (lit_str "marketing_tags") in *.
    rewrite Hin in E by reflexivity.
    destruct (dget (lit_str "marketing_tags") item) as [v|] eqn:Ev;
      [|discriminate].
    destruct (unique v) as [w|] eqn:Eu; simpl in E; [|discriminate].
    injection E as <-. rewrite dget_set. eval_keys. cbv iota.
    apply (unique_deduplicated _ _ _ Hit Eu).
  - intros assets images Ha Hhas Hit.
    unfold get at 1. fold_lit. rewrite Hout by reflexivity.
    assert (Ha1 : dget (lit_str "assets") i1 = Some (VDict assets)).
    { rewrite (clean_tags_frame _ _ _ E) by reflexivity.
      rewrite Hin by reflexivity. exact Ha. }
    unfold clean_images, has, dmem, convert_in, get in E0.
    change (VStr (u "assets")) with (lit_str "assets") in *.
    rewrite Ha1 in E0. unfold lookup_in in E0.
    unfold has, dmem in Hhas. unfold get in Hit.
    change (VStr (u "set_images")) with (lit_str "set_images") in *.
    destruct (dget (lit_str "set_images") assets) as [v|] eqn:Ev;
      [|discriminate].
    simpl in E0. destruct (unique v) as [w|] eqn:Eu; simpl in E0;
      [|discriminate].
    injection E0 as <-. rewrite dget_set. eval_keys. cbv iota.
    destruct (unique_deduplicated _ _ _ Hit Eu) as (ks & -> & Hks).
    eexists _, ks. split; [reflexivity|]. split; [|exact Hks].
    unfold get. fold_lit. rewrite dget_set. eval_keys. reflexivity.
Qed.

End Cleaning.

Lemma cleaning_deduplicates_witness :
  exists out,
    Pipelines.clean (R := Demo.runtime) Demo.repeated_item = Ok out /\
    get out "marketing_tags"
    = VList [lit_str "Новинка"; lit_str "Акция"].
Proof.
  eexists. split; [vm_compute; reflexivity|].
  match goal with
  | |- get ?out _ = _ =>
    destruct (cleaning_deduplicates (R := Demo.runtime)
                Demo.repeated_item out) as [H _]; [vm_compute; reflexivity|]
  end.
  edestruct H as (ks & Hks & Hd & _); [reflexivity | reflexivity |].
  rewrite Hks, Hd. vm_compute. reflexivity.
Defined.

(** ** Titles *)

Section Title.
Context {R : Runtime}.
Import Spec.

Lemma parsed_list_title now d item :
  _parse_product_from_list now (VDict d) = Ok (Some item) ->
  list_title d = Ok (get item "title").
Proof.
  unfold _parse_product_from_list. intros H.
  destruct (negb (truthy (VDict d))); [discriminate|].
  simpl as_dict in H. cbn [bind] in H.
  bind_inv H. injection H as <-. reflexivity.
Qed.

Lemma parsed_detail_title now d l item :
  truthy (VDict d) = true ->
  _parse_product_from_detail now (VDict d) l = Ok (Some item) ->
  detail_title d = Ok (get item "title").
Proof.
  unfold _parse_product_from_detail. intros -> H.
  simpl negb in H. cbv iota in H. simpl as_dict in H. cbn [bind] in H.
  bind_inv H. injection H as <-. reflexivity.
Qed.

Lemma list_title_spec d title :
  list_title d = Ok title ->
  let name := get_or d "name" (VStr []) in
  (_check_volume_in_title name = Ok true -> title = name) /\
  (_check_volume_in_title name = Ok false ->
   exists volume,
     _extract_volume d = Ok volume /\
     if truthy volume then with_volume name volume title else title = name).
Proof.
  unfold list_title. intros H. bind_inv H. injection H as <-.
  rename a into volume, a0 into present. cbv zeta.
  destruct present; simpl.
  - split; [reflexivity | discriminate].
  - split; [discriminate|]. intros _. exists volume.
    split; [reflexivity|]. destruct (truthy volume); reflexivity.
Qed.

Lemma detail_title_spec d title :
  detail_title d = Ok title ->
  let name := get_or d "name" (VStr []) in
  (_check_volume_in_title name = Ok true -> title = name) /\
  (_check_volume_in_title name = Ok false ->
   exists volume,
     detail_volume d volume /\
     if truthy volume then with_volume name volume title else title = name).
Proof.
  unfold detail_title. intros H. cbv zeta in *.
  destruct (_check_volume_in_title (get_or d "name" (VStr []))) as [present|] eqn:Ec;
    simpl in H; [|discriminate].
  destruct present.
  - injection H as <-. split; [reflexivity | discriminate].
  - split; [discriminate|]. intros _.
    destruct (py_iter (get_or d "description_blocks" (VList [])))
      as [blocks|] eqn:Eb; cbn [bind] in H; [|discriminate].
    destruct (block_volume blocks) as [bv|] eqn:Ev; cbn [bind] in H;
      [|discriminate].
    destruct (truthy bv) eqn:Et; cbn [bind] in H.
    + injection H as <-. exists bv. split.
      * exists blocks, bv. rewrite Et. repeat split; assumption.
      * rewrite Et. reflexivity.
    + destruct (_extract_volume d) as [v|] eqn:Ex; cbn [bind] in H;
        [|discriminate].
      injection H as <-. exists v. split.
      * exists blocks, bv. rewrite Et. repeat split; assumption.
      * destruct (truthy v); reflexivity.
Qed.

End Title.


(** ** Signs of the numbers *)

Section Floats.
Import Spec.

Lemma iter_pos_invariant {A} (P : A -> Prop) (f : A -> A) :
  (forall x, P x -> P (f x)) ->
  forall (n : positive) (x : A), P x -> P (SpecFloat.iter_pos f n x).
Proof.
  intros Hf. induction n as [n IH|n IH|]; intros x Hx; simpl; auto.
Qed.

Lemma shr_1_nonneg mrs : 0 <= shr_m mrs -> 0 <= shr_m (shr_1 mrs).
Proof.
  destruct mrs as [m r s]. simpl.
  destruct m as [|p|p]; simpl; try lia; destruct p; simpl; lia.
Qed.

Lemma shr_nonneg mrs e n : 0 <= shr_m mrs -> 0 <= shr_m (fst (shr mrs e n)).
Proof.
  intros H. unfold shr. destruct n; simpl; try exact H.
  apply (iter_pos_invariant (fun x => 0 <= shr_m x) shr_1); [apply shr_1_nonneg | exact H].
Qed.

Lemma shr_record_of_loc_m m l : shr_m (shr_record_of_loc m l) = m.
Proof. destruct l as [|[| |]]; reflexivity. Qed.

Lemma shr_fexp_nonneg prec emax m e l :
  0 <= m -> 0 <= shr_m (fst (shr_fexp prec emax m e l)).
Proof.
  intros H. unfold shr_fexp. apply shr_nonneg.
  rewrite shr_record_of_loc_m. exact H.
Qed.

Lemma round_nearest_even_nonneg m l : 0 <= m -> 0 <= round_nearest_even m l.
Proof.
  intros H. unfold round_nearest_even.
  destruct l as [|[| |]]; try lia. destruct (Z.even m); lia.
Qed.

Lemma binary_round_aux_nonneg prec emax m e l :
  0 <= m -> not_negative (binary_round_aux prec emax false m e l).
Proof.
  intros H. unfold binary_round_aux.
  pose proof (shr_fexp_nonneg prec emax m e l H) as H1.
  destruct (shr_fexp prec emax m e l) as [mrs' e'] eqn:E1. simpl in H1.
  pose proof (shr_fexp_nonneg prec emax
                (round_nearest_even (shr_m mrs') (loc_of_shr_record mrs')) e'
                loc_Exact (round_nearest_even_nonneg _ _ H1)) as H2.
  destruct (shr_fexp prec emax _ e' loc_Exact) as [mrs'' e''] eqn:E2.
  simpl in H2.
  destruct (shr_m mrs'') as [|p|p]; simpl; try reflexivity; [|lia].
  destruct (e'' <=? emax - prec); reflexivity.
Qed.

Lemma float_of_Z_nonneg n f :
  0 <= n -> float_of_Z n = Ok f -> fleb fzero f = true.
Proof.
  intros Hn. unfold float_of_Z, binary_normalize.
  destruct n as [|p|p]; [intros [= <-]; reflexivity | | lia].
  unfold binary_round.
  destruct (shl_align p 0 _) as [mz ez].
  pose proof (binary_round_aux_nonneg 53 1024 (Z.pos mz) ez loc_Exact) as H.
  destruct (binary_round_aux 53 1024 false (Z.pos mz) ez loc_Exact) as [s|s| |s m e];
    simpl in H; try discriminate; intros [= <-]; try (rewrite H by lia; reflexivity).
  destruct H. lia.
Qed.

Lemma trunc_float_nonneg f n :
  fleb fzero f = true -> trunc_float f = Ok n -> 0 <= n.
Proof.
  destruct f as [s|s| |s m e]; simpl; try discriminate.
  - intros _ [= <-]. lia.
  - destruct s; [discriminate|]. intros _ [= <-]. simpl.
    destruct e; cbn [cond_Zopp].
    + lia.
    + apply Z.mul_nonneg_nonneg; [lia | apply Z.pow_nonneg; lia].
    + apply Z.shiftr_nonneg. lia.
Qed.

End Floats.

Section Numbers.
Context {R : Runtime}.
Import Spec.

Lemma py_float_nonneg v f :
  nonneg v = true -> py_float v = Ok f -> fleb fzero f = true.
Proof.
  destruct v; simpl; try discriminate.
  - intros _. destruct b; intros [= <-]; reflexivity.
  - intros H. apply float_of_Z_nonneg. apply Z.leb_le. exact H.
  - intros H [= <-]. exact H.
Qed.

Lemma py_int_nonneg v n : nonneg v = true -> py_int v = Ok n -> 0 <= n.
Proof.
  destruct v; simpl; try discriminate.
  - intros _. destruct b; intros [= <-]; lia.
  - intros H [= <-]. apply Z.leb_le. exact H.
  - intros H. apply trunc_float_nonneg. exact H.
Qed.

(** The value a chain of [or] picks from fields that are not negative. *)
Lemma nonneg_get_truthy d k :
  nonneg_field d k = true -> truthy (get d k) = true -> nonneg (get d k) = true.
Proof.
  unfold nonneg_field, get. fold_lit.
  destruct (dget (lit_str k) d) as [v|]; [|discriminate].
  destruct v; simpl; try discriminate; auto.
Qed.

Lemma nonneg_get_or_truthy d k :
  nonneg_field d k = true -> truthy (get_or d k (VInt 0)) = true ->
  nonneg (get_or d k (VInt 0)) = true.
Proof.
  unfold nonneg_field, get_or. fold_lit.
  destruct (dget (lit_str k) d) as [v|]; [|discriminate].
  destruct v; simpl; try discriminate; auto.
Qed.

Lemma nonneg_price d :
  nonneg_field d "price" = true ->
  nonneg (py_or (get_or d "price" (VInt 0)) (VInt 0)) = true.
Proof.
  intros H. unfold py_or.
  destruct (truthy (get_or d "price" (VInt 0))) eqn:E; [|reflexivity].
  apply nonneg_get_or_truthy; assumption.
Qed.

Lemma nonneg_original d :
  nonneg_field d "price" = true -> nonneg_field d "prev_price" = true ->
  nonneg (py_or (py_or (get d "prev_price") (get_or d "price" (VInt 0)))
                (VInt 0)) = true.
Proof.
  intros H1 H2. unfold py_or.
  destruct (truthy (get d "prev_price")) eqn:E.
  - rewrite E. apply nonneg_get_truthy; assumption.
  - destruct (truthy (get_or d "price" (VInt 0))) eqn:E'; [|reflexivity].
    apply nonneg_get_or_truthy; assumption.
Qed.

Lemma nonneg_quantity d :
  nonneg_field d "quantity" = true -> nonneg_field d "quantity_total" = true ->
  nonneg (py_or (py_or (get_or d "quantity" (VInt 0))
                       (get_or d "quantity_total" (VInt 0))) (VInt 0)) = true.
Proof.
  intros H1 H2. unfold py_or.
  destruct (truthy (get_or d "quantity" (VInt 0))) eqn:E.
  - rewrite E. apply nonneg_get_or_truthy; assumption.
  - destruct (truthy (get_or d "quantity_total" (VInt 0))) eqn:E'; [|reflexivity].
    apply nonneg_get_or_truthy; assumption.
Qed.

(** What the two extractors return on such a record. *)
Lemma price_data_nonneg d pd :
  nonneg_field d "price" = true -> nonneg_field d "prev_price" = true ->
  _extract_price_data d = Ok pd ->
  exists c o tag,
    pd = Spec.price_record c o tag /\ fleb fzero c = true /\ fleb fzero o = true.
Proof.
  intros H1 H2 H. unfold _extract_price_data in H.
  destruct (py_float (py_or (get_or d "price" (VInt 0)) (VInt 0))) as [c|] eqn:Ec;
    cbn [bind] in H; [|discriminate].
  destruct (py_float (py_or (py_or (get d "prev_price") (get_or d "price" (VInt 0))) (VInt 0))) as [o|] eqn:Eo;
    cbn [bind] in H; [|discriminate].
  apply py_float_nonneg in Ec; [|apply nonneg_price; assumption].
  apply py_float_nonneg in Eo; [|apply nonneg_original; assumption].
  destruct (fltb c o && fltb fzero o).
  - destruct (py_round _) as [pct|]; cbn [bind] in H; [|discriminate].
    injection H as <-. eexists _, _, _. split; [reflexivity|]. split; assumption.
  - injection H as <-. eexists _, _, _. split; [reflexivity|]. split; assumption.
Qed.

Lemma stock_nonneg d st :
  nonneg_field d "quantity" = true -> nonneg_field d "quantity_total" = true ->
  _extract_stock d = Ok st ->
  exists b n, st = [field "in_stock" (VBool b); field "count" (VInt n)] /\ 0 <= n.
Proof.
  intros H1 H2 H. unfold _extract_stock in H.
  destruct (py_int _) as [n|] eqn:En; cbn [bind] in H; [|discriminate].
  apply py_int_nonneg in En; [|apply nonneg_quantity; assumption].
  injection H as <-. eexists _, n. split; [reflexivity | exact En].
Qed.

End Numbers.



Section Sanitised.
Context {R : Runtime}.
Import Spec.

Lemma validated_price item c o tag :
  dget (lit_str "price_data") item = Some (VDict (price_record c o tag)) ->
  dget (lit_str "price_data") (validate_item item)
  = Some (VDict (price_record c o tag)).
Proof.
  intros H. rewrite validate_item_eq. unfold _validate_types. cbv zeta.
  dget_steps. rewrite H. reflexivity.
Qed.

Lemma validated_stock item b n :
  dget (lit_str "stock") item
  = Some (VDict [field "in_stock" (VBool b); field "count" (VInt n)]) ->
  dget (lit_str "stock") (validate_item item)
  = Some (VDict [field "in_stock" (VBool b); field "count" (VInt n)]).
Proof.
  intros H. rewrite validate_item_eq. unfold _validate_types. cbv zeta.
  dget_steps. rewrite H. reflexivity.
Qed.

Lemma convert_in_fixed k sub f item d v item' :
  dget (lit_str k) item = Some (VDict d) ->
  dget (lit_str sub) d = Some v ->
  f v = Ok v ->
  convert_in k sub f item = Ok item' ->
  dget (lit_str k) item' = Some (VDict (Pipelines.set sub v d)).
Proof.
  intros Hk Hs Hf. unfold convert_in, get. fold_lit.
  rewrite Hk. cbn [lookup_in bind]. rewrite Hs, Hf. cbn [bind].
  intros [= <-]. unfold Pipelines.set at 1.
  rewrite dget_dset, key_eqb_refl by reflexivity. reflexivity.
Qed.

Lemma clean_prices_fixed item item' c o tag :
  dget (lit_str "price_data") item = Some (VDict (price_record c o tag)) ->
  clean_prices item = Ok item' ->
  dget (lit_str "price_data") item' = Some (VDict (price_record c o tag)).
Proof.
  intros H. unfold clean_prices, has, dmem. rewrite H. intros Hc.
  bind_inv Hc.
  apply (convert_in_fixed "price_data" "current" float_or_zero _ _ (VFloat c) _ H
           eq_refl eq_refl) in E.
  apply (convert_in_fixed "price_data" "original" float_or_zero _ _ (VFloat o) _ E
           eq_refl eq_refl) in Hc.
  exact Hc.
Qed.

Lemma clean_count_fixed item item' b n :
  dget (lit_str "stock") item
  = Some (VDict [field "in_stock" (VBool b); field "count" (VInt n)]) ->
  clean_count item = Ok item' ->
  dget (lit_str "stock") item'
  = Some (VDict [field "in_stock" (VBool b); field "count" (VInt n)]).
Proof.
  intros H. unfold clean_count, has, dmem. rewrite H. intros Hc.
  apply (convert_in_fixed "stock" "count" int_or_zero _ _ (VInt n) _ H
           eq_refl eq_refl) in Hc.
  exact Hc.
Qed.

(** Cleaning, and so the two pipelines, leave the price data and the stock
    of an extracted item as the extractor made them. *)
Lemma clean_keeps_numbers item out c o tag b n :
  dget (lit_str "price_data") item = Some (VDict (price_record c o tag)) ->
  dget (lit_str "stock") item
  = Some (VDict [field "in_stock" (VBool b); field "count" (VInt n)]) ->
  clean item = Ok out ->
  get out "price_data" = VDict (price_record c o tag) /\
  get out "stock" = VDict [field "in_stock" (VBool b); field "count" (VInt n)].
Proof.
  intros Hp Hs H. apply clean_ok in H. bind_inv H.
  rename a into i1, a0 into i2, a1 into i3, a2 into i4, a3 into i5.
  assert (Hp2 : dget (lit_str "price_data") i2
                = Some (VDict (price_record c o tag))).
  { rewrite (clean_images_frame _ _ _ E0) by reflexivity.
    rewrite (clean_tags_frame _ _ _ E) by reflexivity.
    rewrite dget_clean_strings by reflexivity. exact Hp. }
  assert (Hs3 : dget (lit_str "stock") i3
                = Some (VDict [field "in_stock" (VBool b);
                               field "count" (VInt n)])).
  { rewrite (clean_prices_frame _ _ _ E1) by reflexivity.
    rewrite (clean_images_frame _ _ _ E0) by reflexivity.
    rewrite (clean_tags_frame _ _ _ E) by reflexivity.
    rewrite dget_clean_strings by reflexivity. exact Hs. }
  unfold get. fold_lit. split.
  - rewrite (clean_metadata_frame _ _ _ H) by reflexivity.
    rewrite (clean_variants_frame _ _ _ E3) by reflexivity.
    rewrite (clean_count_frame _ _ _ E2) by reflexivity.
    rewrite (clean_prices_fixed i2 i3 c o tag Hp2 E1). reflexivity.
  - rewrite (clean_metadata_frame _ _ _ H) by reflexivity.
    rewrite (clean_variants_frame _ _ _ E3) by reflexivity.
    rewrite (clean_count_fixed i3 i4 b n Hs3 E2). reflexivity.
Qed.

Lemma process_keeps_numbers item out c o tag b n :
  dget (lit_str "price_data") item = Some (VDict (price_record c o tag)) ->
  dget (lit_str "stock") item
  = Some (VDict [field "in_stock" (VBool b); field "count" (VInt n)]) ->
  process item = Ok out ->
  get out "price_data" = VDict (price_record c o tag) /\
  get out "stock" = VDict [field "in_stock" (VBool b); field "count" (VInt n)].
Proof.
  intros Hp Hs. apply clean_keeps_numbers.
  - apply validated_price. exact Hp.
  - apply validated_stock. exact Hs.
Qed.

Lemma parsed_list_numbers now d item :
  _parse_product_from_list now (VDict d) = Ok (Some item) ->
  exists pd st,
    _extract_price_data d = Ok pd /\ _extract_stock d = Ok st /\
    dget (lit_str "price_data") item = Some (VDict pd) /\
    dget (lit_str "stock") item = Some (VDict st).
Proof.
  unfold _parse_product_from_list. intros H.
  destruct (negb (truthy (VDict d))); [discriminate|].
  simpl as_dict in H. cbn [bind] in H.
  bind_inv H. injection H as <-.
  eexists _, _. repeat split; reflexivity.
Qed.

Lemma parsed_detail_numbers now d l item :
  truthy (VDict d) = true ->
  _parse_product_from_detail now (VDict d) l = Ok (Some item) ->
  exists pd st,
    _extract_price_data d = Ok pd /\ _extract_stock d = Ok st /\
    dget (lit_str "price_data") item = Some (VDict pd) /\
    dget (lit_str "stock") item = Some (VDict st).
Proof.
  unfold _parse_product_from_detail. intros -> H.
  simpl negb in H. cbv iota in H. simpl as_dict in H. cbn [bind] in H.
  bind_inv H. injection H as <-.
  eexists _, _. repeat split; reflexivity.
Qed.

(** C9 (amended). The extractors and the pipelines keep the numbers of the
    raw record as they are, sign included.  So when the price, the previous
    price and the quantities of the record are absent, null or not
    negative, the emitted product has [current >= 0], [original >= 0] and
    [count >= 0] after extraction, validation and cleaning. *)
Theorem emitted_numbers_nonneg (now : Z) (d : dict) (l : value) (item out : dict) :
  nonneg_record d ->
  truthy (VDict d) = true ->
  _parse_product_from_list now (VDict d) = Ok (Some item) \/
  _parse_product_from_detail now (VDict d) l = Ok (Some item) ->
  process item = Ok out ->
  exists current original tag in_stock count,
    get out "price_data" = VDict (price_record current original tag) /\
    get out "stock"
    = VDict [field "in_stock" (VBool in_stock); field "count" (VInt count)] /\
    fleb fzero current = true /\ fleb fzero original = true /\ 0 <= count.
Proof.
  intros (H1 & H2 & H3 & H4) Ht Hparse Hproc.
  assert (Hn : exists pd st,
             _extract_price_data d = Ok pd /\ _extract_stock d = Ok st /\
             dget (lit_str "price_data") item = Some (VDict pd) /\
             dget (lit_str "stock") item = Some (VDict st)).
  { destruct Hparse as [H|H];
      [eapply parsed_list_numbers | eapply parsed_detail_numbers]; eauto. }
  destruct Hn as (pd & st & Hpd & Hst & Hip & His).
  apply price_data_nonneg in Hpd as (c & o & tag & -> & Hc & Ho); try assumption.
  apply stock_nonneg in Hst as (b & n & -> & Hn); try assumption.
  destruct (process_keeps_numbers _ _ _ _ _ _ _ Hip His Hproc) as [Hp Hs].
  exists c, o, tag, b, n. repeat split; assumption.
Qed.

End Sanitised.

(** A negative price and a negative quantity go through extraction,
    validation and cleaning unchanged. *)
Lemma negative_numbers_pass_through :
  exists item out current count,
    _parse_product_from_list (R := Demo.runtime) 7 (VDict Demo.negative_record)
    = Ok (Some item) /\
    Pipelines.process (R := Demo.runtime) item = Ok out /\
    get out "price_data" = VDict (Spec.price_record current current []) /\
    fltb current fzero = true /\
    get out "stock"
    = VDict [field "in_stock" (VBool false); field "count" (VInt count)] /\
    count < 0.
Proof.
  eexists _, _, _, (-3).
  split; [vm_compute; reflexivity|].
  split; [vm_compute; reflexivity|].
  split; [vm_compute; reflexivity|].
  split; [vm_compute; reflexivity|].
  split; [vm_compute; reflexivity|].
  lia.
Qed.

Lemma emitted_numbers_nonneg_witness :
  exists item out current original tag in_stock count,
    _parse_product_from_list (R := Demo.runtime) 7 (VDict Demo.list_record)
    = Ok (Some item) /\
    Pipelines.process (R := Demo.runtime) item = Ok out /\
    get out "price_data" = VDict (Spec.price_record current original tag) /\
    get out "stock"
    = VDict [field "in_stock" (VBool in_stock); field "count" (VInt count)] /\
    fleb fzero current = true /\ fleb fzero original = true /\ 0 <= count.
Proof.
  eexists _, _.
  match goal with
  | |- exists c o t b n, ?P = Ok (Some ?i) /\ ?Q = Ok ?out /\ _ =>
    assert (H1 : P = Ok (Some i)) by (vm_compute; reflexivity);
    assert (H2 : Q = Ok out) by (vm_compute; reflexivity)
  end.
  destruct (emitted_numbers_nonneg (R := Demo.runtime) 7 Demo.list_record
              VNone _ _
              (conj eq_refl (conj eq_refl (conj eq_refl eq_refl)))
              eq_refl (or_introl H1) H2)
    as (c & o & t & b & n & Hp & Hs & Hc & Ho & Hn).
  exists c, o, t, b, n. repeat split; assumption.
Defined.

(** * Further properties *)

Import Py Re Spider Pipelines Spec.

(** ** Validation twice *)

Import ObsItems.

Lemma dset_same k v d : dget k d = Some v -> dset k v d = d.
Proof.
  induction d as [|[k' v'] d IH]; simpl; [discriminate|].
  destruct (key_eqb k k').
  - intros [= ->]. reflexivity.
  - intros H. rewrite IH by exact H. reflexivity.
Qed.

Lemma snd_fill_missing fields e1 e2 item :
  snd (fill_missing fields e1 item) = snd (fill_missing fields e2 item).
Proof.
  revert e1 e2 item. induction fields as [|[k v] rest IH]; intros; simpl;
    [reflexivity|].
  destruct (has item k); apply IH.
Qed.

Lemma snd_validate c item : snd (validate c item) = validate_item item.
Proof.
  unfold validate_item, validate.
  pose proof (snd_fill_missing required_fields (error_count c) 
                (error_count {| processed_count := 0; error_count := 0 |}) item) as H.
  destruct (fill_missing required_fields (error_count c) item),
           (fill_missing required_fields _ item).
  simpl in *. congruence.
Qed.

Lemma has_set_default k v d (x : string) :
  has (set_default k v d) x = has d x || key_eqb (lit_str x) (lit_str k).
Proof.
  unfold has, dmem. rewrite dget_set_default.
  destruct (dget (lit_str x) d); [reflexivity|].
  destruct (key_eqb (lit_str x) (lit_str k)); reflexivity.
Qed.

Lemma list_at_force_sublist k a (x : string) :
  list_at (force_sublist k a) x =
  list_at a x || key_eqb (lit_str x) (lit_str k).
Proof.
  unfold list_at. rewrite dget_force_sublist.
  unfold has, dmem, get. fold_lit.
  destruct (key_eqb (lit_str x) (lit_str k)) eqn:E; cbn [andb].
  - rewrite (dget_key_congr _ _ a E), orb_true_r.
    destruct (dget (lit_str k) a) as [[]|]; reflexivity.
  - rewrite orb_false_r. reflexivity.
Qed.

Ltac case_item :=
  match goal with
  | |- context [dget ?k ?item] => is_var item; destruct (dget k item) as [[]|]
  end.

Lemma valid_validate item : valid (validate_item item) = true.
Proof.
  unfold valid. rewrite !andb_true_iff. repeat split.
  - cbn [forallb]. rewrite !has_validate_required by (simpl; tauto). reflexivity.
  - rewrite validate_item_eq. unfold _validate_types, list_at. cbv zeta.
    dget_steps. case_item; [cbv beta iota delta [is_dict is_list negb]; reflexivity .. | vm_compute; reflexivity].
  - rewrite validate_item_eq. unfold _validate_types, list_at. cbv zeta.
    dget_steps. case_item; [cbv beta iota delta [is_dict is_list negb]; reflexivity .. | vm_compute; reflexivity].
  - rewrite validate_item_eq. unfold _validate_types, dict_at. cbv zeta.
    dget_steps.
    assert (forall p, has (set_default "sale_tag" (VStr [])
                      (set_default "original" (VFloat fzero)
                        (set_default "current" (VFloat fzero) p))) "current"
                   && has (set_default "sale_tag" (VStr [])
                      (set_default "original" (VFloat fzero)
                        (set_default "current" (VFloat fzero) p))) "original"
                   && has (set_default "sale_tag" (VStr [])
                      (set_default "original" (VFloat fzero)
                        (set_default "current" (VFloat fzero) p))) "sale_tag" = true) as Hp.
    { intros p. rewrite !has_set_default. eval_keys.
      rewrite !orb_true_r, ?orb_true_l. reflexivity. }
    case_item; [cbv beta iota delta [is_dict is_list negb]; apply Hp .. | vm_compute; reflexivity].
  - rewrite validate_item_eq. unfold _validate_types, dict_at. cbv zeta.
    dget_steps.
    assert (forall s, has (set_default "count" (VInt 0)
                        (set_default "in_stock" (VBool false) s)) "in_stock"
                   && has (set_default "count" (VInt 0)
                        (set_default "in_stock" (VBool false) s)) "count" = true) as Hp.
    { intros p. rewrite !has_set_default. eval_keys.
      rewrite !orb_true_r, ?orb_true_l. reflexivity. }
    case_item; [cbv beta iota delta [is_dict is_list negb]; apply Hp .. | vm_compute; reflexivity].
  - rewrite validate_item_eq. unfold _validate_types, dict_at. cbv zeta.
    dget_steps.
    assert (forall a,
              list_at (force_sublist "video"
                (force_sublist "view360" (force_sublist "set_images" a))) "set_images"
              && list_at (force_sublist "video"
                (force_sublist "view360" (force_sublist "set_images" a))) "view360"
              && list_at (force_sublist "video"
                (force_sublist "view360" (force_sublist "set_images" a))) "video" = true) as Hp.
    { intros p. rewrite !list_at_force_sublist. eval_keys.
      rewrite !orb_true_r, ?orb_true_l. reflexivity. }
    case_item; [cbv beta iota delta [is_dict is_list negb]; apply Hp .. | vm_compute; reflexivity].
  - rewrite validate_item_eq. unfold _validate_types, dict_at. cbv zeta.
    dget_steps. case_item; [cbv beta iota delta [is_dict is_list negb]; reflexivity .. | vm_compute; reflexivity].
Qed.

Lemma list_at_inv d k :
  list_at d k = true -> exists l, dget (lit_str k) d = Some (VList l).
Proof.
  unfold list_at. destruct (dget (lit_str k) d) as [[]|]; try discriminate.
  eauto.
Qed.

Lemma dict_at_inv d k sub :
  dict_at d k sub = true ->
  exists m, dget (lit_str k) d = Some (VDict m) /\ sub m = true.
Proof.
  unfold dict_at. destruct (dget (lit_str k) d) as [[]|]; try discriminate.
  eauto.
Qed.

Lemma force_list_id k item : list_at item k = true -> force_list k item = item.
Proof.
  intros H. apply list_at_inv in H as [l H]. unfold force_list, get. fold_lit.
  rewrite H. reflexivity.
Qed.

Lemma force_dict_id k sub item :
  dict_at item k sub = true -> force_dict k item = item.
Proof.
  intros H. apply dict_at_inv in H as (m & H & _). unfold force_dict, get.
  fold_lit. rewrite H. reflexivity.
Qed.

Lemma within_id k f item m :
  dget (lit_str k) item = Some (VDict m) -> f m = m -> within k f item = item.
Proof.
  intros H Hf. unfold within, has, dmem, get, Pipelines.set. fold_lit.
  rewrite H, Hf. apply dset_same. exact H.
Qed.

Lemma set_default_id k v d : has d k = true -> set_default k v d = d.
Proof. unfold set_default. intros ->. reflexivity. Qed.

Lemma force_sublist_id k a : list_at a k = true -> force_sublist k a = a.
Proof.
  intros H. apply list_at_inv in H as [l H].
  unfold force_sublist, has, dmem, get. fold_lit. rewrite H. reflexivity.
Qed.

Lemma list_at_has d k : list_at d k = true -> has d k = true.
Proof.
  intros H. apply list_at_inv in H as [l H]. unfold has, dmem. rewrite H.
  reflexivity.
Qed.

Lemma dict_at_has d k sub : dict_at d k sub = true -> has d k = true.
Proof.
  intros H. apply dict_at_inv in H as (m & H & _). unfold has, dmem.
  rewrite H. reflexivity.
Qed.

Lemma fill_missing_present fields e item :
  forallb (fun kv => has item (fst kv)) fields = true ->
  fill_missing fields e item = (e, item).
Proof.
  revert e. induction fields as [|[k v] rest IH]; intros e; simpl;
    [reflexivity|].
  intros H. apply andb_true_iff in H as [-> H]. apply IH. exact H.
Qed.

Lemma valid_has_required item :
  valid item = true ->
  forallb (fun kv => has item (fst kv)) required_fields = true.
Proof.
  unfold valid. rewrite !andb_true_iff.
  intros ((((((Hs & Ht) & Hsec) & Hp) & Hst) & Ha) & Hm).
  cbn [forallb] in Hs. rewrite !andb_true_iff in Hs.
  destruct Hs as [H1 [H2 [H3 [H4 [H5 [H6 _]]]]]].
  apply list_at_has in Ht, Hsec. apply dict_at_has in Hp, Hst, Ha, Hm.
  cbn [forallb required_fields fst].
  rewrite H1, H2, H3, H4, H5, H6, Ht, Hsec, Hp, Hst, Ha, Hm. reflexivity.
Qed.

Lemma validate_types_valid item :
  valid item = true -> _validate_types item = item.
Proof.
  unfold valid. rewrite !andb_true_iff.
  intros ((((((Hs & Ht) & Hsec) & Hp) & Hst) & Ha) & Hm).
  unfold _validate_types. cbv zeta.
  rewrite (force_list_id _ _ Ht), (force_list_id _ _ Hsec).
  rewrite (force_dict_id _ _ _ Hp), (force_dict_id _ _ _ Hst),
    (force_dict_id _ _ _ Ha), (force_dict_id _ _ _ Hm).
  apply dict_at_inv in Hp as (p & Hp & Hps), Hst as (s & Hst & Hss),
    Ha as (a & Ha & Has).
  cbv beta in Hps, Hss, Has. rewrite !andb_true_iff in Hps. rewrite !andb_true_iff in Hss.
  rewrite !andb_true_iff in Has.
  destruct Hps as ((Hc & Ho) & Hsale), Hss as (Hin & Hcount),
    Has as ((Hsi & Hv3) & Hvid).
  rewrite (within_id "assets" _ item a Ha).
  2:{ rewrite (force_sublist_id _ _ Hsi), (force_sublist_id _ _ Hv3).
      apply force_sublist_id. exact Hvid. }
  rewrite (within_id "price_data" _ item p Hp).
  2:{ rewrite (set_default_id _ _ _ Hc), (set_default_id _ _ _ Ho).
      apply set_default_id. exact Hsale. }
  apply (within_id "stock" _ item s Hst).
  rewrite (set_default_id _ _ _ Hin). apply set_default_id. exact Hcount.
Qed.

Lemma validate_valid c item :
  valid item = true ->
  validate c item =
  ({| processed_count := processed_count c + 1;
      error_count := error_count c |}, item).
Proof.
  intros H. unfold validate.
  rewrite (fill_missing_present _ _ _ (valid_has_required _ H)).
  rewrite (validate_types_valid _ H). reflexivity.
Qed.

(** X1. A validated item passes validation unchanged, and the second pass
    counts no missing field. *)
Theorem validation_idempotent (c : counters) (item : dict) :
  validate (fst (validate c item)) (snd (validate c item)) =
  ({| processed_count := processed_count c + 1 + 1;
      error_count := error_count (fst (validate c item)) |},
   snd (validate c item)).
Proof.
  rewrite (validate_valid (fst (validate c item))).
  - f_equal. f_equal. unfold validate.
    destruct (fill_missing required_fields (error_count c) item).
    reflexivity.
  - rewrite snd_validate. apply valid_validate.
Qed.

Lemma has_set_other item k v (x : string) :
  key_eqb (lit_str x) (lit_str k) = false ->
  has (Pipelines.set k v item) x = has item x.
Proof.
  intros H. unfold has, dmem, Pipelines.set.
  rewrite dget_dset, H by reflexivity. reflexivity.
Qed.

Lemma fill_missing_count fields e item :
  ForallOrdPairs
    (fun a b => key_eqb (lit_str (fst b)) (lit_str (fst a)) = false) fields ->
  fst (fill_missing fields e item) =
  e + Z.of_nat (length (List.filter (fun kv => negb (has item (fst kv)))
                                    fields)).
Proof.
  intros Hd. revert e item.
  induction Hd as [|[k v] rest Hk Hd IH]; intros e item; simpl.
  - lia.
  - destruct (has item k) eqn:E; simpl.
    + apply IH.
    + rewrite IH. 
      assert (Heq : List.filter (fun kv => negb (has (Pipelines.set k v item) (fst kv))) rest
                    = List.filter (fun kv => negb (has item (fst kv))) rest).
      { clear IH Hd. induction rest as [|[k' v'] rest IH]; [reflexivity|].
        apply Forall_cons_iff in Hk as [Hk' Hk]. simpl in *.
        rewrite (has_set_other _ _ _ _ Hk'), (IH Hk). reflexivity. }
      rewrite Heq. lia.
Qed.

Lemma required_fields_distinct :
  ForallOrdPairs
    (fun a b => key_eqb (lit_str (fst b)) (lit_str (fst a)) = false)
    required_fields.
Proof. repeat constructor. Qed.

(** X2. Validation counts one processed item and exactly the required
    fields the item lacks. *)
Theorem validation_counts (c : counters) (item : dict) :
  fst (validate c item) =
  {| processed_count := processed_count c + 1;
     error_count := error_count c + missing item |} /\
  0 <= missing item <= 12.
Proof.
  split.
  - unfold validate.
    pose proof (fill_missing_count required_fields (error_count c) item
                  required_fields_distinct) as H.
    destruct (fill_missing required_fields (error_count c) item) as [e i].
    simpl in *. rewrite H. reflexivity.
  - unfold missing. split; [lia|].
    pose proof (filter_length_le
                  (fun kv => negb (has item (fst kv))) required_fields) as H.
    change (length required_fields) with 12%nat in H. lia.
Qed.

(** ** Extracted items and validation *)

Section Extracted.
Context {R : Runtime}.

Lemma price_data_shape d pd :
  _extract_price_data d = Ok pd -> exists c o tag, pd = price_record c o tag.
Proof.
  unfold _extract_price_data. intros H. bind_inv H; injection H as <-;
    eexists _, _, _; reflexivity.
Qed.

Lemma stock_shape d st :
  _extract_stock d = Ok st ->
  exists b n, st = [field "in_stock" (VBool b); field "count" (VInt n)].
Proof.
  unfold _extract_stock. intros H. bind_inv H. injection H as <-.
  eexists _, _. reflexivity.
Qed.

Lemma parsed_list_valid now v item :
  _parse_product_from_list now v = Ok (Some item) -> valid item = true.
Proof.
  unfold _parse_product_from_list. intros H.
  destruct (negb (truthy v)); [discriminate|].
  bind_inv H. injection H as <-.
  apply price_data_shape in E3 as (c & o & tag & ->).
  apply stock_shape in E4 as (b & n & ->).
  reflexivity.
Qed.

Lemma parsed_detail_valid now v l item :
  _parse_product_from_detail now v l = Ok (Some item) -> valid item = true.
Proof.
  unfold _parse_product_from_detail.
  destruct (negb (truthy v)); [apply parsed_list_valid|].
  intros H. bind_inv H. injection H as <-.
  apply price_data_shape in E4 as (c & o & tag & ->).
  apply stock_shape in E5 as (b & n & ->).
  reflexivity.
Qed.

(** X3. An item made by either extractor holds every required field with
    the type validation asks for: validation returns it unchanged and counts
    no missing field. *)
Theorem extracted_item_passes_validation
    (now : Z) (v l : value) (item : dict) (c : counters) :
  _parse_product_from_list now v = Ok (Some item) \/
  _parse_product_from_detail now v l = Ok (Some item) ->
  validate c item =
  ({| processed_count := processed_count c + 1;
      error_count := error_count c |}, item).
Proof.
  intros [H|H]; apply validate_valid;
    [eapply parsed_list_valid | eapply parsed_detail_valid]; exact H.
Qed.

End Extracted.

Lemma extracted_item_passes_validation_witness :
  exists item,
    _parse_product_from_list (R := Demo.runtime) 7 (VDict Demo.list_record)
    = Ok (Some item) /\
    validate {| processed_count := 0; error_count := 0 |} item =
    ({| processed_count := 1; error_count := 0 |}, item).
Proof.
  eexists. split; [vm_compute; reflexivity|].
  apply (extracted_item_passes_validation (R := Demo.runtime) 7
           (VDict Demo.list_record) VNone).
  left. vm_compute. reflexivity.
Defined.

(** ** The shape of a cleaned item *)

Section Cleaned.
Context {R : Runtime}.

Lemma has_set k v d (x : string) :
  has (Pipelines.set k v d) x = key_eqb (lit_str x) (lit_str k) || has d x.
Proof.
  unfold has, dmem. rewrite dget_set.
  destruct (key_eqb (lit_str x) (lit_str k)); reflexivity.
Qed.

Lemma list_at_set k v d (x : string) :
  list_at (Pipelines.set k v d) x =
  if key_eqb (lit_str x) (lit_str k) then is_list v else list_at d x.
Proof.
  unfold list_at. rewrite dget_set.
  destruct (key_eqb (lit_str x) (lit_str k)); [destruct v|]; reflexivity.
Qed.

Lemma float_at_set k v d (x : string) :
  float_at (Pipelines.set k v d) x =
  if key_eqb (lit_str x) (lit_str k)
  then match v with VFloat _ => true | _ => false end
  else float_at d x.
Proof.
  unfold float_at. rewrite dget_set.
  destruct (key_eqb (lit_str x) (lit_str k)); [destruct v|]; reflexivity.
Qed.

Lemma int_at_set k v d (x : string) :
  int_at (Pipelines.set k v d) x =
  if key_eqb (lit_str x) (lit_str k)
  then match v with VInt _ => true | _ => false end
  else int_at d x.
Proof.
  unfold int_at. rewrite dget_set.
  destruct (key_eqb (lit_str x) (lit_str k)); [destruct v|]; reflexivity.
Qed.

(** The cleaning of a string field never removes or adds a field. *)
Lemma has_clean_string k item (x : string) :
  has (stripped_string k item) x = has item x.
Proof.
  unfold stripped_string.
  destruct (has item k) eqn:Ek; cbn [andb]; [|reflexivity].
  destruct (truthy (get item k)); [|reflexivity].
  rewrite has_set.
  destruct (key_eqb (lit_str x) (lit_str k)) eqn:E; [|reflexivity].
  unfold has, dmem in *. rewrite (dget_key_congr _ _ item E).
  destruct (dget (lit_str k) item); [reflexivity | discriminate].
Qed.

Lemma has_clean_strings item (x : string) :
  has (stripped_strings item) x = has item x.
Proof. unfold stripped_strings. rewrite !has_clean_string. reflexivity. Qed.

(** What each step leaves under the key it rewrites. *)
Lemma unique_list v w : unique v = Ok w -> exists ks, w = VList ks.
Proof.
  unfold unique. intros H. bind_inv H. injection H as <-. eauto.
Qed.

Lemma float_or_zero_float v w :
  float_or_zero v = Ok w -> exists f, w = VFloat f.
Proof.
  unfold float_or_zero. destruct (py_float v) as [f|[]]; intros [= <-]; eauto.
Qed.

Lemma int_or_zero_int v w : int_or_zero v = Ok w -> exists n, w = VInt n.
Proof.
  unfold int_or_zero. destruct (py_int v) as [n|[]]; intros [= <-]; eauto.
Qed.

Lemma clean_tags_at item item' :
  clean_tags item = Ok item' -> has item "marketing_tags" = true ->
  exists ks, dget (lit_str "marketing_tags") item' = Some (VList ks) /\
             unique (get item "marketing_tags") = Ok (VList ks).
Proof.
  unfold clean_tags. intros H Hh. rewrite Hh in H. bind_inv H.
  injection H as <-.
  destruct (unique_list _ _ E) as [ks ->]. exists ks.
  rewrite dget_set. eval_keys. split; reflexivity.
Qed.

Lemma convert_in_at k sub f item item' d x :
  dget (lit_str k) item = Some (VDict d) ->
  dget (lit_str sub) d = Some x ->
  convert_in k sub f item = Ok item' ->
  exists y, f x = Ok y /\
            dget (lit_str k) item' = Some (VDict (Pipelines.set sub y d)).
Proof.
  intros Hk Hs. unfold convert_in, get. fold_lit.
  rewrite Hk. cbn [lookup_in bind]. rewrite Hs. intros H.
  destruct (f x) as [y|]; cbn [bind] in H; [|discriminate].
  injection H as <-. exists y. split; [reflexivity|].
  unfold Pipelines.set at 1. rewrite dget_dset, key_eqb_refl by reflexivity.
  reflexivity.
Qed.

Lemma has_inv d k : has d k = true -> exists x, dget (lit_str k) d = Some x.
Proof.
  unfold has, dmem. destruct (dget (lit_str k) d); [eauto | discriminate].
Qed.

Lemma process_cleaned (item out : dict) :
  process item = Ok out -> cleaned out = true.
Proof.
  unfold process. intros H. apply clean_ok in H.
  pose proof (valid_validate item) as Hv.
  generalize dependent (validate_item item). clear item. intros item H Hv.
  bind_inv H.
  rename a into i1, a0 into i2, a1 into i3, a2 into i4, a3 into i5.
  rename E into E1, E0 into E2, E1 into E3, E2 into E4, E3 into E5.
  unfold valid in Hv. rewrite !andb_true_iff in Hv.
  destruct Hv as ((((((Hs & Ht) & Hsec) & Hp) & Hst) & Ha) & Hm).
  cbn [forallb] in Hs. rewrite !andb_true_iff in Hs.
  destruct Hs as (Hts & Hrpc & Hurl & Htitle & Hbrand & Hvar & _).
  apply list_at_inv in Hsec as [sec Hsec].
  apply dict_at_inv in Hp as (p & Hp & Hps), Hst as (s & Hst & Hss),
    Ha as (a & Ha & Has), Hm as (m & Hm & _).
  cbv beta in Hps, Hss, Has.
  rewrite !andb_true_iff in Hps. rewrite !andb_true_iff in Hss.
  rewrite !andb_true_iff in Has.
  destruct Hps as ((Hc & Ho) & Hsale), Hss as (Hin & Hcount),
    Has as ((Hsi & Hv3) & Hvid).
  (* the frames *)
  assert (F0 : forall x,
             key_eqb x (lit_str "RPC") = false ->
             key_eqb x (lit_str "url") = false ->
             key_eqb x (lit_str "title") = false ->
             key_eqb x (lit_str "brand") = false ->
             dget x (stripped_strings item) = dget x item)
    by (intros; apply dget_clean_strings; assumption).
  pose proof (fun x => clean_tags_frame _ _ x E1) as F1.
  pose proof (fun x => clean_images_frame _ _ x E2) as F2.
  pose proof (fun x => clean_prices_frame _ _ x E3) as F3.
  pose proof (fun x => clean_count_frame _ _ x E4) as F4.
  pose proof (fun x => clean_variants_frame _ _ x E5) as F5.
  pose proof (fun x => clean_metadata_frame _ _ x H) as F6.
  (* tags *)
  destruct (clean_tags_at _ _ E1) as (ks & Hks & _).
  { rewrite has_clean_strings. apply list_at_has. exact Ht. }
  assert (Otags : dget (lit_str "marketing_tags") out = Some (VList ks)).
  { rewrite F6, F5, F4, F3, F2 by reflexivity. exact Hks. }
  (* section *)
  assert (Osec : dget (lit_str "section") out = Some (VList sec)).
  { rewrite F6, F5, F4, F3, F2, F1, F0 by reflexivity. exact Hsec. }
  (* assets *)
  assert (Ha1 : dget (lit_str "assets") i1 = Some (VDict a)).
  { rewrite F1, F0 by reflexivity. exact Ha. }
  destruct (list_at_inv _ _ Hsi) as [imgs Himgs].
  unfold clean_images, has, dmem in E2. rewrite Ha1 in E2.
  destruct (convert_in_at _ _ _ _ _ _ _ Ha1 Himgs E2) as (y & Hy & Ha2).
  destruct (unique_list _ _ Hy) as [ks2 ->].
  assert (Oassets : dget (lit_str "assets") out
                    = Some (VDict (Pipelines.set "set_images" (VList ks2) a))).
  { rewrite F6, F5, F4, F3 by reflexivity. exact Ha2. }
  (* prices *)
  assert (Hp2 : dget (lit_str "price_data") i2 = Some (VDict p)).
  { rewrite F2, F1, F0 by reflexivity. exact Hp. }
  unfold clean_prices, has, dmem in E3. rewrite Hp2 in E3. bind_inv E3.
  destruct (has_inv _ _ Hc) as [c0 Hc0].
  destruct (convert_in_at _ _ _ _ _ _ _ Hp2 Hc0 E) as (yc & Hyc & Hpa).
  destruct (float_or_zero_float _ _ Hyc) as [c ->].
  assert (Ho0 : exists o0, dget (lit_str "original")
                             (Pipelines.set "current" (VFloat c) p) = Some o0).
  { apply has_inv. rewrite has_set, Ho. apply orb_true_r. }
  destruct Ho0 as [o0 Ho0].
  destruct (convert_in_at _ _ _ _ _ _ _ Hpa Ho0 E3) as (yo & Hyo & Hp3).
  destruct (float_or_zero_float _ _ Hyo) as [o ->].
  assert (Oprice : dget (lit_str "price_data") out
                   = Some (VDict (Pipelines.set "original" (VFloat o)
                                    (Pipelines.set "current" (VFloat c) p)))).
  { rewrite F6, F5, F4 by reflexivity. exact Hp3. }
  (* stock *)
  assert (Hs3 : dget (lit_str "stock") i3 = Some (VDict s)).
  { rewrite F3, F2, F1, F0 by reflexivity. exact Hst. }
  unfold clean_count, has, dmem in E4. rewrite Hs3 in E4.
  destruct (has_inv _ _ Hcount) as [n0 Hn0].
  destruct (convert_in_at _ _ _ _ _ _ _ Hs3 Hn0 E4) as (yn & Hyn & Hs4).
  destruct (int_or_zero_int _ _ Hyn) as [n ->].
  assert (Ostock : dget (lit_str "stock") out
                   = Some (VDict (Pipelines.set "count" (VInt n) s))).
  { rewrite F6, F5 by reflexivity. exact Hs4. }
  (* variants *)
  assert (Hv4 : has i4 "variants" = true).
  { unfold has, dmem. rewrite F4, F3, F2, F1, F0 by reflexivity. exact Hvar. }
  unfold clean_variants in E5. rewrite Hv4 in E5. bind_inv E5.
  injection E5 as <-.
  destruct (int_or_zero_int _ _ E0) as [vn ->].
  assert (Ovar : dget (lit_str "variants") out = Some (VInt vn)).
  { rewrite F6 by reflexivity. rewrite dget_set. eval_keys. reflexivity. }
  (* metadata *)
  assert (Hm5 : dget (lit_str "metadata")
                  (Pipelines.set "variants" (VInt vn) i4) = Some (VDict m)).
  { rewrite dget_set. eval_keys. cbv iota.
    rewrite F4, F3, F2, F1, F0 by reflexivity. exact Hm. }
  unfold clean_metadata, has, dmem, get in H. fold_lit.
  change (VStr (u "metadata")) with (lit_str "metadata") in H.
  rewrite Hm5 in H. cbn [as_dict bind] in H.
  assert (Ometa : dget (lit_str "metadata") out
                  = Some (VDict (List.filter
                                   (fun kv => negb (is_none (snd kv))) m))).
  { injection H as <-. rewrite dget_set. eval_keys. reflexivity. }
  (* the scalars *)
  assert (Oscalar : forall k : string,
             key_eqb (lit_str k) (lit_str "metadata") = false ->
             key_eqb (lit_str k) (lit_str "variants") = false ->
             key_eqb (lit_str k) (lit_str "stock") = false ->
             key_eqb (lit_str k) (lit_str "price_data") = false ->
             key_eqb (lit_str k) (lit_str "assets") = false ->
             key_eqb (lit_str k) (lit_str "marketing_tags") = false ->
             has item k = true -> has out k = true).
  { intros k K1 K2 K3 K4 K5 K6 Hk. unfold has, dmem.
    rewrite F6 by exact K1.
    rewrite dget_set, K2.
    rewrite F4, F3, F2, F1 by assumption.
    pose proof (has_clean_strings item k) as Hcs. unfold has, dmem in Hcs.
    rewrite Hcs. exact Hk. }
  unfold cleaned, valid, list_at, dict_at, float_at, int_at.
  cbn [forallb].
  rewrite !Oscalar by (assumption || reflexivity).
  unfold has at 1, dmem.
  rewrite Otags, Osec, Oassets, Oprice, Ostock, Ovar, Ometa.
  cbn [andb].
  rewrite !has_set, !dget_set. eval_keys. cbn [andb orb].
  rewrite Hsale, Hin.
  change (match dget (lit_str "view360") a with
          | Some (VList _) => true | _ => false end) with (list_at a "view360").
  change (match dget (lit_str "video") a with
          | Some (VList _) => true | _ => false end) with (list_at a "video").
  rewrite Hv3, Hvid. cbn [andb].
  clear. induction m as [|[k v] m IH]; [reflexivity|]. simpl.
  destruct (is_none v) eqn:E; simpl; [exact IH | rewrite E, IH; reflexivity].
Qed.

(** X4. A product that has passed both pipelines has the shape the export
    relies on: the twelve fields, lists for the tags, the section and the
    three asset sequences, maps for the four groups with their nested
    fields, floats for the two prices, integers for the count and the
    variants, and no null among the metadata values. *)
Theorem pipeline_output_shape (item out : dict) :
  process item = Ok out -> cleaned out = true.
Proof. apply process_cleaned. Qed.

End Cleaned.

Lemma pipeline_output_shape_witness :
  exists out,
    process (R := Demo.runtime) Demo.untyped_item = Ok out /\
    cleaned out = true.
Proof.
  eexists. split; [vm_compute; reflexivity|].
  apply (pipeline_output_shape (R := Demo.runtime) Demo.untyped_item).
  vm_compute. reflexivity.
Defined.

(** ** How the pipelines fail *)

Section Failures.
Context {R : Runtime}.

Lemma fromkeys_raise xs keys e :
  fromkeys xs keys = Raise e ->
  e = TypeError /\ exists x, x ∈ xs /\ hashable x = false.
Proof.
  revert keys. induction xs as [|x xs IH]; intros keys; simpl; [discriminate|].
  destruct (hashable x) eqn:Hx.
  - intros H. apply IH in H as (-> & y & Hy & Hh). split; [reflexivity|].
    exists y. split; [right; exact Hy | exact Hh].
  - intros [= <-]. split; [reflexivity|]. exists x. split; [left | exact Hx].
Qed.

Lemma unique_list_raise l e :
  unique (VList l) = Raise e ->
  e = TypeError /\ exists x, x ∈ l /\ hashable x = false.
Proof.
  unfold unique. cbn [py_iter bind].
  destruct (fromkeys l []) eqn:E; cbn [bind]; [discriminate|].
  intros [= <-]. apply (fromkeys_raise _ _ _ E).
Qed.

Lemma float_or_zero_raise v e : float_or_zero v = Raise e -> e = OverflowError.
Proof.
  unfold float_or_zero, py_float, float_of_Z.
  destruct v as [| |n|f|s|l|d]; try discriminate.
  - destruct (binary_normalize 53 1024 n 0 false); try discriminate.
    intros [= <-]. reflexivity.
  - destruct (float_of_str s); discriminate.
Qed.

Lemma int_or_zero_raise v e : int_or_zero v = Raise e -> e = OverflowError.
Proof.
  unfold int_or_zero, py_int, trunc_float.
  destruct v as [| |n|f|s|l|d]; try discriminate.
  - destruct f; try discriminate. intros [= <-]. reflexivity.
  - destruct (int_of_str s); discriminate.
Qed.

Lemma convert_in_raise k sub f item d e :
  dget (lit_str k) item = Some (VDict d) ->
  convert_in k sub f item = Raise e ->
  exists x, dget (lit_str sub) d = Some x /\ f x = Raise e.
Proof.
  intros Hk. unfold convert_in, get. fold_lit. rewrite Hk.
  cbn [lookup_in bind].
  destruct (dget (lit_str sub) d) as [x|]; [|discriminate].
  destruct (f x) eqn:E; cbn [bind]; [discriminate|].
  intros [= <-]. eauto.
Qed.

Lemma convert_in_dict k sub f item item' d :
  dget (lit_str k) item = Some (VDict d) ->
  convert_in k sub f item = Ok item' ->
  exists d', dget (lit_str k) item' = Some (VDict d').
Proof.
  intros Hk. unfold convert_in, get. fold_lit. rewrite Hk.
  cbn [lookup_in bind].
  destruct (dget (lit_str sub) d) as [x|].
  - destruct (f x); cbn [bind]; [|discriminate].
    intros [= <-]. eexists. rewrite dget_set, key_eqb_refl by reflexivity.
    reflexivity.
  - intros [= <-]. eauto.
Qed.

Lemma clean_string_raise k item e :
  clean_string k item = Raise e ->
  e = ValueError /\ str_fits (get item k) = false.
Proof.
  unfold clean_string, py_str_limited.
  destruct (has item k && truthy (get item k)); [|discriminate].
  destruct (str_fits (get item k)); cbn [bind]; [discriminate|].
  intros [= <-]. split; reflexivity.
Qed.

Lemma clean_strings_raise item e :
  clean_strings item = Raise e ->
  e = ValueError /\
  exists k, In k ["RPC"; "url"; "title"; "brand"]%string /\
            str_fits (get item k) = false.
Proof.
  unfold clean_strings. intros H.
  destruct (clean_string "RPC" item) as [i1|e1] eqn:E1; cbn [bind] in H.
  2:{ injection H as <-. apply clean_string_raise in E1 as [-> E1].
      split; [reflexivity|]. exists "RPC"%string. simpl. tauto. }
  apply clean_string_ok in E1. subst i1.
  destruct (clean_string "url" _) as [i2|e2] eqn:E2; cbn [bind] in H.
  2:{ injection H as <-. apply clean_string_raise in E2 as [-> E2].
      split; [reflexivity|]. exists "url"%string. split; [simpl; tauto|].
      unfold get in *. fold_lit.
      rewrite dget_clean_string in E2 by reflexivity. exact E2. }
  apply clean_string_ok in E2. subst i2.
  destruct (clean_string "title" _) as [i3|e3] eqn:E3; cbn [bind] in H.
  2:{ injection H as <-. apply clean_string_raise in E3 as [-> E3].
      split; [reflexivity|]. exists "title"%string. split; [simpl; tauto|].
      unfold get in *. fold_lit.
      rewrite !dget_clean_string in E3 by reflexivity. exact E3. }
  apply clean_string_ok in E3. subst i3.
  apply clean_string_raise in H as [-> H].
  split; [reflexivity|]. exists "brand"%string. split; [simpl; tauto|].
  unfold get in *. fold_lit.
  rewrite !dget_clean_string in H by reflexivity. exact H.
Qed.


End Failures.


Import ObsStrings.

(** ** Trimmed strings *)

Section Trimmed.
Context {R : Runtime}.

Lemma lstrip_head s :
  match lstrip s with c :: _ => is_space c = false | [] => True end.
Proof.
  induction s as [|c s IH]; simpl; [exact I|].
  destruct (is_space c) eqn:E; [exact IH | exact E].
Qed.

Lemma lstrip_suffix s : exists sp, s = sp ++ lstrip s.
Proof.
  induction s as [|c s [sp IH]]; simpl; [exists []; reflexivity|].
  destruct (is_space c).
  - exists (c :: sp). simpl. rewrite <- IH. reflexivity.
  - exists []. reflexivity.
Qed.

Lemma strip_trimmed s : trimmed (strip s) = true.
Proof.
  unfold trimmed, strip. rewrite rev_involutive.
  apply andb_true_intro. split.
  - destruct (lstrip_suffix (rev (lstrip s))) as [sp Hsp].
    pose proof (lstrip_head s) as Hh.
    apply (f_equal (@rev _)) in Hsp. rewrite rev_involutive, rev_app_distr in Hsp.
    destruct (rev (lstrip (rev (lstrip s)))) as [|c t]; [reflexivity|].
    rewrite Hsp in Hh. simpl in Hh. rewrite Hh. reflexivity.
  - pose proof (lstrip_head (rev (lstrip s))) as Hh.
    destruct (lstrip (rev (lstrip s))); [reflexivity|].
    rewrite Hh. reflexivity.
Qed.

Lemma dget_clean_string_at k item :
  dget (lit_str k) (stripped_string k item) =
  if has item k && truthy (get item k)
  then Some (VStr (strip (py_str (get item k))))
  else dget (lit_str k) item.
Proof.
  unfold stripped_string.
  destruct (has item k && truthy (get item k)); [|reflexivity].
  rewrite dget_set, key_eqb_refl by reflexivity. reflexivity.
Qed.

Lemma dget_clean_strings_at item (k : string) :
  In k ["RPC"; "url"; "title"; "brand"]%string ->
  dget (lit_str k) (stripped_strings item) =
  if has item k && truthy (get item k)
  then Some (VStr (strip (py_str (get item k))))
  else dget (lit_str k) item.
Proof.
  intros Hk. unfold stripped_strings. simpl in Hk.
  destruct Hk as [<- | [<- | [<- | [<- | []]]]].
  - rewrite !dget_clean_string by reflexivity. apply dget_clean_string_at.
  - rewrite !dget_clean_string by reflexivity. rewrite dget_clean_string_at.
    unfold has, dmem, get. fold_lit.
    rewrite !dget_clean_string by reflexivity. reflexivity.
  - rewrite !dget_clean_string by reflexivity. rewrite dget_clean_string_at.
    unfold has, dmem, get. fold_lit.
    rewrite !dget_clean_string by reflexivity. reflexivity.
  - rewrite dget_clean_string_at.
    unfold has, dmem, get. fold_lit.
    rewrite !dget_clean_string by reflexivity. reflexivity.
Qed.

(** X6. After cleaning, each of the four string fields that was present and
    truthy holds the text of its value with the whitespace at both ends
    removed; a field that was absent or falsy is left as it was. *)
Theorem cleaned_strings_trimmed (item out : dict) (k : string) :
  clean item = Ok out ->
  In k ["RPC"; "url"; "title"; "brand"]%string ->
  if has item k && truthy (get item k)
  then get out k = VStr (strip (py_str (get item k))) /\
       trimmed (strip (py_str (get item k))) = true
  else dget (lit_str k) out = dget (lit_str k) item.
Proof.
  intros H Hk. apply clean_ok in H. bind_inv H.
  assert (Hout : dget (lit_str k) out = dget (lit_str k) (stripped_strings item)).
  { simpl in Hk.
    destruct Hk as [<- | [<- | [<- | [<- | []]]]];
      rewrite (clean_metadata_frame _ _ _ H) by reflexivity;
      rewrite (clean_variants_frame _ _ _ E3) by reflexivity;
      rewrite (clean_count_frame _ _ _ E2) by reflexivity;
      rewrite (clean_prices_frame _ _ _ E1) by reflexivity;
      rewrite (clean_images_frame _ _ _ E0) by reflexivity;
      rewrite (clean_tags_frame _ _ _ E) by reflexivity; reflexivity. }
  rewrite (dget_clean_strings_at item k Hk) in Hout.
  destruct (has item k && truthy (get item k)).
  - split; [|apply strip_trimmed].
    unfold get at 1. fold_lit. rewrite Hout. reflexivity.
  - exact Hout.
Qed.

End Trimmed.

Lemma cleaned_strings_trimmed_witness :
  exists out,
    clean (R := Demo.runtime) [field "title" (lit_str "  Вино  ")] = Ok out /\
    get out "title" = lit_str "Вино".
Proof.
  eexists. split; [vm_compute; reflexivity|].
  match goal with
  | |- get ?out _ = _ =>
    pose proof (cleaned_strings_trimmed (R := Demo.runtime)
                  [field "title" (lit_str "  Вино  ")] out "title" eq_refl
                  (or_intror (or_intror (or_introl eq_refl)))) as H
  end.
  assert (Hc : has [field "title" (lit_str "  Вино  ")] "title" &&
               truthy (get [field "title" (lit_str "  Вино  ")] "title") = true)
    by (vm_compute; reflexivity).
  rewrite Hc in H. destruct H as [H _]. rewrite H. vm_compute. reflexivity.
Defined.

(** ** Cleaning twice *)

Section Idempotent.
Context {R : Runtime}.

Lemma lstrip_id s :
  match s with c :: _ => is_space c = false | [] => True end -> lstrip s = s.
Proof. destruct s as [|c s]; simpl; [reflexivity|]. intros ->. reflexivity. Qed.

Lemma strip_idempotent s : strip (strip s) = strip s.
Proof.
  pose proof (strip_trimmed s) as H. unfold trimmed in H.
  apply andb_true_iff in H as [H1 H2].
  assert (A : lstrip (strip s) = strip s).
  { apply lstrip_id. destruct (strip s); [exact I|].
    apply negb_true_iff. exact H1. }
  assert (B : lstrip (rev (strip s)) = rev (strip s)).
  { apply lstrip_id. destruct (rev (strip s)); [exact I|].
    apply negb_true_iff. exact H2. }
  unfold strip at 1. rewrite A, B. apply rev_involutive.
Qed.

(** A string field that cleaning leaves alone. *)
Lemma clean_string_fixed k x :
  match dget (lit_str k) x with
  | None => True
  | Some v => truthy v = false \/ exists t, v = VStr t /\ strip t = t
  end ->
  stripped_string k x = x.
Proof.
  unfold stripped_string, has, dmem, get. fold_lit.
  destruct (dget (lit_str k) x) as [v|] eqn:E; [|reflexivity].
  intros [Hf | (t & -> & Ht)].
  - rewrite Hf. reflexivity.
  - cbn [andb]. destruct (truthy (VStr t)); [|reflexivity].
    cbn [py_str]. rewrite Ht. apply dset_same. exact E.
Qed.

Lemma clean_string_settled k x :
  match dget (lit_str k) (stripped_string k x) with
  | None => True
  | Some v => truthy v = false \/ exists t, v = VStr t /\ strip t = t
  end.
Proof.
  rewrite dget_clean_string_at. unfold has, dmem, get. fold_lit.
  destruct (dget (lit_str k) x) as [v|]; cbn [andb]; [|exact I].
  destruct (truthy v) eqn:E; [|left; exact E].
  right. eexists. split; [reflexivity | apply strip_idempotent].
Qed.

Lemma clean_strings_fixed x :
  (forall k, In k ["RPC"; "url"; "title"; "brand"]%string ->
     match dget (lit_str k) x with
     | None => True
     | Some v => truthy v = false \/ exists t, v = VStr t /\ strip t = t
     end) ->
  stripped_strings x = x.
Proof.
  intros H. unfold stripped_strings.
  rewrite (clean_string_fixed "RPC") by (apply H; simpl; tauto).
  rewrite (clean_string_fixed "url") by (apply H; simpl; tauto).
  rewrite (clean_string_fixed "title") by (apply H; simpl; tauto).
  apply clean_string_fixed. apply H. simpl. tauto.
Qed.

(** Then the conversion to text does not fail either. *)
Lemma clean_string_same k x :
  match dget (lit_str k) x with
  | None => True
  | Some v => truthy v = false \/ exists t, v = VStr t /\ strip t = t
  end ->
  clean_string k x = Ok x.
Proof.
  unfold clean_string, py_str_limited, has, dmem, get. fold_lit.
  destruct (dget (lit_str k) x) as [v|] eqn:E; [|reflexivity].
  intros [Hf | (t & -> & Ht)].
  - rewrite Hf. reflexivity.
  - cbn [andb]. destruct (truthy (VStr t)); [|reflexivity].
    cbn [str_fits bind py_str]. rewrite Ht. f_equal. apply dset_same. exact E.
Qed.

Lemma clean_strings_same x :
  (forall k, In k ["RPC"; "url"; "title"; "brand"]%string ->
     match dget (lit_str k) x with
     | None => True
     | Some v => truthy v = false \/ exists t, v = VStr t /\ strip t = t
     end) ->
  clean_strings x = Ok x.
Proof.
  intros H. unfold clean_strings.
  rewrite (clean_string_same "RPC") by (apply H; simpl; tauto). cbn [bind].
  rewrite (clean_string_same "url") by (apply H; simpl; tauto). cbn [bind].
  rewrite (clean_string_same "title") by (apply H; simpl; tauto). cbn [bind].
  apply clean_string_same. apply H. simpl. tauto.
Qed.

Lemma clean_strings_settled x (k : string) :
  In k ["RPC"; "url"; "title"; "brand"]%string ->
  match dget (lit_str k) (stripped_strings x) with
  | None => True
  | Some v => truthy v = false \/ exists t, v = VStr t /\ strip t = t
  end.
Proof.
  intros Hk. unfold stripped_strings. simpl in Hk.
  destruct Hk as [<- | [<- | [<- | [<- | []]]]].
  - rewrite !dget_clean_string by reflexivity. apply clean_string_settled.
  - rewrite !dget_clean_string by reflexivity. apply clean_string_settled.
  - rewrite !dget_clean_string by reflexivity. apply clean_string_settled.
  - apply clean_string_settled.
Qed.

(** Sequences without repeats are their own first occurrences. *)
Lemma fromkeys_fresh l acc :
  forallb hashable l = true ->
  forallb hashable acc = true ->
  (forall x, x ∈ l -> existsb (key_eqb x) acc = false) ->
  distinct l ->
  fromkeys l acc = Ok (acc ++ l).
Proof.
  revert acc. induction l as [|x l IH]; intros acc Hl Ha Hfresh Hd.
  - simpl. rewrite app_nil_r. reflexivity.
  - simpl in Hl. apply andb_true_iff in Hl as [Hx Hl]. simpl. rewrite Hx.
    rewrite (Hfresh x) by left.
    rewrite IH.
    + rewrite <- app_assoc. reflexivity.
    + exact Hl.
    + apply forallb_app_hashable; assumption.
    + intros y Hy. rewrite existsb_app.
      rewrite (Hfresh y) by (right; exact Hy).
      simpl. rewrite orb_false_r.
      assert (Hyh : hashable y = true).
      { rewrite forallb_forall in Hl. apply Hl. apply list_elem_of_In.
        exact Hy. }
      apply list_elem_of_lookup in Hy as [j Hj].
      rewrite <- py_same_key_eqb by assumption.
      apply (Hd (S j) 0%nat y x); [lia | exact Hj | reflexivity].
    + intros i j a b Hij Hi Hj.
      apply (Hd (S i) (S j) a b); [lia | exact Hi | exact Hj].
Qed.

Lemma fromkeys_again xs out :
  fromkeys xs [] = Ok out -> fromkeys out [] = Ok out.
Proof.
  intros H.
  destruct (fromkeys_first_occurrences xs [] out eq_refl H) as [Hh ->].
  simpl. apply (fromkeys_fresh _ []).
  - apply (sublist_hashable _ _ (first_occurrences_sublist [] xs) Hh).
  - reflexivity.
  - reflexivity.
  - apply first_occurrences_distinct. exact Hh.
Qed.

Lemma unique_again v w : unique v = Ok w -> unique w = Ok w.
Proof.
  unfold unique. intros H. bind_inv H. injection H as <-.
  cbn [py_iter bind]. rewrite (fromkeys_again _ _ E0). reflexivity.
Qed.

Lemma float_or_zero_again v w : float_or_zero v = Ok w -> float_or_zero w = Ok w.
Proof.
  intros H. destruct (float_or_zero_float _ _ H) as [f ->]. reflexivity.
Qed.

Lemma int_or_zero_again v w : int_or_zero v = Ok w -> int_or_zero w = Ok w.
Proof.
  intros H. destruct (int_or_zero_int _ _ H) as [n ->]. reflexivity.
Qed.

(** A nested field that a conversion leaves alone. *)
Lemma convert_in_fixed_point k sub f x :
  match dget (lit_str k) x with
  | None => False
  | Some (VDict d) =>
    match dget (lit_str sub) d with None => True | Some y => f y = Ok y end
  | Some v => lookup_in sub v = Ok None
  end ->
  convert_in k sub f x = Ok x.
Proof.
  unfold convert_in, get. fold_lit.
  destruct (dget (lit_str k) x) as [v|] eqn:E; [|tauto].
  destruct v; try (intros ->; reflexivity).
  cbn [lookup_in bind]. 
  destruct (dget (lit_str sub) d) as [y|] eqn:Es; [|reflexivity].
  intros ->. cbn [bind]. f_equal.
  unfold Pipelines.set. rewrite (dset_same _ _ _ Es). apply dset_same. exact E.
Qed.

Lemma convert_in_settled k sub f x y :
  (forall v w, f v = Ok w -> f w = Ok w) ->
  has x k = true ->
  convert_in k sub f x = Ok y ->
  match dget (lit_str k) y with
  | None => False
  | Some (VDict d) =>
    match dget (lit_str sub) d with None => True | Some y => f y = Ok y end
  | Some v => lookup_in sub v = Ok None
  end.
Proof.
  intros Hf. unfold has, dmem, convert_in, get. fold_lit.
  destruct (dget (lit_str k) x) as [v|] eqn:E; [|discriminate]. intros _.
  destruct v as [| |n|fl|st|l|d]; cbn [lookup_in bind]; try discriminate.
  - destruct (infixb (u sub) st) eqn:Ei; cbn [bind]; [discriminate|].
    intros [= <-]. rewrite E. cbn [lookup_in]. rewrite Ei. reflexivity.
  - destruct (py_in (lit_str sub) l) eqn:Ei; cbn [bind]; [discriminate|].
    intros [= <-]. rewrite E. cbn [lookup_in]. rewrite Ei. reflexivity.
  - destruct (dget (lit_str sub) d) as [v|] eqn:Es.
    + destruct (f v) as [w|] eqn:Ef; cbn [bind]; [|discriminate].
      intros [= <-]. rewrite dget_set, key_eqb_refl by reflexivity.
      rewrite dget_set, key_eqb_refl by reflexivity.
      apply (Hf _ _ Ef).
    + intros [= <-]. rewrite E, Es. exact I.
Qed.

(** A conversion of one nested field keeps what holds of another. *)
Lemma convert_in_keeps k sub sub' f g x y :
  key_eqb (lit_str sub) (lit_str sub') = false ->
  convert_in k sub' g x = Ok y ->
  match dget (lit_str k) x with
  | None => False
  | Some (VDict d) =>
    match dget (lit_str sub) d with None => True | Some y => f y = Ok y end
  | Some v => lookup_in sub v = Ok None
  end ->
  match dget (lit_str k) y with
  | None => False
  | Some (VDict d) =>
    match dget (lit_str sub) d with None => True | Some y => f y = Ok y end
  | Some v => lookup_in sub v = Ok None
  end.
Proof.
  intros Hne. unfold convert_in, get. fold_lit.
  destruct (dget (lit_str k) x) as [v|] eqn:E; [|tauto].
  destruct v as [| |n|fl|st|l|d]; cbn [lookup_in bind]; try discriminate.
  - destruct (infixb (u sub') st); cbn [bind]; [discriminate|].
    intros [= <-]. rewrite E. tauto.
  - destruct (py_in (lit_str sub') l); cbn [bind]; [discriminate|].
    intros [= <-]. rewrite E. tauto.
  - destruct (dget (lit_str sub') d) as [v|] eqn:Es.
    + destruct (g v) as [w|] eqn:Ef; cbn [bind]; [|discriminate].
      intros [= <-]. rewrite dget_set, key_eqb_refl by reflexivity.
      rewrite dget_set, Hne. tauto.
    + intros [= <-]. rewrite E. tauto.
Qed.

Lemma clean_tags_stable x :
  match dget (lit_str "marketing_tags") x with
  | None => True
  | Some v => unique v = Ok v
  end ->
  clean_tags x = Ok x.
Proof.
  unfold clean_tags, has, dmem, get. fold_lit.
  change (VStr (u "marketing_tags")) with (lit_str "marketing_tags").
  destruct (dget (lit_str "marketing_tags") x) as [v|] eqn:E; [|reflexivity].
  intros ->. cbn [bind]. f_equal. apply dset_same. exact E.
Qed.

Lemma clean_tags_settled x y :
  clean_tags x = Ok y ->
  match dget (lit_str "marketing_tags") y with
  | None => True
  | Some v => unique v = Ok v
  end.
Proof.
  unfold clean_tags, has, dmem, get. fold_lit.
  change (VStr (u "marketing_tags")) with (lit_str "marketing_tags").
  destruct (dget (lit_str "marketing_tags") x) as [v|] eqn:E.
  - destruct (unique v) as [w|] eqn:Eu; cbn [bind]; [|discriminate].
    intros [= <-]. rewrite dget_set, key_eqb_refl by reflexivity.
    apply (unique_again _ _ Eu).
  - intros [= <-]. rewrite E. exact I.
Qed.

Lemma clean_variants_stable x :
  match dget (lit_str "variants") x with
  | None => True
  | Some v => int_or_zero v = Ok v
  end ->
  clean_variants x = Ok x.
Proof.
  unfold clean_variants, has, dmem, get. fold_lit.
  change (VStr (u "variants")) with (lit_str "variants").
  destruct (dget (lit_str "variants") x) as [v|] eqn:E; [|reflexivity].
  intros ->. cbn [bind]. f_equal. apply dset_same. exact E.
Qed.

Lemma clean_variants_settled x y :
  clean_variants x = Ok y ->
  match dget (lit_str "variants") y with
  | None => True
  | Some v => int_or_zero v = Ok v
  end.
Proof.
  unfold clean_variants, has, dmem, get. fold_lit.
  change (VStr (u "variants")) with (lit_str "variants").
  destruct (dget (lit_str "variants") x) as [v|] eqn:E.
  - destruct (int_or_zero v) as [w|] eqn:Eu; cbn [bind]; [|discriminate].
    intros [= <-]. rewrite dget_set, key_eqb_refl by reflexivity.
    apply (int_or_zero_again _ _ Eu).
  - intros [= <-]. rewrite E. exact I.
Qed.

Lemma filter_again {A} (p : A -> bool) l :
  List.filter p (List.filter p l) = List.filter p l.
Proof.
  induction l as [|x l IH]; simpl; [reflexivity|].
  destruct (p x) eqn:E; simpl; [rewrite E, IH|]; auto.
Qed.

Lemma clean_metadata_stable x :
  match dget (lit_str "metadata") x with
  | None => True
  | Some v =>
    exists m, v = VDict m /\
              List.filter (fun kv => negb (is_none (snd kv))) m = m
  end ->
  clean_metadata x = Ok x.
Proof.
  unfold clean_metadata, has, dmem, get. fold_lit.
  change (VStr (u "metadata")) with (lit_str "metadata").
  destruct (dget (lit_str "metadata") x) as [v|] eqn:E; [|reflexivity].
  intros (m & -> & Hm). cbn [as_dict bind]. rewrite Hm. f_equal.
  apply dset_same. exact E.
Qed.

Lemma clean_metadata_settled x y :
  clean_metadata x = Ok y ->
  match dget (lit_str "metadata") y with
  | None => True
  | Some v =>
    exists m, v = VDict m /\
              List.filter (fun kv => negb (is_none (snd kv))) m = m
  end.
Proof.
  unfold clean_metadata, has, dmem, get. fold_lit.
  change (VStr (u "metadata")) with (lit_str "metadata").
  destruct (dget (lit_str "metadata") x) as [v|] eqn:E.
  - destruct (as_dict v) as [m|] eqn:Eu; cbn [bind]; [|discriminate].
    intros [= <-]. rewrite dget_set, key_eqb_refl by reflexivity.
    eexists. split; [reflexivity | apply filter_again].
  - intros [= <-]. rewrite E. exact I.
Qed.

(** The guarded conversion of a nested field. *)
Lemma guarded_stable k sub f x :
  match dget (lit_str k) x with
  | None => True
  | Some (VDict d) =>
    match dget (lit_str sub) d with None => True | Some y => f y = Ok y end
  | Some v => lookup_in sub v = Ok None
  end ->
  (if has x k then convert_in k sub f x else Ok x) = Ok x.
Proof.
  unfold has, dmem. intros H.
  destruct (dget (lit_str k) x) as [v|] eqn:E; [|reflexivity].
  apply convert_in_fixed_point. rewrite E. exact H.
Qed.

Lemma guarded_settled k sub f x y :
  (forall v w, f v = Ok w -> f w = Ok w) ->
  (if has x k then convert_in k sub f x else Ok x) = Ok y ->
  match dget (lit_str k) y with
  | None => True
  | Some (VDict d) =>
    match dget (lit_str sub) d with None => True | Some y => f y = Ok y end
  | Some v => lookup_in sub v = Ok None
  end.
Proof.
  intros Hf. destruct (has x k) eqn:Eh.
  - intros H. pose proof (convert_in_settled _ _ _ _ _ Hf Eh H) as Hs.
    destruct (dget (lit_str k) y); [exact Hs | exact I].
  - intros [= <-]. unfold has, dmem in Eh.
    destruct (dget (lit_str k) x); [discriminate | exact I].
Qed.

Lemma clean_again (item out : dict) :
  clean item = Ok out -> clean out = Ok out.
Proof.
  intros H. apply clean_ok in H. unfold clean. bind_inv H.
  rename a into i1, a0 into i2, a1 into i3, a2 into i4, a3 into i5.
  pose proof (fun x => clean_tags_frame _ _ x E) as F1.
  pose proof (fun x => clean_images_frame _ _ x E0) as F2.
  pose proof (fun x => clean_prices_frame _ _ x E1) as F3.
  pose proof (fun x => clean_count_frame _ _ x E2) as F4.
  pose proof (fun x => clean_variants_frame _ _ x E3) as F5.
  pose proof (fun x => clean_metadata_frame _ _ x H) as F6.
  (* strings *)
  assert (S : clean_strings out = Ok out).
  { apply clean_strings_same. intros k Hk.
    assert (Hout : dget (lit_str k) out = dget (lit_str k) (stripped_strings item)).
    { simpl in Hk.
      destruct Hk as [<- | [<- | [<- | [<- | []]]]];
        rewrite F6, F5, F4, F3, F2, F1 by reflexivity; reflexivity. }
    rewrite Hout. apply clean_strings_settled. exact Hk. }
  rewrite S. cbn [bind].
  (* tags *)
  rewrite clean_tags_stable.
  2:{ rewrite F6, F5, F4, F3, F2 by reflexivity.
      apply (clean_tags_settled _ _ E). }
  cbn [bind].
  (* images *)
  unfold clean_images at 1. rewrite guarded_stable.
  2:{ rewrite F6, F5, F4, F3 by reflexivity.
      apply (guarded_settled _ _ _ _ _ unique_again E0). }
  cbn [bind].
  (* prices *)
  assert (P : match dget (lit_str "price_data") i3 with
              | None => True
              | Some (VDict d) =>
                match dget (lit_str "current") d with
                | None => True | Some y => float_or_zero y = Ok y end /\
                match dget (lit_str "original") d with
                | None => True | Some y => float_or_zero y = Ok y end
              | Some v => lookup_in "current" v = Ok None /\
                          lookup_in "original" v = Ok None
              end).
  { unfold clean_prices in E1. destruct (has i2 "price_data") eqn:Eh.
    - bind_inv E1.
      pose proof (convert_in_settled _ _ _ _ _ float_or_zero_again Eh E4) as Hc.
      pose proof (convert_in_keeps "price_data" "current" "original"
                    float_or_zero float_or_zero _ _ eq_refl E1 Hc) as Hc'.
      assert (Eh' : has a "price_data" = true).
      { unfold has, dmem. destruct (dget (lit_str "price_data") a); [reflexivity | destruct Hc]. }
      pose proof (convert_in_settled _ _ _ _ _ float_or_zero_again Eh' E1) as Ho.
      destruct (dget (lit_str "price_data") i3) as [[]|]; tauto.
    - injection E1 as <-. unfold has, dmem in Eh.
      destruct (dget (lit_str "price_data") i2); [discriminate | exact I]. }
  assert (P' : clean_prices out = Ok out).
  { unfold clean_prices.
    assert (Hd : dget (lit_str "price_data") out = dget (lit_str "price_data") i3)
      by (rewrite F6, F5, F4 by reflexivity; reflexivity).
    unfold has, dmem. rewrite Hd.
    destruct (dget (lit_str "price_data") i3) as [v|] eqn:E3'; [|reflexivity].
    rewrite convert_in_fixed_point.
    - cbn [bind]. apply convert_in_fixed_point. rewrite Hd.
      destruct v; tauto.
    - rewrite Hd. destruct v; tauto. }
  rewrite P'. cbn [bind].
  (* count *)
  unfold clean_count at 1. rewrite guarded_stable.
  2:{ rewrite F6, F5 by reflexivity.
      apply (guarded_settled _ _ _ _ _ int_or_zero_again E2). }
  cbn [bind].
  (* variants *)
  rewrite clean_variants_stable.
  2:{ rewrite F6 by reflexivity. apply (clean_variants_settled _ _ E3). }
  cbn [bind].
  (* metadata *)
  apply clean_metadata_stable. apply (clean_metadata_settled _ _ H).
Qed.

Lemma validate_item_valid item : valid item = true -> validate_item item = item.
Proof.
  intros H. unfold validate_item. rewrite (validate_valid _ _ H). reflexivity.
Qed.

Lemma cleaned_valid item : cleaned item = true -> valid item = true.
Proof.
  unfold cleaned. rewrite !andb_true_iff. tauto.
Qed.

Lemma pipelines_again (item out : dict) :
  clean (validate_item item) = Ok out ->
  forall c,
    validate c out = ({| processed_count := processed_count c + 1;
                         error_count := error_count c |}, out) /\
    clean (validate_item out) = Ok out.
Proof.
  intros H c.
  pose proof (cleaned_valid _ (process_cleaned item out H)) as Hv.
  split; [apply validate_valid; exact Hv|].
  rewrite (validate_item_valid _ Hv). exact (clean_again _ _ H).
Qed.

(** X7. Cleaning is idempotent: an item that has passed the cleaning stage
    passes it again unchanged.  So are the two pipelines together: what
    they return passes validation with no field counted missing and
    cleaning with nothing changed. *)
Theorem cleaning_idempotent (item out : dict) :
  (clean item = Ok out -> clean out = Ok out) /\
  (process item = Ok out ->
   forall c,
     validate c out = ({| processed_count := processed_count c + 1;
                          error_count := error_count c |}, out) /\
     process out = Ok out).
Proof.
  split; [apply clean_again | apply pipelines_again].
Qed.

End Idempotent.

Lemma cleaning_idempotent_witness :
  exists out,
    clean (R := Demo.runtime) Demo.repeated_item = Ok out /\
    clean (R := Demo.runtime) out = Ok out.
Proof.
  eexists. split; [vm_compute; reflexivity|].
  match goal with
  | |- clean ?out = _ =>
    destruct (cleaning_idempotent (R := Demo.runtime) Demo.repeated_item out)
      as [H _]
  end.
  apply H. vm_compute. reflexivity.
Defined.

Import ObsTags.

(** ** Variants *)

Section Variants.

Lemma count_variants_loop_range blocks volumes n :
  count_variants_loop blocks volumes = Ok n -> n = 0 \/ 2 <= n.
Proof.
  revert volumes. induction blocks as [|b rest IH]; intros volumes; simpl.
  - intros [= <-]. destruct (1 <? length volumes)%nat eqn:E; [right | left; reflexivity].
    apply Nat.ltb_lt in E. lia.
  - intros H. bind_inv H.
    + injection H as <-. right. lia.
    + eapply IH. exact H.
    + eapply IH. exact H.
    + eapply IH. exact H.
Qed.

(** X8. The number of variants of a detail record is never 1 and never
    negative: it is 0, or at least 2. *)
Theorem variants_never_one (d : dict) (n : Z) :
  _count_variants d = Ok n -> n = 0 \/ 2 <= n.
Proof.
  unfold _count_variants. intros H. bind_inv H.
  eapply count_variants_loop_range. exact H.
Qed.

End Variants.

Lemma variants_never_one_witness :
  _count_variants Examples.ranged_record = Ok 2 /\ (2 = 0 \/ 2 <= 2).
Proof.
  split; [vm_compute; reflexivity|].
  apply (variants_never_one Examples.ranged_record). vm_compute. reflexivity.
Defined.

(** ** Marketing tags *)

Section Tags.

Lemma no_repeats_snoc l x :
  no_repeats l = true -> py_in x l = false -> no_repeats (l ++ [x]) = true.
Proof.
  induction l as [|y l IH]; simpl; [reflexivity|].
  intros H Hin. apply andb_true_iff in H as [Hy Hl].
  apply orb_false_iff in Hin as [Hyx Hin].
  rewrite forallb_app, Hy. simpl. rewrite Hyx. simpl. apply IH; assumption.
Qed.

Lemma add_action_label_no_repeats tags label :
  no_repeats tags = true -> no_repeats (add_action_label tags label) = true.
Proof.
  intros H. unfold add_action_label. destruct label; try exact H.
  match goal with
  | |- context [truthy ?n && negb (py_in ?n tags)] =>
    destruct (truthy n); cbn [andb]; [|exact H];
    destruct (py_in n tags) eqn:E; cbn [negb]; [exact H|];
    apply no_repeats_snoc; assumption
  end.
Qed.

Lemma add_filter_tag_no_repeats tags label :
  no_repeats tags = true -> no_repeats (add_filter_tag tags label) = true.
Proof.
  intros H. unfold add_filter_tag. destruct label; try exact H.
  destruct (py_eq _ _); [|exact H].
  match goal with
  | |- context [truthy ?n && negb (py_in ?n tags)] =>
    destruct (truthy n); cbn [andb]; [|exact H];
    destruct (py_in n tags) eqn:E; cbn [negb]; [exact H|];
    apply no_repeats_snoc; assumption
  end.
Qed.

Lemma fold_no_repeats (f : list value -> value -> list value) labels tags :
  (forall t l, no_repeats t = true -> no_repeats (f t l) = true) ->
  no_repeats tags = true -> no_repeats (fold_left f labels tags) = true.
Proof.
  intros Hf. revert tags. induction labels as [|l labels IH]; intros tags H;
    simpl; [exact H|].
  apply IH. apply Hf. exact H.
Qed.

Lemma extract_tags_no_repeats d tags :
  _extract_marketing_tags d = Ok tags -> no_repeats tags = true.
Proof.
  unfold _extract_marketing_tags. cbv zeta. intros H. bind_inv H.
  injection H as <-. apply fold_no_repeats; [apply add_action_label_no_repeats|].
  unfold flag.
  destruct (truthy (get d "new")), (truthy (get d "recomended")),
    (truthy (get d "axioma")), (truthy (get d "enogram")),
    (truthy (get d "gift_package")); vm_compute; reflexivity.
Qed.

Lemma detail_tags_no_repeats d tags :
  detail_marketing_tags d = Ok tags -> no_repeats tags = true.
Proof.
  unfold detail_marketing_tags. intros H. bind_inv H. injection H as <-.
  apply fold_no_repeats; [apply add_filter_tag_no_repeats|].
  eapply extract_tags_no_repeats. exact E.
Qed.

Lemma no_repeats_distinct l :
  forallb hashable l = true -> no_repeats l = true -> distinct l.
Proof.
  induction l as [|x l IH]; simpl.
  - intros _ _ i j a b _ H. rewrite lookup_nil in H. discriminate.
  - intros Hh H. apply andb_true_iff in Hh as [Hx Hh].
    apply andb_true_iff in H as [Hfresh H].
    rewrite forallb_forall in Hfresh, Hh.
    assert (Hrest : forall y, y ∈ l -> py_same x y = false /\ py_same y x = false).
    { intros y Hy. apply list_elem_of_In in Hy.
      pose proof (Hfresh y Hy) as Hf. apply negb_true_iff in Hf.
      split; [exact Hf|]. rewrite py_same_sym; [exact Hf | apply Hh; exact Hy | exact Hx]. }
    intros [|i] [|j] a b Hij Ha Hb; simpl in *.
    + congruence.
    + injection Ha as <-. apply Hrest. apply list_elem_of_lookup. eauto.
    + injection Hb as <-. apply Hrest. apply list_elem_of_lookup. eauto.
    + apply (IH (proj2 (forallb_forall _ _) Hh) H i j); auto.
Qed.

(** X9. The marketing tags an extractor returns hold no entry twice: every
    name is checked against the tags gathered so far before it is added.
    So when the tags are hashable (strings, as the API sends them), the
    deduplication of the cleaning stage returns them as they are. *)
Theorem extracted_tags_no_repeats (d : dict) (tags : list value) :
  _extract_marketing_tags d = Ok tags \/ detail_marketing_tags d = Ok tags ->
  no_repeats tags = true /\
  (forallb hashable tags = true -> unique (VList tags) = Ok (VList tags)).
Proof.
  intros H.
  assert (Hn : no_repeats tags = true)
    by (destruct H; [eapply extract_tags_no_repeats | eapply detail_tags_no_repeats]; eauto).
  split; [exact Hn|]. intros Hh.
  unfold unique. cbn [py_iter bind].
  rewrite (fromkeys_fresh tags []); [reflexivity | exact Hh | reflexivity | reflexivity |].
  apply no_repeats_distinct; assumption.
Qed.

End Tags.

Lemma extracted_tags_no_repeats_witness :
  _extract_marketing_tags Examples.tagged_record
  = Ok [lit_str "Новинка"; lit_str "Акция"] /\
  no_repeats [lit_str "Новинка"; lit_str "Акция"] = true.
Proof.
  split; [vm_compute; reflexivity|].
  apply (extracted_tags_no_repeats Examples.tagged_record).
  left. vm_compute. reflexivity.
Defined.

Import ObsCounts.

(** ** The product counter *)

Section Accounting.
Context {R : Runtime}.

Lemma items_of_app e1 e2 : items_of (e1 ++ e2) = items_of e1 ++ items_of e2.
Proof. unfold items_of. apply omap_app. Qed.

Lemma requests_of_app e1 e2 :
  requests_of (e1 ++ e2) = requests_of e1 ++ requests_of e2.
Proof. unfold requests_of. apply omap_app. Qed.

Lemma counts_done : counts_items done.
Proof. intros s. simpl. lia. Qed.

Lemma counts_log l : counts_items (log l).
Proof. intros s. simpl. lia. Qed.

Lemma counts_request r : counts_items (emit (YieldRequest r)).
Proof. intros s. simpl. lia. Qed.

Lemma counts_throw x : counts_items (throw x).
Proof. intros s. simpl. lia. Qed.

Lemma counts_set_city v : counts_items (set_city_uuid v).
Proof. intros s. simpl. lia. Qed.

Lemma counts_found_city c : counts_items (found_city c).
Proof. intros s. simpl. lia. Qed.

Lemma counts_andthen g1 g2 :
  counts_items g1 -> counts_items g2 -> counts_items (g1 >>> g2).
Proof.
  intros H1 H2 s. unfold andthen. specialize (H1 s).
  destruct (raised (g1 s)); [exact H1|]. simpl.
  rewrite items_of_app, length_app, (H2 (final (g1 s))), H1. lia.
Qed.

Lemma counts_read k : (forall s, counts_items (k s)) -> counts_items (read k).
Proof. intros H s. apply (H s s). Qed.

Lemma counts_attempt {A} (r : result A) k :
  (forall a, counts_items (k a)) -> counts_items (attempt r k).
Proof. intros H. destruct r; [apply H | apply counts_throw]. Qed.

Lemma counts_for_each {A} (l : list A) body :
  (forall x, counts_items (body x)) -> counts_items (for_each l body).
Proof.
  intros H. induction l as [|x l IH]; simpl; [apply counts_done|].
  apply counts_andthen; [apply H | exact IH].
Qed.

Lemma counts_for_each_at {A} i (l : list A) body :
  (forall i x, counts_items (body i x)) -> counts_items (for_each_at i l body).
Proof.
  intros H. revert i. induction l as [|x l IH]; intros i; simpl;
    [apply counts_done|].
  apply counts_andthen; [apply H | apply IH].
Qed.

Lemma counts_yield_item item : counts_items (yield_item item).
Proof.
  unfold yield_item. destruct item as [i|]; [|apply counts_done].
  destruct (truthy (VDict i)); [|apply counts_done].
  intros s. simpl. lia.
Qed.

Lemma counts_list_only now v : counts_items (list_only now v).
Proof. apply counts_attempt. intros a. apply counts_yield_item. Qed.

Lemma counts_fallback now v : counts_items (fallback_to_list now v).
Proof.
  unfold fallback_to_list. destruct (truthy v);
    [apply counts_list_only | apply counts_done].
Qed.

Lemma counts_retry r : counts_items (retry r).
Proof.
  unfold retry. cbv zeta. destruct (_ <? 3); [|apply counts_done].
  apply counts_andthen; [apply counts_log | apply counts_request].
Qed.

Ltac counts_step :=
  lazymatch goal with
  | |- counts_items done => apply counts_done
  | |- counts_items (log _) => apply counts_log
  | |- counts_items (emit (YieldRequest _)) => apply counts_request
  | |- counts_items (throw _) => apply counts_throw
  | |- counts_items (set_city_uuid _) => apply counts_set_city
  | |- counts_items (found_city _) => apply counts_found_city
  | |- counts_items (yield_item _) => apply counts_yield_item
  | |- counts_items (list_only _ _) => apply counts_list_only
  | |- counts_items (fallback_to_list _ _) => apply counts_fallback
  | |- counts_items (retry _) => apply counts_retry
  | |- counts_items (_ >>> _) => apply counts_andthen
  | |- counts_items (read _) => apply counts_read; intros ?
  | |- counts_items (attempt _ _) => apply counts_attempt; intros ?
  | |- counts_items (for_each _ _) => apply counts_for_each; intros ?
  | |- counts_items (for_each_at _ _ _) =>
    apply counts_for_each_at; intros ? ?
  | |- counts_items (if ?c then _ else _) => destruct c
  | |- counts_items (match ?x with _ => _ end) => destruct x
  end.

Ltac counts := repeat counts_step.

Variable cfg : config.

Lemma counts_start_category_parsing : counts_items (start_category_parsing cfg).
Proof. unfold start_category_parsing, _load_categories_log. counts. Qed.

Lemma counts_parse_product_list clock resp :
  counts_items (parse_product_list cfg clock resp).
Proof. unfold parse_product_list, product_step. counts. Qed.

Lemma counts_parse_product_detail now resp :
  counts_items (parse_product_detail now resp).
Proof. unfold parse_product_detail. cbv zeta. counts. Qed.

Lemma counts_parse_cities resp : counts_items (parse_cities cfg resp).
Proof.
  unfold parse_cities, city_fallback, city_step.
  pose proof counts_start_category_parsing as Hs.
  repeat first [ exact Hs | counts_step ].
Qed.

(** X10. The counter of parsed products is exact: after any callback it has
    grown by the number of items the callback yielded, also when the
    callback ends with an exception. *)
Theorem products_counted (clock : nat -> Z) (now : Z) (resp : response)
    (f : failure) :
  counts_items (parse_product_list cfg clock resp) /\
  counts_items (parse_product_detail now resp) /\
  counts_items (handle_product_error now f) /\
  counts_items (parse_cities cfg resp) /\
  counts_items (handle_error f) /\
  counts_items (start_requests cfg).
Proof.
  repeat split.
  - apply counts_parse_product_list.
  - apply counts_parse_product_detail.
  - unfold handle_product_error. cbv zeta. counts.
  - apply counts_parse_cities.
  - unfold handle_error. counts.
  - unfold start_requests. counts.
Qed.

End Accounting.

(** ** The handlers of a detail request *)

Section DetailHandlers.
Context {R : Runtime}.

Lemma list_only_events now v s :
  let o := list_only now v s in
  requests_of (events o) = [] /\
  (length (items_of (events o)) <= 1)%nat /\
  city_uuid (final o) = city_uuid s /\
  cities_found (final o) = cities_found s.
Proof.
  unfold list_only, attempt, yield_item.
  destruct (_parse_product_from_list now v) as [[i|]|]; simpl; auto.
  destruct i; simpl; auto.
Qed.

Lemma fallback_events now v s :
  let o := fallback_to_list now v s in
  requests_of (events o) = [] /\
  (length (items_of (events o)) <= 1)%nat /\
  city_uuid (final o) = city_uuid s /\
  cities_found (final o) = cities_found s.
Proof. rewrite fallback_is_list_only. apply list_only_events. Qed.

Lemma after_log l (g : gen) s :
  (let o := g s in
   requests_of (events o) = [] /\
   (length (items_of (events o)) <= 1)%nat /\
   city_uuid (final o) = city_uuid s /\
   cities_found (final o) = cities_found s) ->
  let o := (log l >>> g) s in
  requests_of (events o) = [] /\
  (length (items_of (events o)) <= 1)%nat /\
  city_uuid (final o) = city_uuid s /\
  cities_found (final o) = cities_found s.
Proof. unfold andthen, log, emit. simpl. tauto. Qed.

(** X11. The two handlers of a detail request end the chain: whatever the
    response or the failure, they yield no request and at most one item,
    and they leave the resolved city and the cities found as they were. *)
Theorem detail_handlers_yield_one (now : Z) (resp : response) (f : failure)
    (s : state) :
  (let o := parse_product_detail now resp s in
   requests_of (events o) = [] /\
   (length (items_of (events o)) <= 1)%nat /\
   city_uuid (final o) = city_uuid s /\
   cities_found (final o) = cities_found s) /\
  (let o := handle_product_error now f s in
   requests_of (events o) = [] /\
   (length (items_of (events o)) <= 1)%nat /\
   city_uuid (final o) = city_uuid s /\
   cities_found (final o) = cities_found s).
Proof.
  split.
  - unfold parse_product_detail. cbv zeta.
    destruct (negb (status resp =? 200)).
    { destruct (status resp =? 404); apply after_log, fallback_events. }
    destruct (json_loads (text resp)) as [data|e];
      [|destruct e; try (apply after_log, fallback_events); simpl; auto].
    destruct data; try (simpl; auto; fail).
    cbn [as_dict attempt].
    destruct (negb (truthy (get d "success")));
      [apply after_log, fallback_events|].
    unfold attempt, yield_item.
    destruct (_parse_product_from_detail _ _ _) as [[i|]|]; simpl; auto.
    destruct i; simpl; auto.
  - unfold handle_product_error. cbv zeta. apply after_log, fallback_events.
Qed.

End DetailHandlers.

Import ObsPages.

(** ** Product list pages *)

Section Pages.
Context {R : Runtime}.
Variable cfg : config.

(** What [parse_product_list] does with a page. *)
Lemma parse_page clock resp slug mi ps :
  page_of resp slug mi ps ->
  parse_product_list cfg clock resp =
  log INFO >>>
  for_each_at 0 ps (fun i => product_step cfg resp (clock i)) >>>
  if truthy (get_or mi "has_more_pages" (VBool false)) then
    attempt (py_add1 (get_or mi "current_page" (VInt 1)))
      (fun next_page =>
         match category_url (resp_meta resp) with
         | Some curl =>
           read (fun s =>
             emit (YieldRequest
                     (_create_product_list_request cfg s slug next_page curl)))
         | None => throw KeyError
         end)
  else done.
Proof.
  intros (Hst & Hslug & d & Hj & Hs & Hm & Hn & Hps).
  unfold parse_product_list. cbv zeta. rewrite Hst, Hj, Hs, Hps, Hm.
  cbn [Z.eqb Pos.eqb negb attempt]. rewrite Hn. cbn [attempt]. rewrite Hslug.
  reflexivity.
Qed.

Lemma events_andthen (g1 g2 : gen) s :
  events ((g1 >>> g2) s) =
  events (g1 s) ++
  match raised (g1 s) with
  | Some _ => []
  | None => events (g2 (final (g1 s)))
  end.
Proof.
  unfold andthen. destruct (raised (g1 s)); [|reflexivity].
  symmetry. apply app_nil_r.
Qed.

Lemma list_only_outcome now p s :
  list_only now p s =
  match _parse_product_from_list now p with
  | Ok (Some item) =>
    {| events := [YieldItem item];
       final := {| city_uuid := city_uuid s;
                   products_count := products_count s + 1;
                   cities_found := cities_found s |};
       raised := None |}
  | Ok None => {| events := []; final := s; raised := None |}
  | Raise x => {| events := []; final := s; raised := Some x |}
  end.
Proof.
  unfold list_only, attempt.
  destruct (_parse_product_from_list now p) as [[item|]|] eqn:E; try reflexivity.
  unfold yield_item. rewrite (parsed_list_item_truthy _ _ _ E). reflexivity.
Qed.

Lemma list_loop_items clock i ps s :
  items_of (events (for_each_at i ps (fun i => list_only (clock i)) s))
  = extracted clock i ps /\
  requests_of (events (for_each_at i ps (fun i => list_only (clock i)) s))
  = [].
Proof.
  revert i s. induction ps as [|p ps IH]; intros i s;
    [split; reflexivity|].
  cbn [for_each_at extracted]. rewrite events_andthen, list_only_outcome.
  destruct (_parse_product_from_list (clock i) p) as [[item|]|];
    cbn [events final raised].
  - rewrite items_of_app, requests_of_app.
    destruct (IH (S i) {| city_uuid := city_uuid s;
                          products_count := products_count s + 1;
                          cities_found := cities_found s |}) as [H1 H2].
    rewrite H1, H2. split; reflexivity.
  - apply IH.
  - split; reflexivity.
Qed.

Lemma raised_andthen (g1 g2 : gen) s :
  raised ((g1 >>> g2) s) =
  match raised (g1 s) with
  | Some x => Some x
  | None => raised (g2 (final (g1 s)))
  end.
Proof. unfold andthen. destruct (raised (g1 s)) eqn:E; [exact E | reflexivity]. Qed.

Lemma final_andthen (g1 g2 : gen) s :
  final ((g1 >>> g2) s) =
  match raised (g1 s) with
  | Some x => final (g1 s)
  | None => final (g2 (final (g1 s)))
  end.
Proof. unfold andthen. destruct (raised (g1 s)); reflexivity. Qed.

Lemma next_page_step_outcome resp slug mi s :
  let o := next_page_step cfg resp slug mi s in
  items_of (events o) = [] /\ final o = s /\
  (raised o = None ->
   if truthy (get_or mi "has_more_pages" (VBool false)) then
     exists next curl,
       py_add1 (get_or mi "current_page" (VInt 1)) = Ok next /\
       category_url (resp_meta resp) = Some curl /\
       requests_of (events o) =
       [_create_product_list_request cfg s slug next curl]
   else requests_of (events o) = []).
Proof.
  unfold next_page_step.
  destruct (truthy (get_or mi "has_more_pages" (VBool false)));
    [|repeat split].
  unfold attempt.
  destruct (py_add1 (get_or mi "current_page" (VInt 1))) as [next|];
    [|repeat split; discriminate].
  destruct (category_url (resp_meta resp)) as [curl|];
    [|repeat split; discriminate].
  repeat split. intros _. exists next, curl. repeat split.
Qed.

(** X12. In list mode a page gives its items in the order of its records,
    one for every record until one fails to extract, which ends the
    callback; no detail request is made.  When the callback ends normally,
    it has asked for the next page exactly when the page says there are
    more, with the page number one higher, for the same category. *)
Theorem list_mode_page (clock : nat -> Z) (resp : response) (slug : str)
    (mi : dict) (ps : list value) (s : state) :
  parse_details cfg = false ->
  page_of resp slug mi ps ->
  let o := parse_product_list cfg clock resp s in
  items_of (events o) = extracted clock 0 ps /\
  (raised o = None ->
   if truthy (get_or mi "has_more_pages" (VBool false)) then
     exists next curl,
       py_add1 (get_or mi "current_page" (VInt 1)) = Ok next /\
       category_url (resp_meta resp) = Some curl /\
       requests_of (events o) =
       [_create_product_list_request cfg (final o) slug next curl]
   else requests_of (events o) = []).
Proof.
  intros Hd Hp. rewrite (parse_page clock resp slug mi ps Hp).
  fold (next_page_step cfg resp slug mi).
  unfold product_step. rewrite Hd. cbv zeta.
  rewrite !raised_andthen, !final_andthen, !events_andthen.
  cbn [log emit raised events final].
  destruct (list_loop_items clock 0 ps s) as [Hi Hr].
  match goal with
  | |- context [for_each_at 0 ps ?b s] =>
    set (loop := for_each_at 0 ps b);
    change (for_each_at 0 ps (fun i => list_only (clock i))) with loop in Hi, Hr
  end.
  rewrite !items_of_app, !requests_of_app, Hi, Hr.
  change (items_of [Log INFO]) with (@nil dict).
  change (requests_of [Log INFO]) with (@nil request).
  cbn [app].
  destruct (next_page_step_outcome resp slug mi (final (loop s)))
    as (Hpi & Hpf & Hpr).
  destruct (raised (loop s)) eqn:Eraise.
  - split; [apply app_nil_r | discriminate].
  - rewrite Hpi, Hpf. split; [apply app_nil_r | exact Hpr].
Qed.

Lemma only_requests_done : only_requests done.
Proof. intros s. split; reflexivity. Qed.

Lemma only_requests_log l : only_requests (log l).
Proof. intros s. split; reflexivity. Qed.

Lemma only_requests_request (k : state -> request) :
  only_requests (read (fun s => emit (YieldRequest (k s)))).
Proof. intros s. split; reflexivity. Qed.

Lemma only_requests_read k :
  (forall s, only_requests (k s)) -> only_requests (read k).
Proof. intros H s. apply (H s s). Qed.

Lemma only_requests_emit r : only_requests (emit (YieldRequest r)).
Proof. intros s. split; reflexivity. Qed.

Lemma only_requests_throw x : only_requests (throw x).
Proof. intros s. split; reflexivity. Qed.

Lemma only_requests_andthen g1 g2 :
  only_requests g1 -> only_requests g2 -> only_requests (g1 >>> g2).
Proof.
  intros H1 H2 s. rewrite events_andthen, final_andthen.
  destruct (H1 s) as [E1 F1]. rewrite F1.
  destruct (H2 s) as [E2 F2].
  rewrite items_of_app, E1.
  destruct (raised (g1 s)); [split; reflexivity|].
  rewrite E2, F2. split; reflexivity.
Qed.

Lemma only_requests_attempt {A} (r : result A) k :
  (forall a, only_requests (k a)) -> only_requests (attempt r k).
Proof. intros H. destruct r; [apply H | apply only_requests_throw]. Qed.

Lemma only_requests_for_each_at {A} i (l : list A) body :
  (forall i x, only_requests (body i x)) ->
  only_requests (for_each_at i l body).
Proof.
  intros H. revert i. induction l as [|x l IH]; intros i; simpl;
    [apply only_requests_done|].
  apply only_requests_andthen; [apply H | apply IH].
Qed.

Lemma only_requests_retry r : only_requests (retry r).
Proof.
  unfold retry. cbv zeta. destruct (_ <? 3); [|apply only_requests_done].
  apply only_requests_andthen; [apply only_requests_log | apply only_requests_emit].
Qed.

Ltac only_requests_step :=
  lazymatch goal with
  | |- only_requests done => apply only_requests_done
  | |- only_requests (log _) => apply only_requests_log
  | |- only_requests (emit (YieldRequest _)) => apply only_requests_emit
  | |- only_requests (read _) => apply only_requests_read; intros ?
  | |- only_requests (throw _) => apply only_requests_throw
  | |- only_requests (retry _) => apply only_requests_retry
  | |- only_requests (_ >>> _) => apply only_requests_andthen
  | |- only_requests (attempt _ _) => apply only_requests_attempt; intros ?
  | |- only_requests (for_each_at _ _ _) =>
    apply only_requests_for_each_at; intros ? ?
  | |- only_requests (if ?c then _ else _) => destruct c
  | |- only_requests (match ?x with _ => _ end) => destruct x
  end.

Lemma only_requests_detail_step resp now p :
  parse_details cfg = true -> only_requests (product_step cfg resp now p).
Proof.
  intros Hd. unfold product_step. rewrite Hd. repeat only_requests_step.
Qed.

Lemma only_requests_parse_product_list clock resp :
  parse_details cfg = true -> only_requests (parse_product_list cfg clock resp).
Proof.
  intros Hd. unfold parse_product_list.
  repeat first [ apply only_requests_detail_step; exact Hd
               | only_requests_step ].
Qed.

Lemma detail_step_outcome resp now d curl s :
  parse_details cfg = true ->
  category_url (resp_meta resp) = Some curl ->
  product_step cfg resp now (VDict d) s =
  if truthy (get d "slug") then
    {| events := [Log DEBUG;
                  YieldRequest (detail_request cfg s (VDict d) (get d "slug") curl)];
       final := s; raised := None |}
  else {| events := []; final := s; raised := None |}.
Proof.
  intros Hd Hc. unfold product_step. rewrite Hd. cbn [as_dict attempt].
  destruct (truthy (get d "slug")); [|reflexivity].
  rewrite Hc. reflexivity.
Qed.

Lemma omap_cons {A B} (f : A -> option B) x l :
  omap f (x :: l) = match f x with Some y => y :: omap f l | None => omap f l end.
Proof. reflexivity. Qed.

Lemma detail_loop_requests clock resp curl i ps s :
  parse_details cfg = true ->
  category_url (resp_meta resp) = Some curl ->
  Forall (fun p => is_dict p = true) ps ->
  requests_of (events (for_each_at i ps
                         (fun i => product_step cfg resp (clock i)) s))
  = omap (detail_request_of cfg s curl) ps /\
  raised (for_each_at i ps (fun i => product_step cfg resp (clock i)) s)
  = None.
Proof.
  intros Hd Hc Hps. revert i. induction Hps as [|p ps Hp Hps IH]; intros i;
    [split; reflexivity|].
  cbn [for_each_at]. rewrite omap_cons.
  rewrite events_andthen, raised_andthen.
  destruct p; try discriminate Hp.
  rewrite (detail_step_outcome resp (clock i) d curl s Hd Hc).
  cbn [detail_request_of].
  destruct (IH (S i)) as [IH1 IH2].
  destruct (truthy (get d "slug")); cbn [events raised final];
    rewrite requests_of_app, IH1, IH2; split; reflexivity.
Qed.

Lemma next_page_step_exact resp slug mi curl s :
  category_url (resp_meta resp) = Some curl ->
  next_page_step cfg resp slug mi s =
  if truthy (get_or mi "has_more_pages" (VBool false)) then
    match py_add1 (get_or mi "current_page" (VInt 1)) with
    | Ok next =>
      {| events := [YieldRequest
                      (_create_product_list_request cfg s slug next curl)];
         final := s; raised := None |}
    | Raise e => {| events := []; final := s; raised := Some e |}
    end
  else {| events := []; final := s; raised := None |}.
Proof.
  intros Hc. unfold next_page_step.
  destruct (truthy (get_or mi "has_more_pages" (VBool false)));
    [|reflexivity].
  destruct (py_add1 (get_or mi "current_page" (VInt 1))) as [next|e];
    cbn [attempt]; [|reflexivity].
  rewrite Hc. reflexivity.
Qed.

(** X13. In detail mode the list callback yields no item and leaves the state
    of the spider as it is.  From a page whose records are objects it asks
    for the details of every record that has a slug, in order, each request
    carrying its record and the category URL of the page; a record without
    a slug gives neither an item nor a request.  When the page says there
    are more, one request follows, for the page numbered one higher of the
    same category, unless the page number cannot be incremented, which
    ends the callback with that exception; otherwise nothing follows. *)
Theorem detail_mode_page (clock : nat -> Z) (resp : response) (s : state) :
  parse_details cfg = true ->
  let o := parse_product_list cfg clock resp s in
  items_of (events o) = [] /\ final o = s /\
  forall slug mi ps curl,
    page_of resp slug mi ps ->
    category_url (resp_meta resp) = Some curl ->
    Forall (fun p => is_dict p = true) ps ->
    if truthy (get_or mi "has_more_pages" (VBool false)) then
      match py_add1 (get_or mi "current_page" (VInt 1)) with
      | Ok next =>
        requests_of (events o) =
        omap (detail_request_of cfg s curl) ps ++
        [_create_product_list_request cfg s slug next curl] /\
        raised o = None
      | Raise e =>
        requests_of (events o) = omap (detail_request_of cfg s curl) ps /\
        raised o = Some e
      end
    else
      requests_of (events o) = omap (detail_request_of cfg s curl) ps /\
      raised o = None.
Proof.
  intros Hd. cbv zeta.
  destruct (only_requests_parse_product_list clock resp Hd s) as [Hi Hf].
  split; [exact Hi|]. split; [exact Hf|].
  intros slug mi ps curl Hp Hc Hps.
  rewrite (parse_page clock resp slug mi ps Hp).
  fold (next_page_step cfg resp slug mi).
  rewrite !events_andthen, !raised_andthen.
  cbn [log emit raised events final].
  destruct (detail_loop_requests clock resp curl 0 ps s Hd Hc Hps) as [Hr Hn].
  assert (Hfin : final (for_each_at 0 ps
                          (fun i => product_step cfg resp (clock i)) s) = s).
  { apply only_requests_for_each_at. intros i x.
    apply only_requests_detail_step. exact Hd. }
  rewrite Hn, Hfin, (next_page_step_exact resp slug mi curl s Hc).
  rewrite !requests_of_app, Hr.
  change (requests_of [Log INFO]) with (@nil request). cbn [app].
  destruct (truthy (get_or mi "has_more_pages" (VBool false)));
    [destruct (py_add1 (get_or mi "current_page" (VInt 1)))|];
    cbn [events raised]; split; try reflexivity; apply app_nil_r.
Qed.

End Pages.

Lemma page_of_page_response :
  page_of (R := DemoPages.runtime_with_pages) DemoPages.page_response (u "pivo") DemoPages.page_meta
    [VDict Demo.list_record].
Proof.
  split; [reflexivity|]. split; [reflexivity|].
  exists DemoPages.page. repeat split; vm_compute; reflexivity.
Qed.

Lemma list_mode_page_witness :
  items_of (events (parse_product_list (R := DemoPages.runtime_with_pages) DemoPages.list_cfg
                      (fun _ => 7) DemoPages.page_response initial_state))
  = extracted (R := DemoPages.runtime_with_pages) (fun _ => 7) 0 [VDict Demo.list_record].
Proof.
  destruct (list_mode_page (R := DemoPages.runtime_with_pages) DemoPages.list_cfg (fun _ => 7)
              DemoPages.page_response (u "pivo") DemoPages.page_meta
              [VDict Demo.list_record] initial_state eq_refl
              page_of_page_response) as [H _].
  exact H.
Defined.

Lemma detail_mode_page_witness :
  let o := parse_product_list (R := DemoPages.runtime_with_pages) Demo.cfg
             (fun _ => 7) DemoPages.page_response initial_state in
  requests_of (events o) =
  omap (detail_request_of (R := DemoPages.runtime_with_pages) Demo.cfg
          initial_state DemoPages.category)
       [VDict Demo.list_record] ++
  [_create_product_list_request (R := DemoPages.runtime_with_pages) Demo.cfg
     initial_state (u "pivo") (VInt 2) DemoPages.category] /\
  raised o = None.
Proof.
  destruct (detail_mode_page (R := DemoPages.runtime_with_pages) Demo.cfg
              (fun _ => 7) DemoPages.page_response initial_state eq_refl)
    as (_ & _ & H).
  assert (Hall : Forall (fun p => is_dict p = true) [VDict Demo.list_record])
    by (repeat constructor).
  exact (H (u "pivo") DemoPages.page_meta [VDict Demo.list_record]
           DemoPages.category page_of_page_response eq_refl Hall).
Defined.

Import ObsCities.

(** ** The retries of the spider *)

Section Retries.

Lemma resubmitted_spec r :
  resubmitted r =
  let n := default 0 (retry_count (req_meta r)) in
  if n <? 3 then Some (retry_copy r n) else None.
Proof.
  unfold resubmitted, retry. cbv zeta.
  destruct (default 0 (retry_count (req_meta r)) <? 3); reflexivity.
Qed.

Lemma resubmissions_bound fuel r :
  (length (resubmissions fuel r) <=
   Z.to_nat (3 - default 0 (retry_count (req_meta r)))%Z)%nat /\
  Forall (fun r' => url r' = url r /\ callback r' = callback r /\
                    errback r' = errback r /\ headers r' = headers r /\
                    dont_filter r' = true)
         (resubmissions fuel r).
Proof.
  revert r. induction fuel as [|fuel IH]; intros r; simpl;
    [split; [lia | constructor]|].
  rewrite resubmitted_spec. cbv zeta.
  destruct (Z.ltb_spec (default 0 (retry_count (req_meta r))) 3) as [Hlt|Hge];
    [|split; [simpl; lia | constructor]].
  destruct (IH (retry_copy r (default 0 (retry_count (req_meta r)))))
    as [Hlen Hall].
  cbn [retry_copy req_meta retry_count default] in Hlen.
  split.
  - simpl. cbn [option.default] in Hlen. simpl in Hlen. lia.
  - constructor; [repeat split|].
    eapply Forall_impl; [exact Hall|].
    simpl. intros r' (H1 & H2 & H3 & H4 & H5). repeat split; assumption.
Qed.

(** X14. The spider's own retry resubmits a request at most three times,
    however often it fails: the chain of resubmissions of a request whose
    counter stands at [n] is no longer than [3 - n], and every resubmission
    is the same request (URL, callback, errback, headers) that bypasses the
    duplicate filter.  A fresh request is resubmitted with the counters 1,
    2 and 3. *)
Theorem retries_bounded (fuel : nat) (r : request) :
  (length (resubmissions fuel r) <=
   Z.to_nat (3 - default 0 (retry_count (req_meta r)))%Z)%nat /\
  Forall (fun r' => url r' = url r /\ callback r' = callback r /\
                    errback r' = errback r /\ headers r' = headers r /\
                    dont_filter r' = true)
         (resubmissions fuel r) /\
  (retry_count (req_meta r) = None ->
   map (fun r' => retry_count (req_meta r')) (resubmissions (3 + fuel) r)
   = [Some 1; Some 2; Some 3]).
Proof.
  destruct (resubmissions_bound fuel r) as [H1 H2].
  split; [exact H1|]. split; [exact H2|].
  intros Hn. cbn [Nat.add resubmissions].
  rewrite !resubmitted_spec. cbv zeta. rewrite Hn. cbn.
  destruct fuel; cbn; [reflexivity|].
  rewrite resubmitted_spec. cbn. reflexivity.
Qed.

End Retries.

Lemma retries_bounded_witness :
  map (fun r' => retry_count (req_meta r'))
      (resubmissions 5 (Demo.detail_req None))
  = [Some 1; Some 2; Some 3].
Proof.
  destruct (retries_bounded 2 (Demo.detail_req None)) as (_ & _ & H).
  apply H. reflexivity.
Defined.

(** ** City pages *)

Section CityPages.
Context {R : Runtime}.
Variable cfg : config.

(** The loop over the cities of a page. *)
Lemma city_step_outcome c s :
  let o := city_step cfg (VDict c) s in
  raised o = None /\ requests_of (events o) = [] /\
  items_of (events o) = [] /\
  city_uuid (final o) =
  (if py_eq (get c "name") (target_city_name cfg) then get c "uuid"
   else city_uuid s).
Proof.
  unfold city_step. cbn [as_dict attempt].
  destruct (py_eq (get c "name") (target_city_name cfg)); repeat split.
Qed.

Lemma city_loop_outcome cities s :
  Forall (fun p => is_dict p = true) cities ->
  let o := for_each cities (city_step cfg) s in
  raised o = None /\ requests_of (events o) = [] /\
  city_uuid (final o) =
  fold_left (fun cur city =>
               match city with
               | VDict c =>
                 if py_eq (get c "name") (target_city_name cfg)
                 then get c "uuid" else cur
               | _ => cur
               end) cities (city_uuid s).
Proof.
  intros H. revert s. induction H as [|p cities Hp _ IH]; intros s;
    [repeat split|].
  cbv zeta. cbn [for_each fold_left].
  rewrite raised_andthen, events_andthen, final_andthen.
  destruct p; try discriminate Hp.
  destruct (city_step_outcome d s) as (Hr & Hq & _ & Hu).
  rewrite Hr, requests_of_app, Hq.
  destruct (IH (final (city_step cfg (VDict d) s))) as (IHr & IHq & IHu).
  rewrite IHr, IHq, IHu, Hu. repeat split.
Qed.

Lemma city_loop_requests cities s :
  requests_of (events (for_each cities (city_step cfg) s)) = [].
Proof.
  revert s. induction cities as [|p cities IH]; intros s; [reflexivity|].
  cbn [for_each]. rewrite events_andthen, requests_of_app.
  assert (Hq : requests_of (events (city_step cfg p s)) = []).
  { destruct p; try reflexivity. apply city_step_outcome. }
  rewrite Hq. destruct (raised (city_step cfg p s)); [reflexivity | apply IH].
Qed.

Lemma load_categories_log_events s s' :
  events (_load_categories_log cfg s) = events (_load_categories_log cfg s').
Proof.
  unfold _load_categories_log.
  destruct (categories_txt cfg) as [lines| |];
    [destruct (List.filter _ _)| |]; reflexivity.
Qed.

Lemma start_category_parsing_events s s' :
  city_uuid s = city_uuid s' ->
  events (start_category_parsing cfg s) = events (start_category_parsing cfg s').
Proof.
  intros H. unfold start_category_parsing.
  rewrite (events_andthen (_load_categories_log cfg) _ s),
          (events_andthen (_load_categories_log cfg) _ s').
  destruct (load_categories_log_quiet cfg s) as [F0 R0],
           (load_categories_log_quiet cfg s') as [F0' R0'].
  rewrite R0, R0', F0, F0', (load_categories_log_events s s'). f_equal.
  clear F0 R0 F0' R0'.
  rewrite !events_andthen. cbn [log emit events raised final]. f_equal.
  generalize (_load_categories cfg). intros l. revert s s' H.
  induction l as [|x l IH]; intros s s' H; [reflexivity|].
  cbn [for_each]. rewrite !events_andthen.
  assert (Hx : forall t, raised (match _extract_category_slug x with
                                 | Some (c :: slug) =>
                                   read (fun s0 => emit (YieldRequest
                                     (_create_product_list_request cfg s0 (c :: slug) (VInt 1) x)))
                                 | _ => log WARNING
                                 end t) = None /\
                         final (match _extract_category_slug x with
                                 | Some (c :: slug) =>
                                   read (fun s0 => emit (YieldRequest
                                     (_create_product_list_request cfg s0 (c :: slug) (VInt 1) x)))
                                 | _ => log WARNING
                                 end t) = t)
    by (intros t; destruct (_extract_category_slug x) as [[|c slug]|]; split; reflexivity).
  destruct (Hx s) as [R1 F1], (Hx s') as [R2 F2].
  rewrite R1, R2, F1, F2, (IH s s' H). f_equal.
  destruct (_extract_category_slug x) as [[|c slug]|]; try reflexivity.
  cbn [read emit events]. unfold _create_product_list_request. rewrite H.
  reflexivity.
Qed.

Lemma city_loop_dicts cities s :
  raised (for_each cities (city_step cfg) s) = None ->
  Forall (fun p => is_dict p = true) cities.
Proof.
  revert s. induction cities as [|p cities IH]; intros s; [constructor|].
  cbn [for_each]. rewrite raised_andthen.
  destruct (raised (city_step cfg p s)) eqn:E; [discriminate|].
  intros H. constructor; [|apply (IH _ H)].
  destruct p; try discriminate E. reflexivity.
Qed.

(** X15. A city page read without an exception ends in one of three ways.
    A page that failed (status, undecodable body, [success] falsy) resolves
    the city to the configured initial identifier and starts the
    categories.  On a page that could be read, when the target city is
    still unknown and the page announces more, exactly one request is
    yielded, for the city page numbered one higher; otherwise the city is
    resolved - to the identifier found, else to the initial one - and the
    callback ends with the start of the categories, having yielded no other
    request. *)
Theorem city_page_outcome (resp : response) (s : state) :
  truthy (initial_city_uuid cfg) = true ->
  let o := parse_cities cfg resp s in
  raised o = None ->
  (bad_response resp /\
   city_uuid (final o) = initial_city_uuid cfg /\
   events o = Log ERROR :: events (start_category_parsing cfg (final o))) \/
  (exists mi cities,
     cities_read resp mi cities /\
     Forall (fun p => is_dict p = true) cities /\
     let found := found_uuid (target_city_name cfg) cities (city_uuid s) in
     if negb (truthy found) &&
        truthy (get_or mi "has_more_pages" (VBool false))
     then
       exists cu next,
         city_url (resp_meta resp) = Some cu /\
         py_add1 (get_or mi "current_page" (VInt 1)) = Ok next /\
         requests_of (events o) = [city_request cfg cu next] /\
         city_uuid (final o) = found
     else
       city_uuid (final o)
       = (if truthy found then found else initial_city_uuid cfg) /\
       truthy (city_uuid (final o)) = true /\
       exists pre,
         events o = pre ++ events (start_category_parsing cfg (final o)) /\
         requests_of pre = []).
Proof.
  intros Hinit. cbv zeta.
  assert (Hfb : forall t,
             city_uuid (final (city_fallback cfg t)) = initial_city_uuid cfg /\
             events (city_fallback cfg t) =
             Log ERROR :: events (start_category_parsing cfg
                                    (final (city_fallback cfg t)))).
  { intros t. unfold city_fallback.
    rewrite !final_andthen, !events_andthen.
    cbn [log emit set_city_uuid modify events raised final].
    match goal with
    | |- context [start_category_parsing cfg ?u] =>
      destruct (start_category_parsing_quiet cfg u) as [Hq Hr]
    end.
    rewrite Hq. cbn [city_uuid]. split; reflexivity. }
  unfold parse_cities.
  destruct (Z.eqb_spec (status resp) 200) as [Hst|Hst]; cbn [negb].
  2:{ intros _. left. split; [left; exact Hst | apply Hfb]. }
  destruct (json_loads (text resp)) as [data|e] eqn:Hj.
  2:{ destruct e; try discriminate.
      intros _. left. split; [right; left; exact Hj | apply Hfb]. }
  destruct data; try discriminate.
  cbn [as_dict attempt].
  destruct (truthy (get d "success")) eqn:Hs; cbn [negb].
  2:{ intros _. left. split; [|apply Hfb].
      right. right. exists d. split; [exact Hj | exact Hs]. }
  destruct (py_iter (get_or d "results" (VList []))) as [cities|] eqn:Hres;
    cbn [attempt]; [|discriminate].
  rewrite raised_andthen, final_andthen, events_andthen.
  set (loop := for_each cities (city_step cfg)).
  destruct (raised (loop s)) eqn:El; [discriminate|].
  pose proof (city_loop_dicts cities s El) as Hall.
  destruct (city_loop_outcome cities s Hall) as (_ & Hloop & Hu).
  cbv zeta in Hloop, Hu. fold loop in Hloop, Hu.
  fold (found_uuid (target_city_name cfg) cities (city_uuid s)) in Hu.
  destruct (as_dict (get_or d "meta" (VDict []))) as [mi|] eqn:Hm;
    cbn [attempt]; [|discriminate].
  rewrite raised_andthen, final_andthen, events_andthen.
  cbn [log emit events raised final]. unfold read.
  set (s1 := final (loop s)) in *. cbv beta.
  intros Hr. right. exists mi, cities.
  split; [split; [exact Hst|]; exists d; repeat split; assumption|].
  split; [exact Hall|]. cbv zeta. rewrite <- Hu.
  destruct (negb (truthy (city_uuid s1)) &&
            truthy (get_or mi "has_more_pages" (VBool false))) eqn:Ec.
  - unfold attempt in *.
    destruct (py_add1 (get_or mi "current_page" (VInt 1))) as [next|];
      [|cbn [throw raised] in Hr; discriminate].
    destruct (city_url (resp_meta resp)) as [cu|];
      [|cbn [throw raised] in Hr; discriminate].
    exists cu, next.
    cbn [emit events final]. rewrite !requests_of_app, Hloop.
    repeat split.
  - rewrite !final_andthen, !events_andthen.
    destruct (truthy (city_uuid s1)) eqn:Et.
    + cbn [log emit events raised final].
      destruct (start_category_parsing_quiet cfg s1) as [Hq Hn].
      rewrite Hq. split; [reflexivity|]. split; [exact Et|].
      exists (events (loop s) ++ [Log INFO] ++ [Log INFO]).
      split; [rewrite <- !app_assoc; reflexivity|].
      rewrite !requests_of_app, Hloop. reflexivity.
    + rewrite !raised_andthen, !final_andthen, !events_andthen.
      cbn [log emit set_city_uuid modify events raised final].
      match goal with
      | |- context [start_category_parsing cfg ?u] =>
        destruct (start_category_parsing_quiet cfg u) as [Hq Hn]
      end.
      rewrite Hq. cbn [city_uuid]. split; [reflexivity|].
      split; [exact Hinit|].
      exists (events (loop s) ++ [Log INFO] ++ [Log WARNING]).
      split; [rewrite <- !app_assoc; reflexivity|].
      rewrite !requests_of_app, Hloop. reflexivity.
Qed.

Lemma fold_other_cities post cur :
  forallb (other_city (target_city_name cfg)) post = true ->
  fold_left (fun cur city =>
               match city with
               | VDict c =>
                 if py_eq (get c "name") (target_city_name cfg)
                 then get c "uuid" else cur
               | _ => cur
               end) post cur = cur.
Proof.
  revert cur. induction post as [|p post IH]; intros cur; [reflexivity|].
  cbn [forallb fold_left]. intros H. apply andb_true_iff in H as [Hp H].
  destruct p; try (apply IH; exact H).
  simpl in Hp. apply negb_true_iff in Hp. rewrite Hp. apply IH. exact H.
Qed.


(** The cities found only grow, without repeats. *)
Lemma grows_done : grows_cities done.
Proof. intros s. split; [exists []; symmetry; apply app_nil_r | tauto]. Qed.

Lemma grows_same (g : gen) :
  (forall s, cities_found (final (g s)) = cities_found s) -> grows_cities g.
Proof.
  intros H s. rewrite H. split; [exists []; symmetry; apply app_nil_r | tauto].
Qed.

Lemma grows_andthen g1 g2 :
  grows_cities g1 -> grows_cities g2 -> grows_cities (g1 >>> g2).
Proof.
  intros H1 H2 s. rewrite final_andthen.
  destruct (H1 s) as [[n1 E1] N1].
  destruct (raised (g1 s)); [split; [eauto | exact N1]|].
  destruct (H2 (final (g1 s))) as [[n2 E2] N2]. split.
  - exists (n1 ++ n2). rewrite E2, E1, app_assoc. reflexivity.
  - intros H. apply N2, N1, H.
Qed.

Lemma grows_read k : (forall s, grows_cities (k s)) -> grows_cities (read k).
Proof. intros H s. apply (H s s). Qed.

Lemma grows_attempt {A} (r : result A) k :
  (forall a, grows_cities (k a)) -> grows_cities (attempt r k).
Proof.
  intros H. destruct r; [apply H|]. apply grows_same. reflexivity.
Qed.

Lemma grows_for_each {A} (l : list A) body :
  (forall x, grows_cities (body x)) -> grows_cities (for_each l body).
Proof.
  intros H. induction l as [|x l IH]; simpl; [apply grows_done|].
  apply grows_andthen; [apply H | exact IH].
Qed.

Lemma grows_found_city c : grows_cities (found_city c).
Proof.
  intros s. cbn [found_city modify final cities_found].
  destruct (py_in c (cities_found s)) eqn:E.
  - split; [exists []; symmetry; apply app_nil_r | tauto].
  - split; [exists [c]; reflexivity|]. intros H.
    apply no_repeats_snoc; assumption.
Qed.

Lemma grows_start_category_parsing : grows_cities (start_category_parsing cfg).
Proof.
  apply grows_same. intros s.
  destruct (start_category_parsing_quiet cfg s) as [-> _]. reflexivity.
Qed.

Ltac grows_step :=
  lazymatch goal with
  | |- grows_cities done => apply grows_done
  | |- grows_cities (log _) => apply grows_same; reflexivity
  | |- grows_cities (emit _) => apply grows_same; reflexivity
  | |- grows_cities (throw _) => apply grows_same; reflexivity
  | |- grows_cities (set_city_uuid _) => apply grows_same; reflexivity
  | |- grows_cities (found_city _) => apply grows_found_city
  | |- grows_cities (start_category_parsing _) =>
    apply grows_start_category_parsing
  | |- grows_cities (_ >>> _) => apply grows_andthen
  | |- grows_cities (read _) => apply grows_read; intros ?
  | |- grows_cities (attempt _ _) => apply grows_attempt; intros ?
  | |- grows_cities (for_each _ _) => apply grows_for_each; intros ?
  | |- grows_cities (if ?c then _ else _) => destruct c
  | |- grows_cities (match ?x with _ => _ end) => destruct x
  end.

(** X17. Reading a city page only adds to the cities found: what was found
    before stays, in the same order, and a city is added only when no
    equal record is there yet, so the list never holds a city twice. *)
Theorem cities_found_grow (resp : response) :
  grows_cities (parse_cities cfg resp).
Proof.
  unfold parse_cities, city_fallback, city_step. repeat grows_step.
Qed.

End CityPages.

Lemma city_page_outcome_witness :
  let o := parse_cities (R := DemoPages.runtime_with_pages) Demo.cfg
             DemoPages.sochi_response initial_state in
  requests_of (events o)
  = [city_request (R := DemoPages.runtime_with_pages) Demo.cfg
       (u "https://alkoteka.com/web-api/v1/city") (VInt 2)] /\
  ((bad_response (R := DemoPages.runtime_with_pages) DemoPages.sochi_response /\
    city_uuid (final o) = initial_city_uuid Demo.cfg /\
    events o = Log ERROR :: events (start_category_parsing
                                      (R := DemoPages.runtime_with_pages)
                                      Demo.cfg (final o))) \/
   (exists mi cities,
      cities_read (R := DemoPages.runtime_with_pages)
        DemoPages.sochi_response mi cities /\
      Forall (fun p => is_dict p = true) cities /\
      let found := found_uuid (target_city_name Demo.cfg) cities
                     (city_uuid initial_state) in
      if negb (truthy found) &&
         truthy (get_or mi "has_more_pages" (VBool false))
      then
        exists cu next,
          city_url (resp_meta DemoPages.sochi_response) = Some cu /\
          py_add1 (get_or mi "current_page" (VInt 1)) = Ok next /\
          requests_of (events o)
          = [city_request (R := DemoPages.runtime_with_pages) Demo.cfg cu next] /\
          city_uuid (final o) = found
      else
        city_uuid (final o)
        = (if truthy found then found else initial_city_uuid Demo.cfg) /\
        truthy (city_uuid (final o)) = true /\
        exists pre,
          events o = pre ++ events (start_category_parsing
                                      (R := DemoPages.runtime_with_pages)
                                      Demo.cfg (final o)) /\
          requests_of pre = [])).
Proof.
  split; [vm_compute; reflexivity|].
  apply (city_page_outcome (R := DemoPages.runtime_with_pages) Demo.cfg
           DemoPages.sochi_response initial_state); vm_compute; reflexivity.
Defined.


(** A character or a string is not among those of a literal. *)
Ltac not_among :=
  let H := fresh in
  intros H; vm_compute in H;
  repeat (apply elem_of_cons in H as [H|H]; [discriminate H|]);
  apply elem_of_nil in H; exact H.

(** ** Category slugs *)

Section Slugs.

Lemma split_slash_app a b cur :
  split_slash (a ++ slash :: b) cur = split_slash a cur ++ split_slash b [].
Proof.
  revert cur. induction a as [|c a IH]; intros cur; simpl.
  - reflexivity.
  - destruct (c =? slash)%N; simpl; rewrite IH; reflexivity.
Qed.

Lemma split_slash_plain s cur :
  slash ∉ s -> split_slash s cur = [rev cur ++ s].
Proof.
  revert cur. induction s as [|c s IH]; intros cur H; simpl.
  - rewrite app_nil_r. reflexivity.
  - destruct (N.eqb_spec c slash) as [->|Hc].
    + exfalso. apply H. left.
    + rewrite IH by (intros Hin; apply H; right; exact Hin).
      simpl. rewrite <- app_assoc. reflexivity.
Qed.

Lemma lstrip_slash_repeat n c r :
  c <> slash -> lstrip_slash (repeat slash n ++ c :: r) = c :: r.
Proof.
  intros Hc. induction n as [|n IH]; simpl.
  - destruct (N.eqb_spec c slash); [contradiction | reflexivity].
  - exact IH.
Qed.

Lemma rev_repeat {A} (x : A) n : rev (repeat x n) = repeat x n.
Proof.
  induction n as [|n IH]; [reflexivity|].
  simpl. rewrite IH. clear IH. induction n as [|n IH]; [reflexivity|].
  simpl. rewrite IH. reflexivity.
Qed.

Lemma rstrip_slash_trailing s c n :
  c <> slash -> rstrip_slash ((s ++ [c]) ++ repeat slash n) = s ++ [c].
Proof.
  intros Hc. unfold rstrip_slash.
  rewrite rev_app_distr, rev_repeat, rev_app_distr. simpl.
  rewrite lstrip_slash_repeat by exact Hc.
  simpl. rewrite rev_involutive. reflexivity.
Qed.

Lemma catalog_plain : slash ∉ u "catalog".
Proof. not_among. Qed.

Lemma after_catalog_found l slug rest :
  u "catalog" ∉ l -> after_catalog (l ++ u "catalog" :: slug :: rest) = Some slug.
Proof.
  induction l as [|p l IH]; intros H; simpl.
  - reflexivity.
  - rewrite bool_decide_false by (intros ->; apply H; left).
    apply IH. intros Hin. apply H. right. exact Hin.
Qed.

Lemma after_catalog_none l : u "catalog" ∉ l -> after_catalog l = None.
Proof.
  induction l as [|p l IH]; intros H; simpl; [reflexivity|].
  rewrite bool_decide_false by (intros ->; apply H; left).
  apply IH. intros Hin. apply H. right. exact Hin.
Qed.

(** X18. From a category URL of the form [<base>/catalog/<slug>], with any
    number of slashes at its end, the slug is extracted, whenever the slug
    is not empty and holds no slash and no part of [<base>] is itself
    [catalog]; when nothing follows [catalog], there is no slug. *)
Theorem category_slug_found (base slug : str) (n : nat) :
  slug <> [] -> slash ∉ slug -> u "catalog" ∉ split_slash base [] ->
  _extract_category_slug (base ++ u "/catalog/" ++ slug ++ repeat slash n)
  = Some slug /\
  _extract_category_slug (base ++ u "/catalog" ++ repeat slash n) = None.
Proof.
  intros Hne Hslug Hbase. split.
  - destruct (exists_last Hne) as (s0 & c & ->).
    assert (Hc : c <> slash).
    { intros ->. apply Hslug. apply elem_of_app. right. left. }
    unfold _extract_category_slug.
    assert (E1 : base ++ u "/catalog/" ++ (s0 ++ [c]) ++ repeat slash n
                 = ((base ++ u "/catalog/" ++ s0) ++ [c]) ++ repeat slash n)
      by (rewrite <- !app_assoc; reflexivity).
    rewrite E1, rstrip_slash_trailing by exact Hc.
    match goal with
    | |- after_catalog (split_slash ?x []) = _ =>
      assert (E2 : x = base ++ slash :: (u "catalog" ++ slash :: (s0 ++ [c])))
        by (rewrite <- !app_assoc; reflexivity);
      rewrite E2
    end.
    rewrite !split_slash_app.
    rewrite (split_slash_plain (s0 ++ [c]) []) by exact Hslug.
    rewrite (split_slash_plain (u "catalog") []) by exact catalog_plain.
    apply after_catalog_found. exact Hbase.
  - unfold _extract_category_slug.
    assert (E1 : base ++ u "/catalog" ++ repeat slash n
                 = ((base ++ u "/catalo") ++ [103%N]) ++ repeat slash n)
      by (rewrite <- !app_assoc; reflexivity).
    rewrite E1, rstrip_slash_trailing by discriminate.
    match goal with
    | |- after_catalog (split_slash ?x []) = _ =>
      assert (E2 : x = base ++ slash :: u "catalog")
        by (rewrite <- !app_assoc; reflexivity);
      rewrite E2
    end.
    rewrite split_slash_app.
    rewrite (split_slash_plain (u "catalog") []) by exact catalog_plain.
    generalize (split_slash base []) Hbase. clear.
    induction l as [|p l IH]; intros H.
    + reflexivity.
    + cbn [app after_catalog].
      rewrite bool_decide_false by (intros ->; apply H; left).
      apply IH. intros Hin. apply H. right. exact Hin.
Qed.

End Slugs.

Lemma category_slug_found_witness :
  _extract_category_slug
    (u "https://alkoteka.com" ++ u "/catalog/" ++ u "vino" ++ repeat slash 1)
  = Some (u "vino").
Proof.
  apply (category_slug_found (u "https://alkoteka.com") (u "vino") 1).
  - discriminate.
  - not_among.
  - not_among.
Defined.

(** ** The list of categories *)

Section Categories.
Context {R : Runtime}.
Variable cfg : config.

Lemma filter_keep_line l : Forall (fun url => keep_line url = true) (List.filter keep_line l).
Proof.
  apply Forall_forall. intros x Hx. apply list_elem_of_In in Hx.
  apply filter_In in Hx. tauto.
Qed.

(** X19. The list of categories is never empty: a missing or unreadable
    [categories.txt], or one that holds only blank lines and comments, gives
    the three default URLs; otherwise the list is the lines of the file,
    stripped, without the blank ones and the comments.  No URL of the list
    is empty or starts with [#]. *)
Theorem categories_never_empty :
  _load_categories cfg <> [] /\
  Forall (fun url => keep_line url = true) (_load_categories cfg) /\
  (_load_categories cfg = default_urls \/
   exists lines,
     categories_txt cfg = FileLines lines /\
     _load_categories cfg = List.filter keep_line (map strip lines)).
Proof.
  unfold _load_categories.
  destruct (categories_txt cfg) as [lines| |].
  - destruct (List.filter keep_line (map strip lines)) as [|x l] eqn:E.
    + split; [discriminate|]. split; [repeat constructor | left; reflexivity].
    + split; [discriminate|]. split.
      * rewrite <- E. apply filter_keep_line.
      * right. exists lines. split; [reflexivity | symmetry; exact E].
  - split; [discriminate|]. split; [repeat constructor | left; reflexivity].
  - split; [discriminate|]. split; [repeat constructor | left; reflexivity].
Qed.

End Categories.

Import ObsRegex.

(** ** The volume patterns *)

Section Regex.
Context {R : Runtime}.

Lemma prev_after_nil prev : prev_after prev [] = prev.
Proof. reflexivity. Qed.

Lemma prev_after_cons prev x s :
  prev_after prev (x :: s) = prev_after (Some x) s.
Proof.
  unfold prev_after. destruct s as [|y s]; [reflexivity|].
  change (last (x :: y :: s)) with (last (y :: s)).
  destruct (last (y :: s)) eqn:E; [reflexivity|].
  apply last_None in E. discriminate.
Qed.

Lemma prev_after_app prev s t :
  prev_after (prev_after prev s) t = prev_after prev (s ++ t).
Proof.
  revert prev. induction s as [|x s IH]; intros prev; [reflexivity|].
  cbn [app]. rewrite !prev_after_cons. apply IH.
Qed.

Lemma lit_at_sound s prev t p' :
  lit_at s (prev, t) = Some p' ->
  exists t1 t2, t = t1 ++ t2 /\
                Forall2 (fun c x => lit_match c x = true) s t1 /\
                p' = (prev_after prev t1, t2).
Proof.
  revert prev t. induction s as [|c s IH]; intros prev t; simpl.
  - intros [= <-]. exists [], t. repeat split. constructor.
  - destruct t as [|x rest]; [discriminate|].
    destruct (lit_match c x) eqn:E; [|discriminate].
    intros H. apply IH in H as (t1 & t2 & -> & Hf & ->).
    exists (x :: t1), t2. split; [reflexivity|]. split.
    + constructor; assumption.
    + rewrite prev_after_cons. reflexivity.
Qed.

Lemma lit_at_complete s prev t1 t2 :
  Forall2 (fun c x => lit_match c x = true) s t1 ->
  lit_at s (prev, t1 ++ t2) = Some (prev_after prev t1, t2).
Proof.
  intros H. revert prev. induction H as [|c x s t1 Hc _ IH]; intros prev.
  - reflexivity.
  - cbn [app lit_at]. rewrite Hc, IH, prev_after_cons. reflexivity.
Qed.

Lemma many_at_sound c k min prev s q :
  many_at c k min prev s = Some q ->
  exists s1 s2, s = s1 ++ s2 /\ (min <= length s1)%nat /\
                Forall (fun x => in_cls c x = true) s1 /\
                k (prev_after prev s1, s2) = Some q.
Proof.
  revert min prev. induction s as [|x rest IH]; intros min prev.
  - cbn [many_at]. destruct min; [|discriminate].
    intros H. exists [], []. repeat split; [lia | constructor | exact H].
  - cbn [many_at].
    assert (Hstop : match min with O => k (prev, x :: rest) | S _ => None end
                    = Some q ->
                    exists s1 s2, x :: rest = s1 ++ s2 /\ (min <= length s1)%nat /\
                      Forall (fun x => in_cls c x = true) s1 /\
                      k (prev_after prev s1, s2) = Some q).
    { destruct min; [|discriminate]. intros H.
      exists [], (x :: rest). repeat split; [lia | constructor | exact H]. }
    destruct (in_cls c x) eqn:Ex; [|exact Hstop].
    destruct (many_at c k (Nat.pred min) (Some x) rest) as [r|] eqn:Em;
      [|exact Hstop].
    intros [= <-]. apply IH in Em as (s1 & s2 & -> & Hlen & Hall & Hk).
    exists (x :: s1), s2. split; [reflexivity|]. split; [simpl; lia|].
    split; [constructor; assumption|].
    rewrite prev_after_cons. exact Hk.
Qed.

Lemma many_at_cons c k min prev x rest :
  many_at c k min prev (x :: rest) =
  if in_cls c x then
    match many_at c k (Nat.pred min) (Some x) rest with
    | Some r => Some r
    | None => match min with O => k (prev, x :: rest) | S _ => None end
    end
  else match min with O => k (prev, x :: rest) | S _ => None end.
Proof. reflexivity. Qed.

Lemma many_at_complete c k min prev s1 s2 q :
  (min <= length s1)%nat ->
  Forall (fun x => in_cls c x = true) s1 ->
  k (prev_after prev s1, s2) = Some q ->
  exists q', many_at c k min prev (s1 ++ s2) = Some q'.
Proof.
  intros Hlen Hall. revert min prev Hlen.
  induction Hall as [|x s1 Hx _ IH]; intros min prev Hlen Hk.
  - destruct min; [|simpl in Hlen; lia]. cbn [app].
    destruct s2 as [|y rest]; cbn [many_at]; [eauto|].
    destruct (in_cls c y); [|eauto].
    destruct (many_at c k (Nat.pred 0) (Some y) rest); eauto.
  - cbn [app]. rewrite many_at_cons, Hx.
    destruct (IH (Nat.pred min) (Some x)) as [q' Hq'].
    + simpl in Hlen. lia.
    + rewrite prev_after_cons in Hk. exact Hk.
    + match goal with
      | |- exists _, match ?t with _ => _ end = _ =>
        assert (E : t = Some q') by exact Hq'; rewrite E
      end.
      eauto.
Qed.

Lemma match_at_sound r :
  wordb_free r = true ->
  forall k prev s q,
    match_at r k (prev, s) = Some q ->
    exists s1 s2, s = s1 ++ s2 /\ lang r s1 /\
                  k (prev_after prev s1, s2) = Some q.
Proof.
  induction r as [c|l|a IHa b IHb|a IHa b IHb|a IHa|min c|];
    intros Hw k prev s q; cbn [match_at].
  - destruct s as [|x rest]; [discriminate|].
    destruct (in_cls c x) eqn:E; [|discriminate].
    intros H. exists [x], rest. repeat split; [constructor; exact E | exact H].
  - destruct (lit_at l (prev, s)) as [p'|] eqn:E; [|discriminate].
    apply lit_at_sound in E as (t1 & t2 & -> & Hf & ->).
    intros H. exists t1, t2. repeat split; [constructor; exact Hf | exact H].
  - cbn [wordb_free] in Hw. apply andb_true_iff in Hw as [Ha Hb].
    intros H. apply (IHa Ha) in H as (s1 & s2 & -> & La & H).
    apply (IHb Hb) in H as (t1 & t2 & -> & Lb & H).
    exists (s1 ++ t1), t2. rewrite <- app_assoc. split; [reflexivity|].
    split; [constructor; assumption|].
    rewrite <- prev_after_app. exact H.
  - cbn [wordb_free] in Hw. apply andb_true_iff in Hw as [Ha Hb].
    destruct (match_at a k (prev, s)) as [r|] eqn:E.
    + intros [= <-]. apply (IHa Ha) in E as (s1 & s2 & -> & La & H).
      exists s1, s2. repeat split; [apply lang_alt_l; exact La | exact H].
    + intros H. apply (IHb Hb) in H as (s1 & s2 & -> & Lb & H).
      exists s1, s2. repeat split; [apply lang_alt_r; exact Lb | exact H].
  - cbn [wordb_free] in Hw.
    destruct (match_at a k (prev, s)) as [r|] eqn:E.
    + intros [= <-]. apply (IHa Hw) in E as (s1 & s2 & -> & La & H).
      exists s1, s2. repeat split; [apply lang_opt_some; exact La | exact H].
    + intros H. exists [], s. repeat split; [constructor | exact H].
  - cbn [fst snd]. intros H.
    apply many_at_sound in H as (s1 & s2 & -> & Hlen & Hall & H).
    exists s1, s2. repeat split; [constructor; assumption | exact H].
  - discriminate Hw.
Qed.

Lemma match_at_complete r s1 :
  wordb_free r = true -> lang r s1 ->
  forall k prev s2 q,
    k (prev_after prev s1, s2) = Some q ->
    exists q', match_at r k (prev, s1 ++ s2) = Some q'.
Proof.
  intros Hw Hl. induction Hl as
    [c x Hx|l t Hf|a b s t La IHa Lb IHb|a b s La IHa|a b s Lb IHb|a|a s La IHa
    |min c s Hlen Hall]; intros k prev s2 q Hk; cbn [match_at].
  - cbn [app]. rewrite Hx. eauto.
  - pose proof (lit_at_complete l prev t s2 Hf) as E.
    unfold pos, str, char in *. rewrite E. eauto.
  - cbn [wordb_free] in Hw. apply andb_true_iff in Hw as [Ha Hb].
    rewrite <- app_assoc.
    rewrite <- prev_after_app in Hk.
    destruct (IHb Hb k (prev_after prev s) s2 q Hk) as [q1 H1].
    apply (IHa Ha (match_at b k) prev (t ++ s2) q1 H1).
  - cbn [wordb_free] in Hw. apply andb_true_iff in Hw as [Ha Hb].
    destruct (IHa Ha k prev s2 q Hk) as [q' ->]. eauto.
  - cbn [wordb_free] in Hw. apply andb_true_iff in Hw as [Ha Hb].
    match goal with
    | |- exists _, match ?t with _ => _ end = _ => destruct t; [eauto|]
    end.
    apply (IHb Hb k prev s2 q Hk).
  - cbn [app].
    match goal with
    | |- exists _, match ?t with _ => _ end = _ => destruct t; eauto
    end.
  - cbn [wordb_free] in Hw.
    destruct (IHa Hw k prev s2 q Hk) as [q' ->]. eauto.
  - cbn [fst snd]. eapply many_at_complete; eauto.
Qed.

Lemma search_from_eq r prev s :
  search_from r prev s =
  match match_at r Some (prev, s) with
  | Some (_, rest) => Some (s, rest)
  | None =>
    match s with
    | x :: s' => search_from r (Some x) s'
    | [] => None
    end
  end.
Proof. destruct s; reflexivity. Qed.

Lemma search_from_sound r prev s m rest :
  search_from r prev s = Some (m, rest) ->
  exists pre prev' pq, s = pre ++ m /\
                       match_at r Some (prev', m) = Some (pq, rest).
Proof.
  revert prev. induction s as [|x s IH]; intros prev; rewrite search_from_eq.
  - match goal with
    | |- match ?t with _ => _ end = _ -> _ =>
      destruct t as [[pq rest']|] eqn:E; [|discriminate]
    end.
    intros [= <- <-]. exists [], prev, pq. split; [reflexivity | exact E].
  - match goal with
    | |- match ?t with _ => _ end = _ -> _ =>
      destruct t as [[pq rest']|] eqn:E
    end.
    + intros [= <- <-]. exists [], prev, pq. split; [reflexivity | exact E].
    + intros H. apply IH in H as (pre & prev' & pq & -> & H).
      exists (x :: pre), prev', pq. split; [reflexivity | exact H].
Qed.

Lemma search_from_complete r s1 :
  wordb_free r = true -> lang r s1 ->
  forall pre prev s2, exists m, search_from r prev (pre ++ s1 ++ s2) = Some m.
Proof.
  intros Hw Hl pre. induction pre as [|x pre IH]; intros prev s2.
  - cbn [app]. rewrite search_from_eq.
    destruct (match_at_complete r s1 Hw Hl Some prev s2 _ eq_refl)
      as [[pq rest] Hq].
    unfold pos, str, char in *. rewrite Hq. eauto.
  - cbn [app]. rewrite search_from_eq.
    match goal with
    | |- exists _, match ?t with _ => _ end = _ =>
      destruct t as [[pq rest]|]; [eauto | apply IH]
    end.
Qed.

Lemma volume_pattern_shape :
  volume_pattern =
  RSeq (RSeq number (RMany 0 CSpace))
       (RAlt (RAlt (RAlt (RAlt (RAlt (RAlt (lit "л") (lit "л.")) (lit "мл"))
                               (lit "ml")) (lit "l")) (lit "литр"))
             (lit "миллилитр")) /\
  subname_volume_pattern =
  RSeq (RSeq (RSeq number (RMany 0 CSpace))
             (RAlt (RAlt (RAlt (RAlt (lit "л") (lit "л.")) (lit "мл"))
                         (lit "ml")) (lit "l")))
       RWordB.
Proof. split; reflexivity. Qed.

Lemma group0_app s1 s2 : group0 (s1 ++ s2, s2) = s1.
Proof.
  unfold group0. cbn [fst snd]. rewrite length_app.
  replace (length s1 + length s2 - length s2)%nat with (length s1) by lia.
  apply take_app_length.
Qed.

(** What the subname pattern matched also matches the title pattern, so it
    is found in any text that ends with it. *)
Lemma subname_volume_found sub m :
  search subname_volume_pattern sub = Some m ->
  (exists pre rest, sub = pre ++ group0 m ++ rest) /\
  group0 m <> [] /\
  forall pre, exists m', search volume_pattern (pre ++ group0 m) = Some m'.
Proof.
  destruct m as [s0 rest]. unfold search. intros H.
  apply search_from_sound in H as (pre & prev' & pq & -> & H).
  destruct volume_pattern_shape as [Ev Es]. rewrite Es in H.
  change (match_at (RSeq ?a RWordB) Some ?p)
    with (match_at a (match_at RWordB Some) p) in H.
  apply match_at_sound in H as (s1 & s2 & -> & Hl & H); [|reflexivity].
  cbn [match_at] in H.
  match type of H with
  | (if ?c then _ else _) = _ => destruct c; [|discriminate H]
  end.
  injection H as _ <-.
  rewrite group0_app.
  inversion Hl as [| |a b x y Hxy Hu| | | | |]; subst.
  split; [exists pre, s2; reflexivity|]. split.
  - inversion Hxy as [| |a b n sp Hn Hsp| | | | |]; subst.
    inversion Hn as [| |a b dg fr Hd Hf| | | | |]; subst.
    inversion Hd as [| | | | | | |mn c dg' Hlen Hall]; subst.
    destruct dg; [simpl in Hlen; lia | discriminate].
  - intros pre'.
    assert (Hv : lang volume_pattern (x ++ y)).
    { rewrite Ev. constructor; [exact Hxy|].
      apply lang_alt_l, lang_alt_l. exact Hu. }
    destruct (search_from_complete volume_pattern (x ++ y) eq_refl Hv pre' None [])
      as [m' Hm'].
    rewrite app_nil_r in Hm'. exists m'. exact Hm'.
Qed.

(** X20. A title that received the volume of the subname holds a volume: the
    text the subname pattern matched is also matched by the pattern that
    looks for a volume in a title.  So for a record without a volume label
    whose name holds no volume and whose subname does, the title is the
    name followed by [", "] and the volume, and a record that bears this
    title as its name keeps it unchanged. *)
Theorem subname_volume_title_stable (d d' : dict) (name sub : str)
    (labels : list value) (m : str * str) (title' : value) :
  get_or d "name" (VStr []) = VStr name ->
  get_or d "subname" (VStr []) = VStr sub ->
  py_iter (get_or d "filter_labels" (VList [])) = Ok labels ->
  first_label (u "obem") labels = None ->
  search volume_pattern name = None ->
  search subname_volume_pattern sub = Some m ->
  let title := VStr (name ++ u ", " ++ group0 m) in
  list_title d = Ok title /\
  _check_volume_in_title title = Ok true /\
  (get_or d' "name" (VStr []) = title -> list_title d' = Ok title' ->
   title' = title).
Proof.
  intros Hname Hsub Hlabels Hnone Hno Hm. cbv zeta.
  destruct (subname_volume_found sub m Hm) as (_ & Hne & Hfound).
  assert (Hcheck : _check_volume_in_title (VStr (name ++ u ", " ++ group0 m))
                   = Ok true).
  { unfold _check_volume_in_title.
    destruct (Hfound (name ++ u ", ")) as [m' Hm'].
    rewrite <- app_assoc in Hm'. rewrite Hm'. reflexivity. }
  split; [|split; [exact Hcheck|]].
  - unfold list_title, _extract_volume. rewrite Hlabels. cbn [bind].
    rewrite Hnone, Hsub, Hname.
    assert (Ht : truthy (VStr sub) = true).
    { destruct sub; [|reflexivity]. discriminate Hm. }
    rewrite Ht, Hm. cbn [bind _check_volume_in_title]. rewrite Hno.
    cbn [bind negb andb].
    assert (Hg : truthy (VStr (group0 m)) = true)
      by (simpl; destruct (group0 m); [contradiction | reflexivity]).
    rewrite Hg. reflexivity.
  - intros Hn' Ht'.
    destruct (list_title_spec d' title' Ht') as [H _].
    cbv zeta in H. rewrite Hn' in H. apply H. exact Hcheck.
Qed.

End Regex.

Lemma subname_volume_title_stable_witness :
  list_title (R := Demo.runtime) Demo.list_record
  = Ok (VStr (u "Балтика 7 пиво" ++ u ", " ++ group0 (u "0.5 л", []))) /\
  _check_volume_in_title (R := Demo.runtime)
    (VStr (u "Балтика 7 пиво" ++ u ", " ++ group0 (u "0.5 л", [])))
  = Ok true.
Proof.
  assert (H1 : get_or Demo.list_record "name" (VStr [])
               = VStr (u "Балтика 7 пиво")) by (vm_compute; reflexivity).
  assert (H2 : get_or Demo.list_record "subname" (VStr [])
               = VStr (u "Пиво светлое 0.5 л")) by (vm_compute; reflexivity).
  assert (H3 : py_iter (get_or Demo.list_record "filter_labels" (VList []))
               = Ok []) by (vm_compute; reflexivity).
  assert (H4 : search (R := Demo.runtime) volume_pattern (u "Балтика 7 пиво")
               = None) by (vm_compute; reflexivity).
  assert (H5 : search (R := Demo.runtime) subname_volume_pattern
                 (u "Пиво светлое 0.5 л") = Some (u "0.5 л", []))
    by (vm_compute; reflexivity).
  destruct (subname_volume_title_stable (R := Demo.runtime)
              Demo.list_record Demo.list_record _ _ [] _ VNone
              H1 H2 H3 eq_refl H4 H5) as (A & B & _).
  split; [exact A | exact B].
Defined.

Import ObsProxy.

(** ** The proxy middleware from [__init__] on *)

Section ProxyRuns.
Context {R : Runtime}.
Import Proxy.

Lemma step_settings s o :
  mode (step s o) = mode s /\ proxy_endpoint (step s o) = proxy_endpoint s.
Proof.
  destruct o as [r|r]; simpl.
  - unfold process_request.
    destruct (enabled s); cbn [negb]; cbv iota; [|tauto].
    destruct (proxy (req_meta r)); [tauto|].
    destruct (rotating s && _).
    + unfold _get_next_proxy.
      pose proof (next_proxy_loop_frame (length (proxies s) * 2) s) as F.
      destruct (next_proxy_loop (length (proxies s) * 2) s) as [[[|c p]|] t];
        simpl in F; split; simpl; tauto.
    + destruct (proxy_endpoint s) as [[|c e]|] eqn:E; simpl; rewrite ?E;
        split; reflexivity.
  - unfold process_exception.
    destruct (proxy (req_meta r)); cbn [fst]; [|tauto].
    destruct (rotating s); [|tauto].
    split; [apply mode_record_failure|].
    unfold record_failure.
    repeat match goal with
           | |- context [if ?c then _ else _] => destruct c
           | |- context [match ?l with [] => _ | _ => _ end] => destruct l eqn:?
           end; reflexivity.
Qed.

Lemma run_settings ops s :
  mode (run s ops) = mode s /\ proxy_endpoint (run s ops) = proxy_endpoint s.
Proof.
  revert s. induction ops as [|o ops IH]; intros s; simpl; [tauto|].
  destruct (IH (step s o)) as [A B]. destruct (step_settings s o) as [C D].
  split; congruence.
Qed.

(** X21. Once [__init__] has run with [PROXY_ENABLED] set, no sequence of
    calls brings the middleware into a state in which [process_request]
    raises: the branch that reads [self.proxy_endpoint], an attribute that
    rotating mode never sets, is only reached in single-endpoint mode. *)
Theorem proxy_request_never_raises (proxy_mode auth endpoint : str)
    (file : option (list str)) (proxy_list : list str) (ops : list op)
    (r : request) :
  exists s' r',
    process_request (run (init proxy_mode auth endpoint file proxy_list) ops) r
    = Ok (s', r').
Proof.
  pose proof (empty_pool_disabled proxy_mode auth endpoint file proxy_list ops)
    as He. cbv zeta in He.
  destruct (run_settings ops (init proxy_mode auth endpoint file proxy_list))
    as [Hm Hp].
  set (s := run _ ops) in *.
  unfold process_request.
  destruct (enabled s) eqn:En; simpl; [|eauto].
  destruct (proxy (req_meta r)); [eauto|].
  destruct (rotating s) eqn:Er; simpl.
  - destruct (proxies s) as [|p0 l] eqn:El; [specialize (He eq_refl eq_refl); congruence|].
    destruct (_get_next_proxy s) as [[[|c p]|] t]; eauto.
  - unfold rotating in Er. rewrite Hm in Er. rewrite Hp.
    assert (Hi : proxy_endpoint (init proxy_mode auth endpoint file proxy_list)
                 = Some endpoint).
    { unfold init in *.
      destruct (bool_decide (proxy_mode = u "rotating")) eqn:Em; simpl in *;
        [congruence | reflexivity]. }
    rewrite Hi. destruct endpoint; eauto.
Qed.

(** *** Rotation picks *)

Lemma failures_set_index i s p : failures (set_index i s) p = failures s p.
Proof. reflexivity. Qed.

(** A loop that gives up has seen only exhausted proxies. *)
Lemma next_proxy_loop_none n s :
  fst (next_proxy_loop n s) = None -> proxies s <> [] ->
  forall k p, (k < n)%nat ->
    proxies s !! ((current_proxy_index s + k) mod length (proxies s))%nat
    = Some p ->
    (max_failures <= failures s p)%nat.
Proof.
  revert s. induction n as [|n IH]; intros s Hn Hne k p Hk Hp; [lia|].
  simpl in Hn. destruct (proxies s) as [|p0 l] eqn:E; [congruence|].
  rewrite <- E in *.
  destruct (failures s _ <? max_failures)%nat eqn:Ec; [discriminate|].
  apply Nat.ltb_ge in Ec.
  destruct k as [|k].
  - rewrite Nat.add_0_r in Hp. rewrite nth_lookup, Hp in Ec. exact Ec.
  - apply (IH (set_index (S (current_proxy_index s)) s) Hn Hne k p);
      [lia|].
    cbn [proxies current_proxy_index set_index].
    rewrite <- Hp. f_equal. f_equal. lia.
Qed.

(** What a loop returns is in the pool. *)
Lemma next_proxy_loop_member n s p :
  fst (next_proxy_loop n s) = Some p -> p ∈ proxies s.
Proof.
  revert s. induction n as [|n IH]; intros s; simpl; [discriminate|].
  destruct (proxies s) as [|p0 l] eqn:E; [discriminate|]. rewrite <- E.
  destruct (failures s _ <? max_failures)%nat.
  - intros [= <-]. rewrite nth_lookup.
    destruct (proxies s !! _) as [q|] eqn:Eq; simpl.
    + eapply list_elem_of_lookup_2. exact Eq.
    + rewrite E. left.
  - intros H. apply IH in H. exact H.
Qed.

Lemma rotation_reaches (i j len : nat) :
  (j < len)%nat ->
  exists k, (k < len)%nat /\ ((i + k) mod len = j)%nat.
Proof.
  intros Hj. exists ((j + len - i mod len) mod len)%nat.
  assert (Hlen : len <> 0%nat) by lia.
  split; [apply Nat.mod_upper_bound; exact Hlen|].
  rewrite Nat.Div0.add_mod_idemp_r.
  pose proof (Nat.div_mod_eq i len) as Hd.
  pose proof (Nat.mod_upper_bound i len Hlen) as Hb.
  replace (i + (j + len - i mod len))%nat
    with (j + S (i / len) * len)%nat by nia.
  rewrite Nat.Div0.mod_add. apply Nat.mod_small. exact Hj.
Qed.

(** X22. A rotation pick finds a working proxy whenever the pool has one:
    if some address in the pool has fewer than [max_failures] recorded
    failures, [_get_next_proxy] returns an address of the pool with fewer
    than [max_failures] failures. *)
Theorem pick_finds_working_proxy (s : pstate) (p : str) :
  p ∈ proxies s -> (failures s p < max_failures)%nat ->
  exists q, pick s = Some q /\ q ∈ proxies s /\
            (failures s q < max_failures)%nat.
Proof.
  intros Hin Hf. unfold pick, _get_next_proxy.
  destruct (fst (next_proxy_loop (length (proxies s) * 2) s)) as [q|] eqn:E.
  - exists q. split; [reflexivity|]. split.
    + eapply next_proxy_loop_member. exact E.
    + eapply next_proxy_loop_active. exact E.
  - exfalso. apply list_elem_of_lookup_1 in Hin as [j Hj].
    pose proof (lookup_lt_Some _ _ _ Hj) as Hlt.
    destruct (rotation_reaches (current_proxy_index s) j
                (length (proxies s)) Hlt) as (k & Hk & Hmod).
    assert (Hne : proxies s <> []) by (intros H0; rewrite H0 in Hj; discriminate).
    pose proof (next_proxy_loop_none _ s E Hne k p) as H.
    rewrite Hmod in H. specialize (H ltac:(lia) Hj). lia.
Qed.

(** *** Pools of distinct addresses *)

Lemma healthy_record_failure p s : healthy s -> healthy (record_failure p s).
Proof.
  intros [Hnd Hall]. unfold healthy.
  rewrite proxies_record_failure.
  destruct (Nat.leb_spec max_failures (S (failures s p))) as [Hle|Hlt].
  - destruct (remove_first_NoDup p _ Hnd) as [Hnd' Hout].
    split; [exact Hnd'|]. intros q Hq.
    rewrite failures_record_failure. case_bool_decide as E.
    + subst q. contradiction.
    + apply Hall. eapply remove_first_subset. exact Hq.
  - split; [exact Hnd|]. intros q Hq.
    rewrite failures_record_failure. destruct (Hall q Hq) as [Hq1 Hq2].
    case_bool_decide as E; [subst q|]; split; auto; lia.
Qed.

Lemma healthy_step s o : healthy s -> healthy (step s o).
Proof.
  intros H. destruct o as [r|r]; simpl.
  - destruct (process_request s r) as [[s' r']|] eqn:E; [|exact H].
    apply process_request_frame in E as (E1 & E2 & _).
    destruct H as [Hnd Hall]. unfold healthy, failures in *.
    rewrite E1, E2. split; assumption.
  - unfold process_exception. destruct (proxy (req_meta r)); cbn [fst]; [|exact H].
    destruct (rotating s); [|exact H].
    apply healthy_record_failure. exact H.
Qed.

Lemma healthy_run ops s : healthy s -> healthy (run s ops).
Proof.
  revert s. induction ops as [|o ops IH]; intros s H; simpl; [exact H|].
  apply IH, healthy_step, H.
Qed.

Lemma normalized_nonempty l p : p ∈ normalized l -> p <> [].
Proof.
  unfold normalized. intros H. apply list_elem_of_omap in H as (x & _ & Hx).
  destruct (_normalize_proxy x) as [[|c q]|]; [discriminate| |discriminate].
  injection Hx as <-. discriminate.
Qed.

Lemma load_proxies_nonempty file proxy_list p :
  p ∈ _load_proxies file proxy_list -> p <> [].
Proof.
  unfold _load_proxies. destruct file as [lines|].
  - destruct (normalized (List.filter keep_line (map strip lines))) eqn:E.
    + apply normalized_nonempty.
    + rewrite <- E. apply normalized_nonempty.
  - apply normalized_nonempty.
Qed.

Lemma healthy_init proxy_mode auth endpoint file proxy_list :
  NoDup (_load_proxies file proxy_list) ->
  healthy (init proxy_mode auth endpoint file proxy_list).
Proof.
  intros Hnd. unfold init, healthy.
  destruct (bool_decide (proxy_mode = u "rotating")); cbn [proxies].
  - split; [exact Hnd|]. intros p Hp. split.
    + unfold failures. cbn [proxy_failures]. rewrite lookup_empty.
      unfold max_failures. simpl. lia.
    + eapply load_proxies_nonempty. exact Hp.
  - split; [constructor|]. intros p Hp. apply elem_of_nil in Hp. contradiction.
Qed.

(** With a working proxy at the index, the pick is that proxy. *)
Lemma next_proxy_loop_first n s p :
  proxies s !! (current_proxy_index s mod length (proxies s))%nat = Some p ->
  (failures s p < max_failures)%nat ->
  next_proxy_loop (S n) s = (Some p, set_index (S (current_proxy_index s)) s).
Proof.
  intros Hp Hf. revert Hp. cbn [next_proxy_loop].
  destruct (proxies s) as [|p0 l] eqn:El; intros Hp;
    [rewrite lookup_nil in Hp; discriminate|].
  rewrite nth_lookup, Hp. unfold default, from_option, id.
  apply Nat.ltb_lt in Hf. rewrite Hf. reflexivity.
Qed.

Lemma get_next_proxy_first s p :
  proxies s !! (current_proxy_index s mod length (proxies s))%nat = Some p ->
  (failures s p < max_failures)%nat ->
  _get_next_proxy s = (Some p, set_index (S (current_proxy_index s)) s).
Proof.
  intros Hp Hf. unfold _get_next_proxy.
  destruct (length (proxies s) * 2)%nat as [|n] eqn:En.
  - destruct (proxies s); [rewrite lookup_nil in Hp|]; discriminate.
  - apply next_proxy_loop_first; assumption.
Qed.

(** X23. When the loaded pool lists no address twice, rotation is a plain
    round robin for the whole run: no address in the pool ever stands at
    [max_failures], and as long as the middleware is enabled a request
    without a proxy is given the address at [current_proxy_index] modulo
    the pool size, its [proxy_retry_times] is set to 0 and the index moves
    on by one. *)
Theorem rotation_round_robin (auth endpoint : str)
    (file : option (list str)) (proxy_list : list str) (ops : list op)
    (r : request) :
  NoDup (_load_proxies file proxy_list) ->
  let s := run (init (u "rotating") auth endpoint file proxy_list) ops in
  (forall p, p ∈ proxies s -> (failures s p < max_failures)%nat) /\
  (enabled s = true -> proxy (req_meta r) = None ->
   exists p r',
     proxies s !! (current_proxy_index s mod length (proxies s))%nat = Some p /\
     process_request s r = Ok (set_index (S (current_proxy_index s)) s, r') /\
     proxy (req_meta r') = Some p /\
     proxy_retry_times (req_meta r') = Some 0).
Proof.
  intros Hnd s.
  pose proof (healthy_run ops _
                (healthy_init (u "rotating") auth endpoint file proxy_list Hnd))
    as [_ Hall].
  pose proof (empty_pool_disabled (u "rotating") auth endpoint file proxy_list
                ops) as He. cbv zeta in He.
  destruct (run_settings ops (init (u "rotating") auth endpoint file proxy_list))
    as [Hm _].
  fold s in Hall, He, Hm.
  assert (Hrot : rotating s = true).
  { unfold rotating. rewrite Hm. unfold init.
    rewrite bool_decide_eq_true_2 by reflexivity. cbn [mode].
    rewrite ?bool_decide_eq_true_2 by reflexivity. reflexivity. }
  split; [intros p Hp; apply Hall; exact Hp|].
  intros En Hr.
  destruct (proxies s) as [|p0 l] eqn:El;
    [specialize (He Hrot eq_refl); congruence|].
  assert (Hlt : (current_proxy_index s mod length (proxies s)
                 < length (proxies s))%nat).
  { apply Nat.mod_upper_bound. rewrite El. discriminate. }
  destruct (lookup_lt_is_Some_2 _ _ Hlt) as [p Hp].
  assert (Hin : p ∈ proxies s) by (eapply list_elem_of_lookup_2; exact Hp).
  rewrite El in Hin. destruct (Hall p Hin) as [Hf Hne].
  destruct p as [|c p]; [congruence|].
  rewrite <- El.
  exists (c :: p).
  unfold process_request. rewrite En, Hr, Hrot, El. cbn [negb andb].
  rewrite <- El, (get_next_proxy_first s (c :: p) Hp Hf).
  eexists. split; [exact Hp|]. split; [reflexivity|].
  split; reflexivity.
Qed.

(** *** A request whose downloads all fail *)

Lemma sum_remove_first (f : str -> nat) p l :
  (sum_list (map f (remove_first p l)) <= sum_list (map f l))%nat.
Proof.
  induction l as [|y l IH]; simpl; [lia|].
  case_bool_decide; simpl; lia.
Qed.

Lemma sum_drop (f f' : str -> nat) p l :
  (forall q, f' q <= f q)%nat -> p ∈ l -> (f' p < f p)%nat ->
  (sum_list (map f' l) < sum_list (map f l))%nat.
Proof.
  intros Hle Hin Hlt.
  assert (Hall : forall l', (sum_list (map f' l') <= sum_list (map f l'))%nat).
  { induction l' as [|y l' IH]; simpl; [lia|]. specialize (Hle y). lia. }
  induction l as [|y l IH]; [apply elem_of_nil in Hin; contradiction|].
  simpl. apply elem_of_cons in Hin as [<-|Hin].
  - specialize (Hall l). lia.
  - specialize (IH Hin). specialize (Hle y). lia.
Qed.

(** A failure of a working proxy of the pool uses up slack. *)
Lemma slack_record_failure p s :
  p ∈ proxies s -> (failures s p < max_failures)%nat ->
  (slack (record_failure p s) < slack s)%nat.
Proof.
  intros Hin Hf. unfold slack.
  set (f' := fun q => (max_failures - failures (record_failure p s) q)%nat).
  set (f := fun q => (max_failures - failures s q)%nat).
  assert (Hle : forall q, (f' q <= f q)%nat).
  { intros q. unfold f', f. rewrite failures_record_failure.
    case_bool_decide; lia. }
  assert (Hlt : (f' p < f p)%nat).
  { unfold f', f. rewrite failures_record_failure.
    rewrite bool_decide_eq_true_2 by reflexivity. lia. }
  pose proof (sum_drop f f' p (proxies s) Hle Hin Hlt) as Hd.
  rewrite proxies_record_failure.
  destruct (max_failures <=? S (failures s p))%nat; [|exact Hd].
  pose proof (sum_remove_first f' p (proxies s)). lia.
Qed.

Lemma slack_bound s : (slack s <= max_failures * length (proxies s))%nat.
Proof.
  unfold slack. induction (proxies s) as [|y l IH]; simpl; [lia|].
  unfold max_failures in *. lia.
Qed.

Lemma bounce_disabled fuel s r :
  enabled s = false -> proxy (req_meta r) = None ->
  snd (bounce fuel s r) = 0%nat.
Proof.
  intros En Hr. destruct fuel as [|n]; [reflexivity|].
  cbn [bounce]. unfold process_request. rewrite En. cbn [negb].
  unfold process_exception. rewrite Hr. reflexivity.
Qed.

(** With a pool, the rounds are paid for with slack. *)
Lemma bounce_rotating fuel s r :
  rotating s = true -> proxies s <> [] -> proxy (req_meta r) = None ->
  (snd (bounce fuel s r) <= slack s)%nat.
Proof.
  revert s r. induction fuel as [|n IH]; intros s r Hrot Hne Hr; [simpl; lia|].
  destruct (enabled s) eqn:En;
    [|rewrite bounce_disabled by assumption; lia].
  cbn [bounce]. unfold process_request. rewrite En, Hr, Hrot. cbn [negb andb].
  destruct (proxies s) as [|p0 l] eqn:El; [congruence|]. rewrite <- El in *.
  pose proof (next_proxy_loop_frame (length (proxies s) * 2) s) as F.
  pose proof (next_proxy_loop_member (length (proxies s) * 2) s) as M.
  pose proof (next_proxy_loop_active (length (proxies s) * 2) s) as A.
  unfold _get_next_proxy.
  destruct (next_proxy_loop (length (proxies s) * 2) s) as [[[|c p]|] t];
    cbn [fst snd] in *;
    try (unfold process_exception; rewrite Hr; cbn [snd]; lia).
  destruct F as (F1 & F2 & F3 & F4 & F5).
  specialize (M _ eq_refl). specialize (A _ eq_refl).
  unfold process_exception. cbn [proxy req_meta with_proxy proxy_retry_times].
  assert (Hrt : rotating t = true) by (unfold rotating in *; rewrite F2; exact Hrot).
  rewrite Hrt. cbn [default from_option id].
  change (0 + 1 <? 3) with true. cbv iota.
  match goal with
  | |- context [bounce n ?s2 ?r2] =>
    assert (Hk : (snd (bounce n s2 r2) < slack s)%nat);
      [|destruct (bounce n s2 r2) as [s3 k]; cbn [snd] in *; lia]
  end.
  assert (Hs : (slack (record_failure (c :: p) t) < slack s)%nat).
  { assert (Est : slack s = slack t)
      by (unfold slack, failures; rewrite F3, F4; reflexivity).
    rewrite Est. apply slack_record_failure.
    - rewrite F3. exact M.
    - unfold failures in *. rewrite F4. exact A. }
  destruct (proxies (record_failure (c :: p) t)) as [|q0 l'] eqn:El'.
  - rewrite bounce_disabled; [lia| |reflexivity].
    rewrite enabled_record_failure.
    rewrite proxies_record_failure in El'.
    destruct (max_failures <=? S (failures t (c :: p)))%nat;
      [|rewrite F3 in El'; congruence].
    unfold mem. rewrite bool_decide_eq_true_2 by (rewrite F3; exact M).
    rewrite El'. reflexivity.
  - eapply Nat.le_lt_trans; [|exact Hs].
    apply IH; [|rewrite El'; discriminate|reflexivity].
    unfold rotating in *. rewrite mode_record_failure. exact Hrt.
Qed.

(** Without a pool, the rounds are bounded by [proxy_retry_times]. *)
Lemma bounce_single fuel s r :
  rotating s && match proxies s with [] => false | _ => true end = false ->
  proxy (req_meta r) = None ->
  (snd (bounce fuel s r)
   <= Z.to_nat (2 - default 0%Z (proxy_retry_times (req_meta r))))%nat.
Proof.
  revert s r. induction fuel as [|n IH]; intros s r Hc Hr; [simpl; lia|].
  destruct (enabled s) eqn:En;
    [|rewrite bounce_disabled by assumption; lia].
  cbn [bounce]. unfold process_request. rewrite En, Hr, Hc. cbn [negb].
  destruct (proxy_endpoint s) as [[|c e]|]; [| |cbn [snd]; lia].
  - unfold process_exception. rewrite Hr. cbn [snd]. lia.
  - unfold process_exception. cbn [proxy req_meta with_proxy proxy_retry_times].
    destruct (default 0 (proxy_retry_times (req_meta r)) + 1 <? 3) eqn:Et;
      [|cbn [snd]; lia].
    apply Z.ltb_lt in Et.
    match goal with
    | |- context [bounce n ?s2 ?r2] =>
      assert (Hk : (snd (bounce n s2 r2)
                    <= Z.to_nat (2 - (default 0%Z (proxy_retry_times (req_meta r)) + 1)))%nat);
        [|destruct (bounce n s2 r2) as [s3 k]; cbn [snd] in *; lia]
    end.
    match goal with
    | |- context [bounce n ?s2 ?r2] =>
      specialize (IH s2 r2)
    end.
    cbn [proxy req_meta with_proxy proxy_retry_times default from_option id] in IH.
    apply IH; [|reflexivity].
    destruct (rotating s) eqn:Er; [|rewrite Er; reflexivity].
    cbn [andb] in Hc. destruct (proxies s) as [|p0 l] eqn:El; [|discriminate].
    rewrite proxies_record_failure, El.
    destruct (max_failures <=? _)%nat; cbn [remove_first];
      apply andb_false_r.
Qed.

(** X24. A request whose every download fails is not rescheduled for ever.
    In rotating mode with a pool, each round charges a failure to a working
    proxy of the pool, so the request comes back at most [max_failures]
    times the pool size, whatever [proxy_retry_times] says; otherwise the
    counter [proxy_retry_times] stops a fresh request after it has come
    back twice. *)
Theorem proxy_retries_bounded (fuel : nat) (s : pstate) (r : request) :
  proxy (req_meta r) = None ->
  proxy_retry_times (req_meta r) = None ->
  (snd (bounce fuel s r)
   <= if rotating s && match proxies s with [] => false | _ => true end
      then max_failures * length (proxies s) else 2)%nat.
Proof.
  intros Hr Ht.
  destruct (rotating s && match proxies s with [] => false | _ => true end)
    eqn:Hc.
  - apply andb_true_iff in Hc as [Hrot Hne].
    pose proof (bounce_rotating fuel s r Hrot) as H.
    pose proof (slack_bound s).
    destruct (proxies s) as [|p0 l] eqn:El; [discriminate|].
    specialize (H ltac:(discriminate) Hr). lia.
  - pose proof (bounce_single fuel s r Hc Hr) as H.
    rewrite Ht in H. cbn [default from_option id] in H. lia.
Qed.

(** *** The loaded pool *)

Lemma normalize_supported x q :
  _normalize_proxy x = Some q -> supported q = true.
Proof.
  unfold _normalize_proxy, supported.
  destruct (strip x) as [|c t]; [discriminate|].
  match goal with
  | |- (if ?b then _ else _) = _ -> _ => destruct b eqn:E; [|discriminate]
  end.
  intros [= <-]. exact E.
Qed.

Lemma strip_id s : trimmed s = true -> strip s = s.
Proof.
  unfold trimmed. intros H. apply andb_true_iff in H as [H1 H2].
  unfold strip. rewrite (lstrip_id s).
  - rewrite lstrip_id; [apply rev_involutive|].
    destruct (rev s); [exact I|]. apply negb_true_iff. exact H2.
  - destruct s; [exact I|]. apply negb_true_iff. exact H1.
Qed.

Lemma trimmed_scheme t :
  is_space 104%N = false -> t <> [] -> trimmed t = true ->
  trimmed (u "http://" ++ t) = true.
Proof.
  intros Hh Hne Ht. unfold trimmed in *.
  apply andb_true_iff in Ht as [_ Ht].
  apply andb_true_intro. split.
  - change (u "http://") with [104; 116; 116; 112; 58; 47; 47]%N.
    cbn [app]. rewrite Hh. reflexivity.
  - rewrite rev_app_distr.
    destruct (rev t) as [|c t'] eqn:E; [|exact Ht].
    apply (f_equal (@rev _)) in E. rewrite rev_involutive in E. contradiction.
Qed.

Lemma infixb_scheme t : infixb (u "://") (u "http://" ++ t) = true.
Proof.
  change (u "http://") with [104; 116; 116; 112; 58; 47; 47]%N.
  change (u "://") with [58; 47; 47]%N.
  cbn. reflexivity.
Qed.

Lemma normalize_fixed x q :
  is_space 104%N = false ->
  _normalize_proxy x = Some q -> _normalize_proxy q = Some q.
Proof.
  intros Hh H. pose proof (normalize_supported x q H) as Hs.
  unfold _normalize_proxy in H.
  pose proof (strip_trimmed x) as Ht.
  destruct (strip x) as [|c t] eqn:Ex; [discriminate|].
  assert (Hq : strip q = q /\ infixb (u "://") q = true).
  { destruct (infixb (u "://") (c :: t)) eqn:Ei.
    - destruct (_ || _) in H; [|discriminate]. injection H as <-.
      split; [|exact Ei]. apply strip_id. exact Ht.
    - destruct (_ || _) in H; [|discriminate]. injection H as <-.
      split; [|apply infixb_scheme].
      apply strip_id. apply trimmed_scheme; [exact Hh|discriminate|exact Ht]. }
  destruct Hq as [Hq1 Hq2].
  unfold _normalize_proxy. rewrite Hq1.
  destruct q as [|d q']; [discriminate|].
  rewrite Hq2. unfold supported in Hs. rewrite Hs. reflexivity.
Qed.

(** X25. Every address of the loaded pool starts with one of the schemes
    [http://], [https://], [socks4://] and [socks5://], whether it came
    from the proxy file or from [PROXY_LIST]; and as the letter h is no
    white space, normalising it again returns it unchanged. *)
Theorem loaded_proxies_supported (file : option (list str))
    (proxy_list : list str) (p : str) :
  p ∈ _load_proxies file proxy_list ->
  supported p = true /\
  (is_space 104%N = false -> _normalize_proxy p = Some p).
Proof.
  assert (H : forall l, p ∈ normalized l ->
            supported p = true /\
            (is_space 104%N = false -> _normalize_proxy p = Some p)).
  { intros l Hin. unfold normalized in Hin.
    apply list_elem_of_omap in Hin as (x & _ & Hx).
    destruct (_normalize_proxy x) as [[|c q]|] eqn:E;
      [discriminate| |discriminate]. injection Hx as <-.
    split; [eapply normalize_supported; exact E|].
    intros Hh. eapply normalize_fixed; [exact Hh | exact E]. }
  unfold _load_proxies. destruct file as [lines|]; [|apply H].
  destruct (normalized (List.filter keep_line (map strip lines))) eqn:E.
  - apply H.
  - rewrite <- E. apply H.
Qed.

End ProxyRuns.

Lemma pick_finds_working_proxy_witness :
  exists q, Proxy.pick Demo.pool = Some q /\
            q ∈ Proxy.proxies Demo.pool /\
            (Proxy.failures Demo.pool q < Proxy.max_failures)%nat.
Proof.
  apply (pick_finds_working_proxy Demo.pool Demo.proxy_a).
  - vm_compute. left.
  - vm_compute. lia.
Defined.

Lemma rotation_round_robin_witness :
  let s := Proxy.run (R := Demo.runtime)
             (Proxy.init (R := Demo.runtime) (u "rotating") [] [] None
                [Demo.proxy_a; Demo.proxy_b; Demo.proxy_c])
             [Proxy.Request (Demo.detail_req None)] in
  exists p r',
    Proxy.proxies s
      !! (Proxy.current_proxy_index s mod length (Proxy.proxies s))%nat
    = Some p /\
    Proxy.process_request (R := Demo.runtime) s (Demo.detail_req None)
    = Ok (Proxy.set_index (S (Proxy.current_proxy_index s)) s, r') /\
    proxy (req_meta r') = Some p /\
    proxy_retry_times (req_meta r') = Some 0.
Proof.
  assert (Hnd : NoDup (Proxy._load_proxies (R := Demo.runtime) None
                         [Demo.proxy_a; Demo.proxy_b; Demo.proxy_c])).
  { refine (bool_decide_unpack (NoDup _) _). vm_compute. exact I. }
  destruct (rotation_round_robin (R := Demo.runtime) [] [] None
              [Demo.proxy_a; Demo.proxy_b; Demo.proxy_c]
              [Proxy.Request (Demo.detail_req None)] (Demo.detail_req None)
              Hnd) as [_ H].
  apply H; vm_compute; reflexivity.
Defined.

Lemma proxy_retries_bounded_witness :
  (snd (bounce (R := Demo.runtime) 20 Demo.pool (Demo.detail_req None))
   <= 9)%nat.
Proof.
  exact (proxy_retries_bounded (R := Demo.runtime) 20 Demo.pool
           (Demo.detail_req None) eq_refl eq_refl).
Defined.

Lemma loaded_proxies_supported_witness :
  supported (u "http://10.0.0.1:8080") = true /\
  (Py.is_space (Runtime := Demo.runtime) 104%N = false ->
   Proxy._normalize_proxy (R := Demo.runtime) (u "http://10.0.0.1:8080")
   = Some (u "http://10.0.0.1:8080")).
Proof.
  apply (loaded_proxies_supported (R := Demo.runtime)
           (Some [u "# proxies"; u " 10.0.0.1:8080 "; u "ftp://10.0.0.9"])
           [Demo.proxy_b]).
  vm_compute. left.
Defined.
